(** * The BBO scraping session engine of [pages/2_BBO.py]

    A shallow embedding of the authenticated-scraping core: cookie text
    parsing, the timezone handshake, the login form submission, the result
    fetcher with its table location, and the statistics extractor.

    Python text is modelled by [string], the UTF-8 bytes of its
    characters: a byte below 128 is an ASCII character, and the operations
    that look at characters ([strip], slices, [len]) read the other
    characters off their bytes.  Python [int] is [Z], Python [float] the
    primitive binary64 [float].  Calls that leave the program (HTTP through
    a [requests] session, the clock, the logger, the streamlit widgets) are
    recorded as events of a trace; the remote side is a function from the
    trace so far and the request to a response or an exception. *)

From Stdlib Require Import ZArith Floats Uint63 Ascii String.
From stdpp Require Import gmap strings list pretty.

Set Warnings "-register-all".

Local Open Scope string_scope.
Local Open Scope Z_scope.
Local Open Scope list_scope.

(** ** Python strings *)

Module Str.

(** The string of the bytes with the given codes. *)
Definition bytes (codes : list nat) : string :=
  fold_right (fun n s => String (ascii_of_nat n) s) EmptyString codes.

(** The characters for which [str.isspace] holds, each as its UTF-8
    bytes: U+0009 to U+000D, U+001C to U+0020, U+0085, U+00A0, U+1680,
    U+2000 to U+200A, U+2028, U+2029, U+202F, U+205F and U+3000. *)
Definition spaces : list string :=
  map bytes
    [[9]; [10]; [11]; [12]; [13]; [28]; [29]; [30]; [31]; [32];
     [194; 133]; [194; 160]; [225; 154; 128];
     [226; 128; 128]; [226; 128; 129]; [226; 128; 130]; [226; 128; 131];
     [226; 128; 132]; [226; 128; 133]; [226; 128; 134]; [226; 128; 135];
     [226; 128; 136]; [226; 128; 137]; [226; 128; 138];
     [226; 128; 168]; [226; 128; 169]; [226; 128; 175];
     [226; 129; 159]; [227; 128; 128]]%nat.

(** Whether [s] is one white space character. *)
Definition is_space_char (s : string) : bool :=
  existsb (String.eqb s) spaces.

(** Whether the byte [c] is a white space character by itself. *)
Definition is_space (c : ascii) : bool :=
  is_space_char (String c EmptyString).

(** [s.lstrip()]: a white space character has one, two or three bytes. *)
Fixpoint lstrip (s : string) : string :=
  match s with
  | EmptyString => EmptyString
  | String c1 s1 =>
      if is_space_char (String c1 EmptyString) then lstrip s1
      else
        match s1 with
        | EmptyString => s
        | String c2 s2 =>
            if is_space_char (String c1 (String c2 EmptyString)) then lstrip s2
            else
              match s2 with
              | EmptyString => s
              | String c3 s3 =>
                  if is_space_char (String c1 (String c2 (String c3 EmptyString)))
                  then lstrip s3
                  else s
              end
        end
  end.

(** [s.rstrip()]: what follows the first byte is stripped first; when the
    byte and what is left of the rest make one white space character,
    nothing is left. *)
Fixpoint rstrip (s : string) : string :=
  match s with
  | EmptyString => EmptyString
  | String c s' =>
      if is_space_char (String c (rstrip s')) then EmptyString
      else String c (rstrip s')
  end.

(** [s.strip()] *)
Definition strip (s : string) : string := rstrip (lstrip s).

(** [needle in hay] *)
Fixpoint contains (needle hay : string) : bool :=
  String.prefix needle hay ||
  match hay with
  | EmptyString => false
  | String _ hay' => contains needle hay'
  end.

(** [c in s] for a single character. *)
Fixpoint has_char (c : ascii) (s : string) : bool :=
  match s with
  | EmptyString => false
  | String d s' => Ascii.eqb c d || has_char c s'
  end.

Definition lower_char (c : ascii) : ascii :=
  let n := nat_of_ascii c in
  if ((65 <=? n)%nat && (n <=? 90)%nat) then ascii_of_nat (n + 32) else c.

(** [s.lower()] on the ASCII letters.  The program lowers a text only to
    ask whether it holds [date], and no other character lowers to one of
    these four letters; the header names it sets are ASCII. *)
Fixpoint lower (s : string) : string :=
  match s with
  | EmptyString => EmptyString
  | String c s' => String (lower_char c) (lower s')
  end.

(** [s.replace(c, '')] for a single character [c]. *)
Fixpoint remove_char (c : ascii) (s : string) : string :=
  match s with
  | EmptyString => EmptyString
  | String d s' =>
      if Ascii.eqb c d then remove_char c s' else String d (remove_char c s')
  end.

(** [s.split(c)] for a single character separator: never empty. *)
Fixpoint split (c : ascii) (s : string) : list string :=
  match s with
  | EmptyString => [EmptyString]
  | String d s' =>
      if Ascii.eqb c d then EmptyString :: split c s'
      else match split c s' with
           | w :: ws => String d w :: ws
           | [] => [String d EmptyString]
           end
  end.

(** [s.split(c, 1)]: at most one cut, at the first [c]. *)
Fixpoint split1 (c : ascii) (s : string) : list string :=
  match s with
  | EmptyString => [EmptyString]
  | String d s' =>
      if Ascii.eqb c d then [EmptyString; s']
      else match split1 c s' with
           | w :: ws => String d w :: ws
           | [] => [String d EmptyString]
           end
  end.

(** [sep.join(l)] *)
Fixpoint join (sep : string) (l : list string) : string :=
  match l with
  | [] => EmptyString
  | [x] => x
  | x :: l' => x +:+ sep +:+ join sep l'
  end.

(** A byte that continues a character of several bytes. *)
Definition is_continuation (c : ascii) : bool :=
  let n := nat_of_ascii c in (128 <=? n)%nat && (n <? 192)%nat.

(** [s[:n]]: the first [n] characters, each with all its bytes. *)
Fixpoint take (n : nat) (s : string) : string :=
  match s with
  | EmptyString => EmptyString
  | String c s' =>
      if is_continuation c then String c (take n s')
      else match n with
           | O => EmptyString
           | S n' => String c (take n' s')
           end
  end.

(** [len(s)]: the number of characters. *)
Fixpoint len (s : string) : nat :=
  match s with
  | EmptyString => O
  | String c s' => if is_continuation c then len s' else S (len s')
  end.

(** [s.endswith(suf)] *)
Fixpoint suffix (suf s : string) : bool :=
  String.eqb suf s ||
  match s with
  | EmptyString => false
  | String _ s' => suffix suf s'
  end.

End Str.

Definition LF : ascii := "010"%char.
Definition EQUALS : ascii := "="%char.
Definition PERCENT : ascii := "%"%char.

(** ** Exceptions and the state-and-exception monad *)

(** A raised Python exception: its class name and [str(e)]. *)
Record exn := Exn { exn_type : string; exn_msg : string }.

Inductive result (A : Type) : Type :=
| Ok (a : A)
| Raise (e : exn).
Arguments Ok {A} a.
Arguments Raise {A} e.

Definition result_map {A B} (f : A -> B) (r : result A) : result B :=
  match r with
  | Ok a => Ok (f a)
  | Raise e => Raise e
  end.

(** A computation over a mutable store [S]: what the store holds when an
    exception is raised stays as it is, as with a Python object mutated in
    place. *)
Definition M (S A : Type) : Type := S -> result A * S.

Definition ret {S A} (a : A) : M S A := fun s => (Ok a, s).

Definition bind {S A B} (m : M S A) (k : A -> M S B) : M S B :=
  fun s => match m s with
           | (Ok a, s') => k a s'
           | (Raise e, s') => (Raise e, s')
           end.

Definition raise {S A} (e : exn) : M S A := fun s => (Raise e, s).

Definition lift {S A} (r : result A) : M S A := fun s => (r, s).

Definition modify {S} (f : S -> S) : M S unit := fun s => (Ok tt, f s).

Definition gets {S A} (f : S -> A) : M S A := fun s => (Ok (f s), s).

(** [try: body except Exception as e: handler(e)] *)
Definition try_except {S A} (body : M S A) (handler : exn -> M S A) : M S A :=
  fun s => match body s with
           | (Ok a, s') => (Ok a, s')
           | (Raise e, s') => handler e s'
           end.

Notation "x <- m ;; k" := (bind m (fun x => k))
  (at level 100, m at next level, right associativity).
Notation "m ;;; k" := (bind m (fun _ => k))
  (at level 100, right associativity).

(** [for x in l: body(x)] *)
Fixpoint for_each {S A} (l : list A) (body : A -> M S unit) : M S unit :=
  match l with
  | [] => ret tt
  | x :: l' => body x ;;; for_each l' body
  end.

(** [if l:] on a list. *)
Definition truthy {A} (l : list A) : bool :=
  match l with
  | [] => false
  | _ :: _ => true
  end.

(** ** Parsed documents (BeautifulSoup) *)

(** A parsed document is a tree of tags and text.  A tag carries its name,
    the items of its [class] attribute (the one multi-valued attribute the
    program looks at; empty when the attribute is absent) and its other
    attributes. *)
Inductive node :=
| NText (s : string)
| NTag (name : string) (classes : list string) (attrs : gmap string string)
       (children : list node).

Module Soup.

(** Every node below [n], in document order. *)
Fixpoint descendants (n : node) : list node :=
  match n with
  | NText _ => []
  | NTag _ _ _ cs => flat_map (fun c => c :: descendants c) cs
  end.

(** [tag.get_text()], also [tag.text] *)
Fixpoint get_text (n : node) : string :=
  match n with
  | NText s => s
  | NTag _ _ _ cs => fold_right (fun c acc => get_text c +:+ acc) EmptyString cs
  end.

(** [tag.get(k)] for a single-valued attribute. *)
Definition get (n : node) (k : string) : option string :=
  match n with
  | NText _ => None
  | NTag _ _ a _ => a !! k
  end.

Definition classes_of (n : node) : list string :=
  match n with
  | NText _ => []
  | NTag _ cl _ _ => cl
  end.

Definition mem (s : string) (l : list string) : bool :=
  existsb (String.eqb s) l.

(** [class_=wanted]: some item of the tag's class is wanted, or the items
    joined by a space are. *)
Definition class_matches (wanted : list string) (n : node) : bool :=
  existsb (fun c => mem c wanted) (classes_of n)
  || (match classes_of n with [] => false | _ => true end
      && mem (Str.join " " (classes_of n)) wanted).

(** [k=wanted] for a single-valued attribute. *)
Definition attr_matches (k wanted : string) (n : node) : bool :=
  match get n k with
  | Some v => String.eqb v wanted
  | None => false
  end.

Definition is_tag (name : string) (n : node) : bool :=
  match n with
  | NText _ => false
  | NTag t _ _ _ => String.eqb t name
  end.

(** [n.find_all(name)] *)
Definition find_all (n : node) (name : string) : list node :=
  List.filter (is_tag name) (descendants n).

(** [n.find_all(name, class_=wanted)], [wanted] one string or a list. *)
Definition find_all_class (n : node) (name : string) (wanted : list string)
  : list node :=
  List.filter (fun d => is_tag name d && class_matches wanted d) (descendants n).

(** [n.find(name, class_=wanted)] *)
Definition find_class (n : node) (name : string) (wanted : list string)
  : option node :=
  head (find_all_class n name wanted).

(** [n.find_all(name, k=wanted)] *)
Definition find_all_attr (n : node) (name k wanted : string) : list node :=
  List.filter (fun d => is_tag name d && attr_matches k wanted d) (descendants n).

(** [n.find(name, k=wanted)] *)
Definition find_attr (n : node) (name k wanted : string) : option node :=
  head (find_all_attr n name k wanted).

(** [n.select_one('name.cls')] *)
Definition select_class (n : node) (name cls : string) : option node :=
  head (List.filter (fun d => is_tag name d && mem cls (classes_of d))
                    (descendants n)).

(** [n.select_one('name#ident')] *)
Definition select_id (n : node) (name ident : string) : option node :=
  head (List.filter (fun d => is_tag name d && attr_matches "id" ident d)
                    (descendants n)).

End Soup.

(** ** Python values *)

(** The values [json.loads] can return, and the dictionaries the program
    builds from them.  A dictionary is its items in insertion order, with
    keys pairwise unequal. *)
Inductive pyval :=
| PNone
| PBool (b : bool)
| PInt (z : Z)
| PFloat (f : float)
| PStr (s : string)
| PList (l : list pyval)
| PDict (d : list (pyval * pyval)).

Module Py.

(** [f == z] for a float and an int, compared by exact value. *)
Definition float_int_eqb (f : float) (z : Z) : bool :=
  match Prim2SF f with
  | S754_zero _ => z =? 0
  | S754_finite sg m e =>
      let mag := Z.pos m in
      let sgn := if sg then -1 else 1 in
      if 0 <=? e then z =? sgn * (mag * 2 ^ e)
      else (mag mod 2 ^ (- e) =? 0) && (z =? sgn * (mag / 2 ^ (- e)))
  | _ => false
  end.

Definition int_of_bool (b : bool) : Z := if b then 1 else 0.

(** Whether two hashable values are the same dictionary key.  Numbers
    (bools included) are one key when equal by value; the not-a-number
    float is a single object in [json] and so one key. *)
Definition key_eqb (a b : pyval) : bool :=
  match a, b with
  | PNone, PNone => true
  | PStr s, PStr t => String.eqb s t
  | PBool x, PBool y => Bool.eqb x y
  | PBool x, PInt z | PInt z, PBool x => int_of_bool x =? z
  | PInt x, PInt y => x =? y
  | PBool x, PFloat f | PFloat f, PBool x => float_int_eqb f (int_of_bool x)
  | PInt z, PFloat f | PFloat f, PInt z => float_int_eqb f z
  | PFloat f, PFloat g => (PrimFloat.is_nan f && PrimFloat.is_nan g) || PrimFloat.eqb f g
  | _, _ => false
  end.

Definition hashable (v : pyval) : bool :=
  match v with
  | PList _ | PDict _ => false
  | _ => true
  end.

(** [d.get(k)] on the items of a dictionary. *)
Fixpoint dict_get (k : pyval) (d : list (pyval * pyval)) : option pyval :=
  match d with
  | [] => None
  | (k', v) :: d' => if key_eqb k k' then Some v else dict_get k d'
  end.

(** [d[k] = v]: an equal key keeps its place and its first spelling. *)
Fixpoint dict_set (k v : pyval) (d : list (pyval * pyval)) : list (pyval * pyval) :=
  match d with
  | [] => [(k, v)]
  | (k', v') :: d' =>
      if key_eqb k k' then (k', v) :: d' else (k', v') :: dict_set k v d'
  end.

Definition TypeError (msg : string) : exn := Exn "TypeError" msg.
Definition KeyError (msg : string) : exn := Exn "KeyError" msg.
Definition IndexError (msg : string) : exn := Exn "IndexError" msg.

(** [c[k]] for a string [k]: only a dictionary can be subscripted by a
    string. *)
Definition getitem (c : pyval) (k : string) : result pyval :=
  match c with
  | PDict d =>
      match dict_get (PStr k) d with
      | Some v => Ok v
      | None => Raise (KeyError ("'" +:+ k +:+ "'"))
      end
  | PList _ => Raise (TypeError "list indices must be integers or slices, not str")
  | PStr _ => Raise (TypeError "string indices must be integers, not 'str'")
  | PNone => Raise (TypeError "'NoneType' object is not subscriptable")
  | PBool _ => Raise (TypeError "'bool' object is not subscriptable")
  | PInt _ => Raise (TypeError "'int' object is not subscriptable")
  | PFloat _ => Raise (TypeError "'float' object is not subscriptable")
  end.

(** [l[i]] on a list of strings. *)
Definition index (l : list string) (i : nat) : result string :=
  match l !! i with
  | Some x => Ok x
  | None => Raise (IndexError "list index out of range")
  end.

End Py.

(** ** Dictionaries with string keys

    A Python [dict] keeps its items in insertion order; storing under a key
    it has keeps the key's place. *)

Module SDict.

Definition t (V : Type) : Type := list (string * V).

Fixpoint get {V} (k : string) (d : t V) : option V :=
  match d with
  | [] => None
  | (k', v) :: d' => if String.eqb k k' then Some v else get k d'
  end.

(** [k in d] *)
Definition has {V} (k : string) (d : t V) : bool :=
  match get k d with
  | Some _ => true
  | None => false
  end.

(** [d[k] = v] *)
Fixpoint set {V} (k : string) (v : V) (d : t V) : t V :=
  match d with
  | [] => [(k, v)]
  | (k', v') :: d' =>
      if String.eqb k k' then (k', v) :: d' else (k', v') :: set k v d'
  end.

(** [d.update(h)] *)
Definition update {V} (d h : t V) : t V :=
  fold_left (fun acc kv => set (fst kv) (snd kv) acc) h d.

(** [list(d.keys())] *)
Definition keys {V} (d : t V) : list string := map fst d.

End SDict.

(** [requests]' case-insensitive dictionary of headers: an item is stored
    under its lowered name, with the name as last written. *)
Module Headers.

Definition t : Type := gmap string (string * string).

Definition get (k : string) (h : t) : option string :=
  snd <$> h !! Str.lower k.

Definition set (k v : string) (h : t) : t := <[Str.lower k := (k, v)]> h.

(** [h.update(d)] *)
Definition update (h : t) (d : SDict.t string) : t :=
  fold_left (fun acc kv => set (fst kv) (snd kv) acc) d h.

End Headers.

(** ** The outside world: requests, the clock, the log and the widgets *)

Inductive level := INFO | WARNING | ERROR.

Inductive widget :=
| st_info | st_warning | st_error | st_success | st_expander | st_text
| st_write | st_code.

(** What a widget is given to show. *)
Inductive shown :=
| ShStr (s : string)
| ShInt (z : Z)
| ShForm (d : SDict.t (option string)).

Inductive method := GET | POST.

(** What the program reads of a [requests] response: [response.url] (the
    final URL, after redirects), [response.text], [response.status_code]. *)
Record Response := { resp_url : string; resp_text : string; resp_status_code : Z }.

(** One call of [session.get] or [session.post]: the session's own headers
    when the call is made, and the arguments of the call ([None] for an
    argument left out). *)
Record Request := {
  rq_method : method;
  rq_url : string;
  rq_session_headers : Headers.t;
  rq_headers : option (SDict.t string);
  rq_data : option (SDict.t (option string));
  rq_allow_redirects : option bool;
  rq_timeout : option Z;
  rq_proxies : option (SDict.t string)
}.

(** [EvSleep lo hi] is [time.sleep(random.uniform(lo, hi))], the bounds in
    milliseconds. *)
Inductive event :=
| EvRequest (r : Request)
| EvSleep (lo hi : Z)
| EvLog (l : level) (msg : string)
| EvUi (w : widget) (args : list shown).

(** [datetime.timedelta], normalised as Python keeps it. *)
Record timedelta := { days : Z; seconds : Z; microseconds : Z }.

(** The remote site and the local clock.  The site answers a request from
    everything that happened before it (its cookies and rate limits are a
    function of the earlier requests), with a response or an exception.
    [local_utcoffset] is [datetime.now().astimezone().utcoffset()] at the
    moment of the call. *)
Record world := {
  respond : list event -> Request -> result Response;
  local_utcoffset : list event -> timedelta
}.

(** The mutable part: the session's headers and the trace of events. *)
Record io := { session_headers : Headers.t; trace : list event }.

Definition IO (A : Type) : Type := M io A.

Definition emit (e : event) : IO unit :=
  modify (fun s => {| session_headers := session_headers s;
                      trace := trace s ++ [e] |}).

(** [session.headers.update(h)] *)
Definition headers_update (h : SDict.t string) : IO unit :=
  modify (fun s => {| session_headers := Headers.update (session_headers s) h;
                      trace := trace s |}).

Definition send (w : world) (m : method) (u : string)
    (hdrs : option (SDict.t string))
    (data : option (SDict.t (option string)))
    (allow : option bool) (timeout : option Z)
    (proxy : option (SDict.t string)) : IO Response :=
  fun s =>
    let rq := {| rq_method := m; rq_url := u;
                 rq_session_headers := session_headers s;
                 rq_headers := hdrs; rq_data := data;
                 rq_allow_redirects := allow; rq_timeout := timeout;
                 rq_proxies := proxy |} in
    (respond w (trace s) rq,
     {| session_headers := session_headers s;
        trace := trace s ++ [EvRequest rq] |}).

Definition sleep (lo hi : Z) : IO unit := emit (EvSleep lo hi).
Definition log (l : level) (msg : string) : IO unit := emit (EvLog l msg).
Definition ui (wd : widget) (args : list shown) : IO unit := emit (EvUi wd args).

(** ** StatisticsExtractor: [extract_player_statistics] *)

(** The [stats] dictionary: its six keys are fixed, so it is a record.
    A value is the int [0] it starts with, or what a row stored. *)
Record stats := Stats {
  IMPs_Total : pyval;
  IMPs_Hands : pyval;
  IMPs_Average : pyval;
  MPs_Average : pyval;
  MPs_Hands : pyval;
  Total_Masterpoints : pyval
}.

Definition zero_stats : stats :=
  Stats (PInt 0) (PInt 0) (PInt 0) (PInt 0) (PInt 0) (PInt 0).

Definition set_IMPs_Total (v : pyval) (s : stats) : stats :=
  Stats v (IMPs_Hands s) (IMPs_Average s) (MPs_Average s) (MPs_Hands s)
        (Total_Masterpoints s).
Definition set_IMPs_Hands (v : pyval) (s : stats) : stats :=
  Stats (IMPs_Total s) v (IMPs_Average s) (MPs_Average s) (MPs_Hands s)
        (Total_Masterpoints s).
Definition set_IMPs_Average (v : pyval) (s : stats) : stats :=
  Stats (IMPs_Total s) (IMPs_Hands s) v (MPs_Average s) (MPs_Hands s)
        (Total_Masterpoints s).
Definition set_MPs_Average (v : pyval) (s : stats) : stats :=
  Stats (IMPs_Total s) (IMPs_Hands s) (IMPs_Average s) v (MPs_Hands s)
        (Total_Masterpoints s).
Definition set_MPs_Hands (v : pyval) (s : stats) : stats :=
  Stats (IMPs_Total s) (IMPs_Hands s) (IMPs_Average s) (MPs_Average s) v
        (Total_Masterpoints s).
Definition set_Total_Masterpoints (v : pyval) (s : stats) : stats :=
  Stats (IMPs_Total s) (IMPs_Hands s) (IMPs_Average s) (MPs_Average s)
        (MPs_Hands s) v.

Section Extract.

(** The builtins [float(s)] and [int(s)]: a number, or [ValueError]. *)
Variable py_float : string -> result float.
Variable py_int : string -> result Z.

(** [if cell: stats[key] = conv(cell.text.strip())] *)
Definition store_cell {A} (cell : option node) (conv : string -> result A)
    (inj : A -> pyval) (set : pyval -> stats -> stats) : M stats unit :=
  match cell with
  | Some c =>
      x <- lift (conv (Str.strip (Soup.get_text c))) ;;
      modify (set (inj x))
  | None => ret tt
  end.

(** The body of the loop over the rows. *)
Definition extract_row (row : node) : M stats unit :=
  if negb (truthy (Soup.find_all row "th"))
     || negb (truthy (Soup.find_all row "td"))
  then ret tt
  else
    let th_elements := Soup.find_all row "th" in
    match th_elements with
    | [] => ret tt
    | th0 :: _ =>
        let label := Str.strip (Soup.get_text th0) in
        if Str.contains "IMPs Total" label then
          store_cell (Soup.find_class row "td" ["score"; "negscore"])
                     py_float PFloat set_IMPs_Total ;;;
          store_cell (Soup.find_class row "td" ["numhands"])
                     py_int PInt set_IMPs_Hands
        else if Str.contains "IMPs Average" label then
          store_cell (Soup.find_class row "td" ["score"; "negscore"])
                     py_float PFloat set_IMPs_Average
        else if Str.contains "MPs Average" label then
          store_cell (Soup.find_class row "td" ["score"])
                     (fun t => py_float (Str.remove_char PERCENT t))
                     PFloat set_MPs_Average ;;;
          store_cell (Soup.find_class row "td" ["numhands"])
                     py_int PInt set_MPs_Hands
        else if Str.contains "Total Masterpoints" label then
          store_cell (Soup.find_class row "td" ["score"])
                     py_float PFloat set_Total_Masterpoints
        else ret tt
    end.

(** [soup.find_all('tr', class_=['odd', 'even'])] *)
Definition total_rows (soup : node) : list node :=
  Soup.find_all_class soup "tr" ["odd"; "even"].

(** The body of the [try]. *)
Definition extract_body (soup : node) : M stats unit :=
  for_each (total_rows soup) extract_row.

(** [extract_player_statistics(soup)]: the returned [stats] and the lines
    it logged. *)
Definition extract_player_statistics (soup : node) : stats * list event :=
  match extract_body soup zero_stats with
  | (Ok _, st) => (st, [])
  | (Raise e, st) =>
      (st, [EvLog ERROR ("Error extracting statistics: " +:+ exn_msg e)])
  end.

End Extract.


(** ** The builtins on plain text

    [int], [float] and [repr] as the examples below need them: [int] and
    [float] agree with Python's on stripped ASCII decimal numerals (for
    [float]: a sign, digits and at most one point, below 2^53 once the
    point is dropped, with at most 22 digits after it) and on text that is
    no number at all, [repr] on printable ASCII text. *)

Module Builtin.

Definition digit (c : ascii) : option Z :=
  let n := nat_of_ascii c in
  if ((48 <=? n)%nat && (n <=? 57)%nat) then Some (Z.of_nat (n - 48)) else None.

(** Digits, a single underscore allowed between two of them; [acc] is
    the value of the digits read so far. *)
Fixpoint digits (acc : Z) (s : string) : option Z :=
  match s with
  | EmptyString => Some acc
  | String c s' =>
      match digit c with
      | Some v => digits (10 * acc + v) s'
      | None =>
          if Ascii.eqb c "_"%char then
            match s' with
            | String d s'' =>
                match digit d with
                | Some v => digits (10 * acc + v) s''
                | None => None
                end
            | EmptyString => None
            end
          else None
      end
  end.

Definition unsigned (s : string) : option Z :=
  match s with
  | String c s' =>
      match digit c with
      | Some v => digits v s'
      | None => None
      end
  | EmptyString => None
  end.

Definition signed (s : string) : option Z :=
  match s with
  | String c s' =>
      if Ascii.eqb c "-"%char then Z.opp <$> unsigned s'
      else if Ascii.eqb c "+"%char then unsigned s'
      else unsigned s
  | EmptyString => None
  end.

Definition ValueError (msg : string) : exn := Exn "ValueError" msg.

(** [int(s)] *)
Definition int (s : string) : result Z :=
  match signed (Str.strip s) with
  | Some z => Ok z
  | None =>
      Raise (ValueError ("invalid literal for int() with base 10: '" +:+ s +:+ "'"))
  end.

Definition float_of_Z (z : Z) : float :=
  if z <? 0 then PrimFloat.opp (PrimFloat.of_uint63 (Uint63.of_Z (- z)))
  else PrimFloat.of_uint63 (Uint63.of_Z z).

Fixpoint all_digits (s : string) : bool :=
  match s with
  | EmptyString => true
  | String c s' =>
      match digit c with
      | Some _ => all_digits s'
      | None => false
      end
  end.

(** The digits of [s] with the point dropped, and how many followed it. *)
Definition decimal (s : string) : option (Z * nat) :=
  match Str.split1 "."%char s with
  | [i] => if all_digits i then (fun m => (m, 0%nat)) <$> unsigned i else None
  | [i; f] =>
      if all_digits i && all_digits f then
        (fun m => (m, String.length f)) <$> unsigned (i +:+ f)
      else None
  | _ => None
  end.

Definition float_of_decimal (neg : bool) (d : Z * nat) : option float :=
  let (m, k) := d in
  if (m <? 2 ^ 53) && (k <=? 22)%nat then
    let x := PrimFloat.div (float_of_Z m) (float_of_Z (10 ^ Z.of_nat k)) in
    Some (if neg then PrimFloat.opp x else x)
  else None.

(** [float(s)] *)
Definition float (s : string) : result float :=
  let t := Str.strip s in
  let r :=
    match t with
    | String c t' =>
        if Ascii.eqb c "-"%char then decimal t' ≫= float_of_decimal true
        else if Ascii.eqb c "+"%char then decimal t' ≫= float_of_decimal false
        else decimal t ≫= float_of_decimal false
    | EmptyString => None
    end in
  match r with
  | Some x => Ok x
  | None => Raise (ValueError ("could not convert string to float: '" +:+ s +:+ "'"))
  end.

(** The double quote, the apostrophe and the backslash. *)
Definition DQ : ascii := "034"%char.
Definition SQ : ascii := "039"%char.
Definition BACKSLASH : ascii := "092"%char.

Fixpoint escaped (q : ascii) (s : string) : string :=
  match s with
  | EmptyString => EmptyString
  | String c s' =>
      if Ascii.eqb c BACKSLASH || Ascii.eqb c q
      then String BACKSLASH (String c (escaped q s'))
      else String c (escaped q s')
  end.

(** [repr(s)] for a string of printable ASCII characters: between
    apostrophes, or between double quotes when it holds an apostrophe and
    no double quote; a backslash is doubled and the quote in use is
    escaped. *)
Definition repr (s : string) : string :=
  let q := if Str.has_char SQ s && negb (Str.has_char DQ s) then DQ else SQ in
  String q (escaped q s) +:+ String q EmptyString.

End Builtin.

(** ** ManualCookieImport: [parse_cookie_text] *)

Definition result_bind {A B} (r : result A) (k : A -> result B) : result B :=
  match r with
  | Ok a => k a
  | Raise e => Raise e
  end.

Definition type_name (v : pyval) : string :=
  match v with
  | PNone => "NoneType"
  | PBool _ => "bool"
  | PInt _ => "int"
  | PFloat _ => "float"
  | PStr _ => "str"
  | PList _ => "list"
  | PDict _ => "dict"
  end.

(** [{c['name']: c['value'] for c in cookies}], the items so far in [acc]:
    the key is read, then the value, then the item is stored, which needs a
    hashable key. *)
Fixpoint cookie_dict (cookies : list pyval) (acc : list (pyval * pyval))
  : result (list (pyval * pyval)) :=
  match cookies with
  | [] => Ok acc
  | c :: rest =>
      result_bind (Py.getitem c "name") (fun k =>
      result_bind (Py.getitem c "value") (fun v =>
      if Py.hashable k then cookie_dict rest (Py.dict_set k v acc)
      else Raise (Py.TypeError ("unhashable type: '" +:+ type_name k +:+ "'"))))
  end.

(** The loop of the fallback over the lines: [cookies[parts[0]] = parts[1]]
    reads [parts[1]] first. *)
Fixpoint line_cookies (lines : list string) (acc : list (pyval * pyval))
  : result (list (pyval * pyval)) :=
  match lines with
  | [] => Ok acc
  | line :: rest =>
      if Str.has_char EQUALS line then
        let parts := Str.split1 EQUALS (Str.strip line) in
        result_bind (Py.index parts 1) (fun v =>
        result_bind (Py.index parts 0) (fun k =>
        line_cookies rest (Py.dict_set (PStr k) (PStr v) acc)))
      else line_cookies rest acc
  end.

Section Cookies.

(** [json.loads]: the decoded value, or the exception it raises. *)
Variable json_loads : string -> result pyval.

(** The body of the [try]: the structured reading. *)
Definition parse_structured (cookie_text : string) : result pyval :=
  result_bind (json_loads cookie_text) (fun cookies =>
  match cookies with
  | PList l => result_map PDict (cookie_dict l [])
  | _ => Ok cookies
  end).

(** The body of the [except]: the reading by lines. *)
Definition parse_lines (cookie_text : string) : result pyval :=
  result_map PDict (line_cookies (Str.split LF cookie_text) []).

(** [parse_cookie_text(cookie_text)]: the bare [except] takes every
    exception of the structured reading. *)
Definition parse_cookie_text (cookie_text : string) : result pyval :=
  match parse_structured cookie_text with
  | Ok v => Ok v
  | Raise _ => parse_lines cookie_text
  end.

End Cookies.

(** ** A decoder for plain JSON text

    [json.loads] as the examples below need it: it agrees with Python's on
    JSON text whose numbers are integers and whose strings hold no
    backslash, and on text that is not JSON at all. *)

Module Json.

Definition DQ : ascii := "034"%char.

Definition is_ws (c : ascii) : bool :=
  Ascii.eqb c " "%char || Ascii.eqb c "009"%char || Ascii.eqb c "010"%char
  || Ascii.eqb c "013"%char.

Fixpoint skip_ws (s : string) : string :=
  match s with
  | String c s' => if is_ws c then skip_ws s' else s
  | EmptyString => EmptyString
  end.

(** The characters of a string up to its closing quote, and the rest. *)
Fixpoint string_body (s : string) : option (string * string) :=
  match s with
  | EmptyString => None
  | String c s' =>
      if Ascii.eqb c DQ then Some (EmptyString, s')
      else if Ascii.eqb c "\"%char || (nat_of_ascii c <? 32)%nat then None
      else match string_body s' with
           | Some (b, r) => Some (String c b, r)
           | None => None
           end
  end.

(** The digits at the front of [s], and the rest. *)
Fixpoint span_digits (s : string) : string * string :=
  match s with
  | String c s' =>
      match Builtin.digit c with
      | Some _ => let (d, r) := span_digits s' in (String c d, r)
      | None => (EmptyString, s)
      end
  | EmptyString => (EmptyString, EmptyString)
  end.

Definition ends_number (r : string) : bool :=
  match r with
  | String c _ =>
      negb (Ascii.eqb c "."%char || Ascii.eqb c "e"%char || Ascii.eqb c "E"%char)
  | EmptyString => true
  end.

(** An integer: no leading zero before another digit, no fraction. *)
Definition number (s : string) : option (pyval * string) :=
  let (neg, t) :=
    match s with
    | String c s' => if Ascii.eqb c "-"%char then (true, s') else (false, s)
    | EmptyString => (false, s)
    end in
  let (d, r) := span_digits t in
  match d with
  | EmptyString => None
  | String c d' =>
      if (Ascii.eqb c "0"%char && negb (String.eqb d' EmptyString))
         || negb (ends_number r)
      then None
      else match Builtin.digits 0 d with
           | Some z => Some (PInt (if neg then - z else z), r)
           | None => None
           end
  end.

Definition literal (name : string) (v : pyval) (s : string)
  : option (pyval * string) :=
  if String.prefix name s
  then Some (v, String.substring (String.length name)
                                 (String.length s - String.length name) s)
  else None.

(** A value at the front of [s] and the rest of [s]; [fuel] bounds the
    nesting and the number of items. *)
Fixpoint value (fuel : nat) (s : string) : option (pyval * string) :=
  match fuel with
  | O => None
  | S n =>
      match skip_ws s with
      | EmptyString => None
      | String c r =>
          if Ascii.eqb c DQ then
            match string_body r with
            | Some (b, r') => Some (PStr b, r')
            | None => None
            end
          else if Ascii.eqb c "["%char then
            match skip_ws r with
            | String c' r' =>
                if Ascii.eqb c' "]"%char then Some (PList [], r')
                else
                  (fix items (k : nat) (t : string) (acc : list pyval) :=
                     match k with
                     | O => None
                     | S k' =>
                         match value n t with
                         | Some (v, t') =>
                             match skip_ws t' with
                             | String d t'' =>
                                 if Ascii.eqb d ","%char then items k' t'' (acc ++ [v])
                                 else if Ascii.eqb d "]"%char
                                      then Some (PList (acc ++ [v]), t'')
                                      else None
                             | EmptyString => None
                             end
                         | None => None
                         end
                     end) n r []
            | EmptyString => None
            end
          else if Ascii.eqb c "{"%char then
            match skip_ws r with
            | String c' r' =>
                if Ascii.eqb c' "}"%char then Some (PDict [], r')
                else
                  (fix members (k : nat) (t : string) (acc : list (pyval * pyval)) :=
                     match k with
                     | O => None
                     | S k' =>
                         match skip_ws t with
                         | String q t1 =>
                             if Ascii.eqb q DQ then
                               match string_body t1 with
                               | Some (key, t2) =>
                                   match skip_ws t2 with
                                   | String col t3 =>
                                       if Ascii.eqb col ":"%char then
                                         match value n t3 with
                                         | Some (v, t4) =>
                                             let acc' := Py.dict_set (PStr key) v acc in
                                             match skip_ws t4 with
                                             | String d t5 =>
                                                 if Ascii.eqb d ","%char
                                                 then members k' t5 acc'
                                                 else if Ascii.eqb d "}"%char
                                                      then Some (PDict acc', t5)
                                                      else None
                                             | EmptyString => None
                                             end
                                         | None => None
                                         end
                                       else None
                                   | EmptyString => None
                                   end
                               | None => None
                               end
                             else None
                         | EmptyString => None
                         end
                     end) n r []
            | EmptyString => None
            end
          else
            match literal "null" PNone (String c r) with
            | Some x => Some x
            | None =>
                match literal "true" (PBool true) (String c r) with
                | Some x => Some x
                | None =>
                    match literal "false" (PBool false) (String c r) with
                    | Some x => Some x
                    | None => number (String c r)
                    end
                end
            end
      end
  end.

Definition JSONDecodeError : exn := Exn "JSONDecodeError" "Expecting value".

(** [json.loads(s)] *)
Definition loads (s : string) : result pyval :=
  match value (S (String.length s)) s with
  | Some (v, r) =>
      match skip_ws r with
      | EmptyString => Ok v
      | _ => Raise JSONDecodeError
      end
  | None => Raise JSONDecodeError
  end.

(** [s] between quotes. *)
Definition quoted (s : string) : string :=
  String DQ s +:+ String DQ EmptyString.

End Json.

(** ** TimezoneHandshake: [get_local_timezone_offset], [handle_timezone_redirect] *)

(** The microseconds of a [timedelta]; [total_seconds()] is this number
    over a million. *)
Definition total_microseconds (d : timedelta) : Z :=
  (days d * 86400 + seconds d) * 1000000 + microseconds d.

(** [int(utc_offset.total_seconds() / 60)].  [int] cuts a float toward
    zero.  The two float divisions are off the exact quotient by less than
    one part in 2^50, and an offset below a day in minutes is a whole
    number or at least one part in sixty million away from one: cutting
    the float is cutting the exact quotient. *)
Definition offset_minutes (utc_offset : timedelta) : Z :=
  Z.quot (total_microseconds utc_offset) 60000000.

Definition landing_url : string := "https://www.bridgebase.com/myhands/index.php".

Section Site.

Variable w : world.

(** [get_local_timezone_offset()] *)
Definition get_local_timezone_offset : IO Z :=
  utc_offset <- gets (fun s => local_utcoffset w (trace s)) ;;
  ret (offset_minutes utc_offset).

(** [handle_timezone_redirect(session, proxy)] *)
Definition handle_timezone_redirect (proxy : option (SDict.t string)) : IO bool :=
  try_except
    (offset <- get_local_timezone_offset ;;
     log INFO ("Using timezone offset: " +:+ pretty offset +:+ " minutes") ;;;
     let tz_url := "https://www.bridgebase.com/myhands/index.php?&from_login=1" in
     let tz_data := [("offset", Some (pretty offset))] in
     headers_update
       [("Content-Type", "application/x-www-form-urlencoded");
        ("Referer", "https://www.bridgebase.com/myhands/index.php")] ;;;
     response <- send w POST tz_url None (Some tz_data) (Some true) (Some 15) proxy ;;
     if Str.contains "logout.php" (resp_text response) then
       log INFO "Successfully handled timezone redirect" ;;;
       ret true
     else
       let alt_url :=
         "https://www.bridgebase.com/myhands/index.php?offset=" +:+ pretty offset in
       alt_response <- send w GET alt_url None None None None proxy ;;
       if Str.contains "logout.php" (resp_text alt_response) then
         log INFO "Successfully handled timezone redirect via alternative URL" ;;;
         ret true
       else
         log WARNING "Failed to handle timezone redirect" ;;;
         ret false)
    (fun e =>
       log ERROR ("Error handling timezone redirect: " +:+ exn_msg e) ;;;
       ret false).

(** ** LoginFlow: [login_to_bbo] *)

(** [BeautifulSoup(text, 'html.parser')] *)
Variable html_parser : string -> node.

(** The headers of a new [requests.Session()]. *)
Variable default_headers : Headers.t.

(** [repr(s)] of a string. *)
Variable py_repr : string -> string.

(** [f'{value}'] for a string or [None]. *)
Definition format_opt (value : option string) : string :=
  match value with
  | Some v => v
  | None => "None"
  end.

(** The loop over [form.find_all('input', type='hidden')]. *)
Fixpoint collect_hidden (inputs : list node) (hidden_fields : SDict.t (option string))
  : IO (SDict.t (option string)) :=
  match inputs with
  | [] => ret hidden_fields
  | input_field :: rest =>
      let name := Soup.get input_field "name" in
      let value := Soup.get input_field "value" in
      match name with
      | Some n =>
          if negb (String.eqb n EmptyString) then
            log INFO ("Found hidden field: " +:+ n +:+ "=" +:+ format_opt value) ;;;
            collect_hidden rest (SDict.set n value hidden_fields)
          else collect_hidden rest hidden_fields
      | None => collect_hidden rest hidden_fields
      end
  end.

(** The hidden fields of the login page, with [t] and [count] added when
    the form has none. *)
Definition discover_fields (soup : node) : IO (SDict.t (option string)) :=
  let form := Soup.find_attr soup "form" "method" "post" in
  hidden_fields <-
    match form with
    | Some f => collect_hidden (Soup.find_all_attr f "input" "type" "hidden") []
    | None => ret []
    end ;;
  hidden_fields <-
    (if negb (SDict.has "t" hidden_fields) then
       log INFO "Added required target parameter" ;;;
       ret (SDict.set "t" (Some "/myhands/index.php?") hidden_fields)
     else ret hidden_fields) ;;
  (if negb (SDict.has "count" hidden_fields) then
     log INFO "Added required count parameter" ;;;
     ret (SDict.set "count" (Some "1") hidden_fields)
   else ret hidden_fields).

Definition credentials (username password : string) : SDict.t (option string) :=
  [("username", Some username); ("password", Some password);
   ("submit", Some "Login"); ("keep", Some "on")].

(** [str(list(d.keys()))]: the [repr] of each key, between brackets. *)
Definition format_keys (d : SDict.t (option string)) : string :=
  "[" +:+ Str.join ", " (map py_repr (SDict.keys d)) +:+ "]".

Definition login_page_url : string :=
  "https://www.bridgebase.com/myhands/myhands_login.php".

(** Step 3 of [login_to_bbo] and what follows it: the form is posted with
    the credentials and the hidden fields, the timezone page is handled,
    and the landing page tells whether the session is logged in. *)
Definition submit_login_form (username password : string)
    (proxy : option (SDict.t string)) (hidden_fields : SDict.t (option string))
  : IO (option Headers.t) :=
  sleep 1000 2500 ;;;
  ui st_info [ShStr "📨 Authenticating..."] ;;;
  let login_handler_url := "https://www.bridgebase.com/myhands/myhands_login.php" in
  let login_data := SDict.update (credentials username password) hidden_fields in
  log INFO ("Submitting form with fields: " +:+ format_keys login_data) ;;;
  headers_update
    [("Content-Type", "application/x-www-form-urlencoded");
     ("Origin", "https://www.bridgebase.com");
     ("Referer", login_page_url)] ;;;
  sleep 2000 4000 ;;;
  login_response <-
    send w POST login_handler_url None (Some login_data) (Some true) (Some 15) proxy ;;
  (if Str.contains "Javascript support is needed for this page"
                   (resp_text login_response) then
     ui st_info [ShStr "🕒 Handling timezone redirect..."] ;;;
     timezone_handled <- handle_timezone_redirect proxy ;;
     if negb timezone_handled then
       ui st_warning [ShStr "⚠️ Timezone handling unsuccessful, but continuing..."]
     else ret tt
   else ret tt) ;;;
  let test_url := "https://www.bridgebase.com/myhands/index.php" in
  test_response <- send w GET test_url None None None (Some 10) proxy ;;
  if Str.contains "logout.php" (resp_text test_response) then
    ui st_success [ShStr "✅ Login successful!"] ;;;
    session <- gets session_headers ;;
    ret (Some session)
  else
    ui st_expander [ShStr "🔍 Login Failure Analysis"] ;;;
    ui st_write [ShStr "Status Code:"; ShInt (resp_status_code login_response)] ;;;
    ui st_write [ShStr "Final URL:"; ShStr (resp_url login_response)] ;;;
    ui st_write [ShStr "Response Length:";
                 ShInt (Z.of_nat (Str.len (resp_text login_response)))] ;;;
    ui st_write [ShStr "Form Data Submitted:"; ShForm login_data] ;;;
    (if Str.contains "Javascript support is needed" (resp_text login_response) then
       ui st_error [ShStr "JavaScript required - session creation incomplete"] ;;;
       ui st_info [ShStr "Consider using Manual Cookies method instead"]
     else if Str.suffix "myhands_login.php" (resp_url login_response) then
       ui st_error [ShStr "Login failed - credentials rejected or form not submitted"]
     else if Str.contains "Invalid username or password" (resp_text login_response) then
       ui st_error [ShStr "BBO rejected the credentials"]
     else ret tt) ;;;
    ui st_text [ShStr "Response snippet:"] ;;;
    ui st_code [ShStr (Str.take 1000 (resp_text login_response))] ;;;
    ret None.

(** [login_to_bbo(username, password, proxy)]: the session's headers when
    the session is returned, [None] otherwise.  Steps 1 and 2 are here,
    step 3 is [submit_login_form]. *)
Definition login_to_bbo (username password : string)
    (proxy : option (SDict.t string)) : IO (option Headers.t) :=
  try_except
    (modify (fun s => {| session_headers := default_headers; trace := trace s |}) ;;;
     headers_update
       [("User-Agent", "Mozilla/5.0 (Windows NT 10.0; Win64; x64) AppleWebKit/537.36 (KHTML, like Gecko) Chrome/120.0.0.0 Safari/537.36");
        ("Accept", "text/html,application/xhtml+xml,application/xml;q=0.9,image/avif,image/webp,image/apng,*/*;q=0.8,application/signed-exchange;v=b3;q=0.7");
        ("Accept-Language", "en-US,en;q=0.9");
        ("Accept-Encoding", "gzip, deflate, br");
        ("DNT", "1");
        ("Connection", "keep-alive");
        ("Upgrade-Insecure-Requests", "1");
        ("Sec-Fetch-Dest", "document");
        ("Sec-Fetch-Mode", "navigate");
        ("Sec-Fetch-Site", "same-origin");
        ("Sec-Fetch-User", "?1")] ;;;
     ui st_info [ShStr "🔄 Initializing session..."] ;;;
     let home_url := "https://www.bridgebase.com/myhands/" in
     send w GET home_url None None None (Some 10) proxy ;;;
     sleep 1500 3000 ;;;
     ui st_info [ShStr "🔑 Loading login form..."] ;;;
     headers_update [("Referer", home_url)] ;;;
     login_page_response <- send w GET login_page_url None None None (Some 10) proxy ;;
     let soup := html_parser (resp_text login_page_response) in
     hidden_fields <- discover_fields soup ;;
     submit_login_form username password proxy hidden_fields)
    (fun e =>
       ui st_error [ShStr ("🚨 Login error: " +:+ exn_msg e)] ;;;
       ret None).

(** ** ResultFetcher: [scrape_bbo_hands] *)

(** The selectors the fetcher knows: [tag.cls] and [tag#ident]. *)
Inductive selector :=
| ByClass (tag cls : string)
| ById (tag ident : string).

(** [soup.select_one(selector)] *)
Definition select_one (soup : node) (sel : selector) : option node :=
  match sel with
  | ByClass tag cls => Soup.select_class soup tag cls
  | ById tag ident => Soup.select_id soup tag ident
  end.

Definition table_selectors : list selector :=
  [ByClass "table" "body"; ById "table" "hand_results"; ByClass "table" "hands";
   ByClass "table" "handlist"].

(** The loop over the selectors, left at the first one that selects. *)
Fixpoint first_selected (soup : node) (selectors : list selector) : option node :=
  match selectors with
  | [] => None
  | sel :: rest =>
      match select_one soup sel with
      | Some table => Some table
      | None => first_selected soup rest
      end
  end.

(** [any('date' in h.text.lower() for h in headers if h.text)] *)
Definition has_date_header (headers : list node) : bool :=
  existsb (fun h => Str.contains "date" (Str.lower (Soup.get_text h)))
          (List.filter (fun h => negb (String.eqb (Soup.get_text h) EmptyString))
                       headers).

Definition looks_like_hands (potential_table : node) : bool :=
  truthy (Soup.find_all potential_table "tr")
  && (1 <? length (Soup.find_all potential_table "tr"))%nat
  && (let headers := Soup.find_all potential_table "th" in
      truthy headers && has_date_header headers).

(** The loop over [soup.find_all('table')], left at the first table that
    looks like hand records. *)
Fixpoint generic_scan (tables : list node) : option node :=
  match tables with
  | [] => None
  | potential_table :: rest =>
      if looks_like_hands potential_table then Some potential_table
      else generic_scan rest
  end.

Definition locate_table (soup : node) : option node :=
  match first_selected soup table_selectors with
  | Some table => Some table
  | None => generic_scan (Soup.find_all soup "table")
  end.

Definition unless (silent : bool) (m : IO unit) : IO unit :=
  if negb silent then m else ret tt.

(** [scrape_bbo_hands(session, url, proxy, silent)] *)
Definition scrape_bbo_hands (url : string) (proxy : option (SDict.t string))
    (silent : bool) : IO (option node * option node) :=
  try_except
    (let maint_url := "https://www.bridgebase.com/myhands/index.php" in
     refresh_resp <- send w GET maint_url None None None (Some 10) proxy ;;
     if Str.contains "login.php" (resp_url refresh_resp) then
       ui st_error [ShStr "Session has expired. Please login again."] ;;;
       ret (None, None)
     else
       sleep 500 1500 ;;;
       let headers :=
         [("Referer", "https://www.bridgebase.com/myhands/index.php");
          ("Sec-Fetch-Dest", "document");
          ("Sec-Fetch-Mode", "navigate");
          ("Sec-Fetch-Site", "same-origin");
          ("Sec-Fetch-User", "?1")] in
       log INFO ("Fetching: " +:+ url) ;;;
       unless silent (ui st_info [ShStr "Retrieving data from BBO..."]) ;;;
       sleep 1000 2500 ;;;
       response <- send w GET url (Some headers) None (Some true) (Some 15) proxy ;;
       if Str.contains "login.php" (resp_url response) then
         log WARNING "Session expired" ;;;
         ui st_error [ShStr "Session expired during data retrieval"] ;;;
         ret (None, None)
       else
         response <-
           (if Str.contains "Javascript support is needed" (resp_text response) then
              unless silent
                (ui st_warning
                    [ShStr "Hit JavaScript requirement - trying to handle timezone..."]) ;;;
              handle_timezone_redirect proxy ;;;
              sleep 1000 2000 ;;;
              send w GET url (Some headers) None None (Some 15) proxy
            else ret response) ;;
         if Str.contains "You have no saved hands" (resp_text response) then
           log INFO "No hands found" ;;;
           ret (None, None)
         else
           let soup := html_parser (resp_text response) in
           match locate_table soup with
           | Some table => ret (Some soup, Some table)
           | None =>
               log WARNING "No table found" ;;;
               unless silent
                 (ui st_expander [ShStr "Raw Response"] ;;;
                  ui st_text [ShStr (Str.take 2000 (resp_text response))]) ;;;
               ret (None, None)
           end)
    (fun e =>
       log ERROR ("Scraping error: " +:+ exn_msg e) ;;;
       unless silent (ui st_error [ShStr ("Error retrieving data: " +:+ exn_msg e)]) ;;;
       ret (None, None)).

End Site.

(** * Verification *)

(** *** The rows as sequences of stores

    What a row does to [stats] is a short sequence of stores, each into one
    field and each with the outcome of its conversion.  [row_writes] lists
    them; [extract_row_writes] below shows that running them is what
    [extract_row] does. *)

Inductive field :=
| F_IMPs_Total | F_IMPs_Hands | F_IMPs_Average | F_MPs_Average | F_MPs_Hands
| F_Total_Masterpoints.

Definition set_field (f : field) : pyval -> stats -> stats :=
  match f with
  | F_IMPs_Total => set_IMPs_Total
  | F_IMPs_Hands => set_IMPs_Hands
  | F_IMPs_Average => set_IMPs_Average
  | F_MPs_Average => set_MPs_Average
  | F_MPs_Hands => set_MPs_Hands
  | F_Total_Masterpoints => set_Total_Masterpoints
  end.

Definition get_field (f : field) : stats -> pyval :=
  match f with
  | F_IMPs_Total => IMPs_Total
  | F_IMPs_Hands => IMPs_Hands
  | F_IMPs_Average => IMPs_Average
  | F_MPs_Average => MPs_Average
  | F_MPs_Hands => MPs_Hands
  | F_Total_Masterpoints => Total_Masterpoints
  end.

(** The aggregate rows the extractor knows, in the order it tests them. *)
Inductive kind :=
| K_IMPs_Total | K_IMPs_Average | K_MPs_Average | K_Total_Masterpoints.

Definition label_kind (label : string) : option kind :=
  if Str.contains "IMPs Total" label then Some K_IMPs_Total
  else if Str.contains "IMPs Average" label then Some K_IMPs_Average
  else if Str.contains "MPs Average" label then Some K_MPs_Average
  else if Str.contains "Total Masterpoints" label then Some K_Total_Masterpoints
  else None.

(** The label a row carries: the text of its first header cell, when the
    row has a header cell and a value cell. *)
Definition row_label (row : node) : option string :=
  if negb (truthy (Soup.find_all row "th"))
     || negb (truthy (Soup.find_all row "td"))
  then None
  else match Soup.find_all row "th" with
       | [] => None
       | th0 :: _ => Some (Str.strip (Soup.get_text th0))
       end.

Definition row_kind (row : node) : option kind :=
  match row_label row with
  | Some label => label_kind label
  | None => None
  end.

Definition fields_of_kind (k : kind) : list field :=
  match k with
  | K_IMPs_Total => [F_IMPs_Total; F_IMPs_Hands]
  | K_IMPs_Average => [F_IMPs_Average]
  | K_MPs_Average => [F_MPs_Average; F_MPs_Hands]
  | K_Total_Masterpoints => [F_Total_Masterpoints]
  end.

Definition write : Type := field * result pyval.

Definition cell_write {A} (cell : option node) (conv : string -> result A)
    (inj : A -> pyval) (f : field) : list write :=
  match cell with
  | Some c => [(f, result_map inj (conv (Str.strip (Soup.get_text c))))]
  | None => []
  end.

Fixpoint run_writes (ws : list write) : M stats unit :=
  match ws with
  | [] => ret tt
  | (f, r) :: ws' => (x <- lift r ;; modify (set_field f x)) ;;; run_writes ws'
  end.

(** The stores of a list of writes that all convert. *)
Fixpoint apply_writes (ws : list write) (st : stats) : stats :=
  match ws with
  | [] => st
  | (f, Ok v) :: ws' => apply_writes ws' (set_field f v st)
  | (_, Raise _) :: ws' => apply_writes ws' st
  end.

Definition write_ok (w : write) : Prop := exists v, snd w = Ok v.

Section Writes.

Variable py_float : string -> result float.
Variable py_int : string -> result Z.

Definition row_writes (row : node) : list write :=
  match row_kind row with
  | None => []
  | Some K_IMPs_Total =>
      cell_write (Soup.find_class row "td" ["score"; "negscore"])
                 py_float PFloat F_IMPs_Total
      ++ cell_write (Soup.find_class row "td" ["numhands"])
                    py_int PInt F_IMPs_Hands
  | Some K_IMPs_Average =>
      cell_write (Soup.find_class row "td" ["score"; "negscore"])
                 py_float PFloat F_IMPs_Average
  | Some K_MPs_Average =>
      cell_write (Soup.find_class row "td" ["score"])
                 (fun t => py_float (Str.remove_char PERCENT t))
                 PFloat F_MPs_Average
      ++ cell_write (Soup.find_class row "td" ["numhands"])
                    py_int PInt F_MPs_Hands
  | Some K_Total_Masterpoints =>
      cell_write (Soup.find_class row "td" ["score"])
                 py_float PFloat F_Total_Masterpoints
  end.

(** A row parses when each cell it reads converts. *)
Definition row_parses (row : node) : Prop := Forall write_ok (row_writes row).

Lemma run_writes_app (a b : list write) (st : stats) :
  run_writes (a ++ b) st = (run_writes a ;;; run_writes b) st.
Proof.
  revert st; induction a as [|[f r] a IH]; intros st; simpl.
  - reflexivity.
  - unfold bind at 1 3 4. unfold lift.
    destruct r as [v|e]; simpl; [|reflexivity].
    rewrite IH. reflexivity.
Qed.

Lemma store_cell_write {A} cell (conv : string -> result A) inj f st :
  store_cell cell conv inj (set_field f) st
  = run_writes (cell_write cell conv inj f) st.
Proof.
  unfold store_cell, cell_write. destruct cell as [c|]; simpl; [|reflexivity].
  unfold bind, lift. destruct (conv _); reflexivity.
Qed.

Lemma extract_row_writes (row : node) (st : stats) :
  extract_row py_float py_int row st = run_writes (row_writes row) st.
Proof.
  unfold extract_row, row_writes, row_kind, row_label.
  destruct (negb (truthy (Soup.find_all row "th"))
            || negb (truthy (Soup.find_all row "td"))); [reflexivity|].
  destruct (Soup.find_all row "th") as [|th0 ths]; [reflexivity|].
  unfold label_kind.
  destruct (Str.contains "IMPs Total" _).
  { rewrite run_writes_app. unfold bind.
    rewrite (store_cell_write _ _ _ F_IMPs_Total).
    destruct (run_writes _ st) as [[[]|e] st']; [|reflexivity].
    apply (store_cell_write _ _ _ F_IMPs_Hands). }
  destruct (Str.contains "IMPs Average" _).
  { apply (store_cell_write _ _ _ F_IMPs_Average). }
  destruct (Str.contains "MPs Average" _).
  { rewrite run_writes_app. unfold bind.
    rewrite (store_cell_write _ _ _ F_MPs_Average).
    destruct (run_writes _ st) as [[[]|e] st']; [|reflexivity].
    apply (store_cell_write _ _ _ F_MPs_Hands). }
  destruct (Str.contains "Total Masterpoints" _).
  { apply (store_cell_write _ _ _ F_Total_Masterpoints). }
  reflexivity.
Qed.

Lemma for_each_writes (rows : list node) (st : stats) :
  for_each rows (extract_row py_float py_int) st
  = run_writes (flat_map row_writes rows) st.
Proof.
  revert st; induction rows as [|row rows IH]; intros st; simpl.
  - reflexivity.
  - rewrite run_writes_app. unfold bind.
    rewrite extract_row_writes.
    destruct (run_writes (row_writes row) st) as [[[]|e] st']; [apply IH|reflexivity].
Qed.

End Writes.

(** *** Running a sequence of stores *)

(** Splits a membership in a list given by its items into its cases. *)
Ltac elem_cases H :=
  repeat (apply elem_of_cons in H as [H|H]);
  try (apply elem_of_nil in H; contradiction).

Lemma for_each_app {S A} (a b : list A) (body : A -> M S unit) (s : S) :
  for_each (a ++ b) body s = (for_each a body ;;; for_each b body) s.
Proof.
  revert s; induction a as [|x a IH]; intros s; simpl.
  - reflexivity.
  - unfold bind. destruct (body x s) as [[[]|e] s']; [apply IH|reflexivity].
Qed.

Lemma run_writes_ok (ws : list write) (st : stats) :
  Forall write_ok ws -> run_writes ws st = (Ok tt, apply_writes ws st).
Proof.
  intros H; revert st; induction H as [|[f r] ws [v Hv] _ IH]; intros st; simpl.
  - reflexivity.
  - simpl in Hv; subst r. unfold bind, lift, modify; simpl. apply IH.
Qed.

Lemma get_set_field_eq (f : field) (v : pyval) (st : stats) :
  get_field f (set_field f v st) = v.
Proof. destruct f; reflexivity. Qed.

Lemma get_set_field_ne (f g : field) (v : pyval) (st : stats) :
  f <> g -> get_field f (set_field g v st) = get_field f st.
Proof. destruct f, g; intros H; try reflexivity; contradiction. Qed.

Lemma set_field_comm (f g : field) (u v : pyval) (st : stats) :
  f <> g -> set_field f u (set_field g v st) = set_field g v (set_field f u st).
Proof. destruct f, g, st; intros H; try reflexivity; contradiction. Qed.

(** A sequence of stores leaves alone the fields it does not name, also
    when it stops on an exception. *)
Lemma run_writes_untouched (f : field) (ws : list write) (st : stats) :
  f ∉ map fst ws -> get_field f (snd (run_writes ws st)) = get_field f st.
Proof.
  revert st; induction ws as [|[g r] ws IH]; intros st Hf; simpl.
  - reflexivity.
  - simpl in Hf. apply not_elem_of_cons in Hf as [Hne Hf].
    unfold bind, lift, modify. destruct r as [v|e]; simpl; [|reflexivity].
    rewrite IH by assumption. apply get_set_field_ne; assumption.
Qed.

Lemma apply_writes_app (a b : list write) (st : stats) :
  apply_writes (a ++ b) st = apply_writes b (apply_writes a st).
Proof.
  revert st; induction a as [|[f [v|e]] a IH]; intros st; simpl; auto.
Qed.

Lemma apply_writes_set_comm (f : field) (v : pyval) (ws : list write) (st : stats) :
  f ∉ map fst ws ->
  apply_writes ws (set_field f v st) = set_field f v (apply_writes ws st).
Proof.
  revert st; induction ws as [|[g [u|e]] ws IH]; intros st Hf; simpl in *.
  - reflexivity.
  - apply not_elem_of_cons in Hf as [Hne Hf].
    rewrite <- IH by assumption. f_equal. apply set_field_comm. congruence.
  - apply not_elem_of_cons in Hf as [_ Hf]. apply IH; assumption.
Qed.

(** Two sequences of stores into different fields can be run in either
    order. *)
Lemma apply_writes_comm (a b : list write) (st : stats) :
  (forall f, f ∈ map fst a -> f ∉ map fst b) ->
  apply_writes b (apply_writes a st) = apply_writes a (apply_writes b st).
Proof.
  revert st; induction a as [|[f [v|e]] a IH]; intros st Hd; simpl.
  - reflexivity.
  - rewrite IH by (intros g Hg; apply Hd; simpl; right; exact Hg).
    rewrite apply_writes_set_comm; [reflexivity|].
    apply Hd; simpl; left.
  - apply IH. intros g Hg; apply Hd; simpl; right; exact Hg.
Qed.

Section Rows.

Variable py_float : string -> result float.
Variable py_int : string -> result Z.

Abbreviation writes := (row_writes py_float py_int).
Abbreviation parses := (row_parses py_float py_int).

Lemma cell_write_fields {A} cell (conv : string -> result A) inj f g :
  g ∈ map fst (cell_write cell conv inj f) -> g = f.
Proof.
  unfold cell_write. destruct cell; simpl; intros H.
  - apply list_elem_of_singleton in H. exact H.
  - apply elem_of_nil in H. contradiction.
Qed.

(** A row stores only into the fields of its kind. *)
Lemma row_writes_fields (row : node) (f : field) :
  f ∈ map fst (writes row) ->
  exists k, row_kind row = Some k /\ f ∈ fields_of_kind k.
Proof.
  unfold row_writes. destruct (row_kind row) as [k|]; simpl.
  - intros H. exists k; split; [reflexivity|].
    destruct k; simpl in *;
      repeat (rewrite map_app in H; apply elem_of_app in H as [H|H]);
      apply cell_write_fields in H; subst f;
      repeat first [apply list_elem_of_here | apply list_elem_of_further].
  - intros H. apply elem_of_nil in H. contradiction.
Qed.

Lemma fields_of_kind_disjoint (k1 k2 : kind) (f : field) :
  k1 <> k2 -> f ∈ fields_of_kind k1 -> f ∉ fields_of_kind k2.
Proof.
  intros Hne H1 H2. destruct k1, k2; try contradiction; simpl in *;
    elem_cases H1; subst f; elem_cases H2; discriminate.
Qed.

Lemma flat_map_writes_fields (rows : list node) (f : field) :
  f ∈ map fst (flat_map writes rows) ->
  exists row, row ∈ rows /\ f ∈ map fst (writes row).
Proof.
  induction rows as [|r rows IH]; simpl; intros H.
  - apply elem_of_nil in H. contradiction.
  - rewrite map_app in H. apply elem_of_app in H as [H|H].
    + exists r. split; [left|exact H].
    + destruct (IH H) as (row & Hin & Hf). exists row. split; [right|]; assumption.
Qed.

Lemma flat_map_parses (rows : list node) :
  Forall parses rows -> Forall write_ok (flat_map writes rows).
Proof.
  induction 1 as [|r rows Hr _ IH]; simpl.
  - constructor.
  - apply Forall_app. split; assumption.
Qed.

(** The summary of rows that all parse, as a pure function of the rows. *)
Definition summary_of (rows : list node) : stats :=
  apply_writes (flat_map writes rows) zero_stats.

Lemma extract_parses (soup : node) :
  Forall parses (total_rows soup) ->
  extract_player_statistics py_float py_int soup = (summary_of (total_rows soup), []).
Proof.
  intros H. unfold extract_player_statistics, extract_body.
  rewrite for_each_writes, run_writes_ok by (apply flat_map_parses; exact H).
  reflexivity.
Qed.

(** Rows of pairwise different kinds that all parse give the same stores
    in whatever order they stand. *)
Lemma apply_rows_permutation (l1 l2 : list node) :
  l1 ≡ₚ l2 ->
  Forall parses l1 ->
  NoDup (omap row_kind l1) ->
  forall st, apply_writes (flat_map writes l1) st
             = apply_writes (flat_map writes l2) st.
Proof.
  induction 1 as [|x l l' Hp IH|x y l|l l' l'' Hp1 IH1 Hp2 IH2];
    intros Hok Hnd st.
  - reflexivity.
  - simpl. rewrite !apply_writes_app. apply IH.
    + apply Forall_inv_tail in Hok. exact Hok.
    + simpl in Hnd. destruct (row_kind x); [apply NoDup_cons in Hnd as [_ Hnd]|];
        exact Hnd.
  - simpl. rewrite !apply_writes_app. f_equal.
    apply apply_writes_comm. intros f Hy Hx.
    apply row_writes_fields in Hy as (ky & Hky & Hfy).
    apply row_writes_fields in Hx as (kx & Hkx & Hfx).
    simpl in Hnd. rewrite Hky, Hkx in Hnd.
    apply NoDup_cons in Hnd as [Hnin _].
    apply (fields_of_kind_disjoint ky kx f); try assumption.
    intros ->. apply Hnin. left.
  - rewrite IH1 by assumption. apply IH2.
    + rewrite <- Hp1. exact Hok.
    + rewrite <- Hp1. exact Hnd.
Qed.

End Rows.

(** *** Example documents *)

Definition tag (name : string) (classes : list string) (children : list node) : node :=
  NTag name classes ∅ children.

Definition cell (cls txt : string) : node := tag "td" [cls] [NText txt].

(** A row of the results table: a header cell with the label, then value
    cells. *)
Definition stat_row (cls label : string) (cells : list node) : node :=
  tag "tr" [cls] (tag "th" [] [NText label] :: cells).

Definition page (rows : list node) : node :=
  tag "[document]" [] [tag "table" ["body"] rows].

Definition row_bad_hands : node :=
  stat_row "odd" "IMPs Total" [cell "numhands" "n/a"].

Definition row_mps : node :=
  stat_row "even" "MPs Average" [cell "score" "64.3%"; cell "numhands" "5"].

Definition row_bad_average : node :=
  stat_row "odd" "IMPs Average" [cell "score" "abc"].

Definition row_masterpoints : node :=
  stat_row "even" "Total Masterpoints" [cell "score" "12.5"].

Definition row_imps : node :=
  stat_row "odd" "IMPs Total" [cell "negscore" "-7.5"; cell "numhands" "12"].

(** *** The extractor on whole documents *)

Section Extractor.

Variable py_float : string -> result float.
Variable py_int : string -> result Z.

Abbreviation extract := (extract_player_statistics py_float py_int).
Abbreviation writes := (row_writes py_float py_int).
Abbreviation parses := (row_parses py_float py_int).

Lemma extract_fst (soup : node) :
  fst (extract soup) = snd (extract_body py_float py_int soup zero_stats).
Proof.
  unfold extract_player_statistics.
  destruct (extract_body py_float py_int soup zero_stats) as [[[]|e] st]; reflexivity.
Qed.

Lemma extract_no_label (soup : node) :
  (forall row label, row ∈ total_rows soup -> row_label row = Some label ->
                     label_kind label = None) ->
  extract soup = (zero_stats, []).
Proof.
  intros H. unfold extract_player_statistics, extract_body.
  rewrite for_each_writes.
  assert (E : flat_map writes (total_rows soup) = []).
  { induction (total_rows soup) as [|r rows IH]; [reflexivity|]. simpl.
    rewrite IH by (intros row label Hin; apply H; right; exact Hin).
    assert (Hr : row_kind r = None).
    { unfold row_kind. destruct (row_label r) as [label|] eqn:E; [|reflexivity].
      apply (H r label); [left|exact E]. }
    unfold row_writes. rewrite Hr. reflexivity. }
  rewrite E. reflexivity.
Qed.

Lemma extract_stops (soup : node) (pre post : list node) (row : node)
    (st st' : stats) (e : exn) :
  total_rows soup = pre ++ row :: post ->
  for_each pre (extract_row py_float py_int) zero_stats = (Ok tt, st) ->
  extract_row py_float py_int row st = (Raise e, st') ->
  extract soup = (st', [EvLog ERROR ("Error extracting statistics: " +:+ exn_msg e)]).
Proof.
  intros Hrows Hpre Hrow. unfold extract_player_statistics, extract_body.
  rewrite Hrows, for_each_app. unfold bind at 1. rewrite Hpre. simpl.
  unfold bind. rewrite Hrow. reflexivity.
Qed.

Lemma row_writes_nodup (row : node) : NoDup (map fst (writes row)).
Proof.
  unfold row_writes, cell_write.
  destruct (row_kind row) as [[]|]; simpl;
    repeat match goal with
           | |- context [match ?c with Some _ => _ | None => _ end] => destruct c
           end; simpl;
    repeat (apply NoDup_cons; split;
            [intros H; elem_cases H; discriminate|]);
    apply NoDup_nil; exact I.
Qed.

Lemma extract_last_store (soup : node) (pre post : list node) (row : node)
    (f : field) (v : pyval) :
  total_rows soup = pre ++ row :: post ->
  Forall parses (pre ++ [row]) ->
  (f, Ok v) ∈ writes row ->
  (forall r, r ∈ post -> f ∉ map fst (writes r)) ->
  get_field f (fst (extract soup)) = v.
Proof.
  intros Hrows Hok Hin Hpost.
  rewrite extract_fst. unfold extract_body. rewrite for_each_writes, Hrows.
  apply list_elem_of_split in Hin as (a & b & Hab).
  pose proof (row_writes_nodup row) as Hnd. rewrite Hab in Hnd.
  rewrite map_app in Hnd. apply NoDup_app in Hnd as (_ & _ & Hnd).
  simpl in Hnd. apply NoDup_cons in Hnd as [Hfb _].
  apply Forall_app in Hok as [Hpre Hrow].
  apply Forall_inv in Hrow. unfold row_parses in Hrow.
  rewrite Hab in Hrow. apply Forall_app in Hrow as [Ha _].
  rewrite flat_map_app. simpl. rewrite Hab.
  rewrite run_writes_app. unfold bind at 1.
  rewrite run_writes_ok by (apply flat_map_parses; exact Hpre).
  rewrite <- app_assoc, run_writes_app. unfold bind at 1.
  rewrite run_writes_ok by exact Ha.
  simpl. unfold bind, lift, modify; simpl.
  rewrite run_writes_untouched.
  - apply get_set_field_eq.
  - rewrite map_app. intros Hf. apply elem_of_app in Hf as [Hf|Hf].
    + contradiction.
    + apply flat_map_writes_fields in Hf as (r & Hr & Hfr).
      exact (Hpost r Hr Hfr).
Qed.

Lemma extract_permutation (soup1 soup2 : node) :
  total_rows soup1 ≡ₚ total_rows soup2 ->
  Forall parses (total_rows soup1) ->
  NoDup (omap row_kind (total_rows soup1)) ->
  extract soup1 = extract soup2.
Proof.
  intros Hp Hok Hnd.
  rewrite !extract_parses by (try rewrite <- Hp; exact Hok).
  unfold summary_of. f_equal. apply apply_rows_permutation; assumption.
Qed.

End Extractor.

(** Closes a goal [Forall write_ok ws] on stores given by their cells. *)
Ltac writes_ok_by_computation :=
  unfold row_parses;
  match goal with
  | |- Forall write_ok ?ws =>
      let ws' := eval vm_compute in ws in change (Forall write_ok ws')
  end;
  repeat first [apply Forall_nil_2 | apply Forall_cons_2; [eexists; reflexivity|]].

(** Closes a goal [Forall (row_parses ..) rows] on rows given by their
    cells. *)
Ltac parses_by_computation :=
  match goal with
  | |- Forall ?P ?rows =>
      let rows' := eval vm_compute in rows in change (Forall P rows')
  end;
  repeat first [apply Forall_nil_2 | apply Forall_cons_2; [writes_ok_by_computation|]].

(** Closes a goal [NoDup l] for a list [l] of constants given by its items. *)
Ltac nodup_by_cases :=
  vm_compute;
  repeat (apply NoDup_cons_2; [intros H; elem_cases H; discriminate|]);
  apply NoDup_nil_2.

(** C2, as the code has it: one malformed cell ends the extraction.  With
    a row whose hand count is no number standing first, the later row is
    not read and its hand count stays at zero, whereas alone it gives 5. *)
Lemma extract_malformed_row_hides_later_rows :
  extract_player_statistics Builtin.float Builtin.int (page [row_mps])
  = (set_MPs_Hands (PInt 5) (set_MPs_Average (PFloat (643 / 10)) zero_stats), [])
  /\ extract_player_statistics Builtin.float Builtin.int (page [row_bad_hands; row_mps])
     = (zero_stats,
        [EvLog ERROR
           "Error extracting statistics: invalid literal for int() with base 10: 'n/a'"]).
Proof. split; vm_compute; reflexivity. Qed.

(** C2 (amended): [extract_player_statistics] is total: for every document
    it returns the summary the body of its [try] left, and never raises.  A
    document none of whose rows carries a known label gives the all-zero
    summary.  When every row parses, the summary is what the rows store.
    The first cell that does not convert ends the extraction: the summary
    is what the rows before it, and the row itself up to that cell, have
    stored, and the rows after it are not read. *)
Theorem extract_total_stops_at_malformed_cell
    (py_float : string -> result float) (py_int : string -> result Z) (soup : node) :
  fst (extract_player_statistics py_float py_int soup)
  = snd (extract_body py_float py_int soup zero_stats)
  /\ ((forall row label, row ∈ total_rows soup -> row_label row = Some label ->
                         label_kind label = None) ->
      extract_player_statistics py_float py_int soup = (zero_stats, []))
  /\ (Forall (row_parses py_float py_int) (total_rows soup) ->
      extract_player_statistics py_float py_int soup
      = (summary_of py_float py_int (total_rows soup), []))
  /\ (forall pre row post st st' e,
        total_rows soup = pre ++ row :: post ->
        for_each pre (extract_row py_float py_int) zero_stats = (Ok tt, st) ->
        extract_row py_float py_int row st = (Raise e, st') ->
        extract_player_statistics py_float py_int soup
        = (st', [EvLog ERROR ("Error extracting statistics: " +:+ exn_msg e)])).
Proof.
  split; [apply extract_fst|].
  split; [apply extract_no_label|].
  split; [apply extract_parses|].
  intros pre row post st st' e. apply extract_stops.
Qed.

Lemma extract_total_stops_at_malformed_cell_witness :
  extract_player_statistics Builtin.float Builtin.int
    (page [row_imps; row_bad_hands; row_mps])
  = (set_IMPs_Hands (PInt 12) (set_IMPs_Total (PFloat (-7.5)) zero_stats),
     [EvLog ERROR
        "Error extracting statistics: invalid literal for int() with base 10: 'n/a'"])
  /\ extract_player_statistics Builtin.float Builtin.int
       (page [stat_row "odd" "Board" [cell "score" "abc"]])
     = (zero_stats, [])
  /\ extract_player_statistics Builtin.float Builtin.int (page [row_imps; row_mps])
     = (summary_of Builtin.float Builtin.int
          (total_rows (page [row_imps; row_mps])), []).
Proof.
  split; [|split].
  - apply (proj2 (proj2 (proj2
      (extract_total_stops_at_malformed_cell Builtin.float Builtin.int
         (page [row_imps; row_bad_hands; row_mps]))))
      [row_imps] row_bad_hands [row_mps]
      (set_IMPs_Hands (PInt 12) (set_IMPs_Total (PFloat (-7.5)) zero_stats))
      (set_IMPs_Hands (PInt 12) (set_IMPs_Total (PFloat (-7.5)) zero_stats))
      (Builtin.ValueError "invalid literal for int() with base 10: 'n/a'")).
    + reflexivity.
    + vm_compute. reflexivity.
    + vm_compute. reflexivity.
  - apply (proj1 (proj2
      (extract_total_stops_at_malformed_cell Builtin.float Builtin.int
         (page [stat_row "odd" "Board" [cell "score" "abc"]])))).
    intros row label Hrow Hlabel. vm_compute in Hrow. elem_cases Hrow. subst row.
    vm_compute in Hlabel. injection Hlabel as <-. reflexivity.
  - apply (proj1 (proj2 (proj2
      (extract_total_stops_at_malformed_cell Builtin.float Builtin.int
         (page [row_imps; row_mps]))))).
    parses_by_computation.
Defined.

(** C9, as the code has it: two rows with different labels, one of them
    with a score that is no number.  With the malformed row first nothing
    is stored; with the rows exchanged the masterpoints are. *)
Lemma extract_depends_on_row_order :
  [row_bad_average; row_masterpoints] ≡ₚ [row_masterpoints; row_bad_average]
  /\ omap row_kind [row_bad_average; row_masterpoints]
     = [K_IMPs_Average; K_Total_Masterpoints]
  /\ fst (extract_player_statistics Builtin.float Builtin.int
            (page [row_bad_average; row_masterpoints]))
     = zero_stats
  /\ fst (extract_player_statistics Builtin.float Builtin.int
            (page [row_masterpoints; row_bad_average]))
     = set_Total_Masterpoints (PFloat 12.5) zero_stats.
Proof.
  split; [apply perm_swap|].
  repeat split; vm_compute; reflexivity.
Qed.

(** C9 (amended): as long as every row parses, the order of the rows does
    not matter: two documents whose rows are a permutation of each other,
    the rows that carry a known label carrying pairwise different ones,
    give the same summary.  When several rows store into one field, the
    field holds the value of the last row in document order that stores
    into it, provided the rows up to that one parse. *)
Theorem extract_order_free_when_rows_parse
    (py_float : string -> result float) (py_int : string -> result Z) :
  (forall soup1 soup2,
      total_rows soup1 ≡ₚ total_rows soup2 ->
      Forall (row_parses py_float py_int) (total_rows soup1) ->
      NoDup (omap row_kind (total_rows soup1)) ->
      extract_player_statistics py_float py_int soup1
      = extract_player_statistics py_float py_int soup2)
  /\ (forall soup pre row post f v,
        total_rows soup = pre ++ row :: post ->
        Forall (row_parses py_float py_int) (pre ++ [row]) ->
        (f, Ok v) ∈ row_writes py_float py_int row ->
        (forall r, r ∈ post -> f ∉ map fst (row_writes py_float py_int r)) ->
        get_field f (fst (extract_player_statistics py_float py_int soup)) = v).
Proof.
  split.
  - apply extract_permutation.
  - intros soup pre row post f v. apply extract_last_store.
Qed.

Lemma extract_order_free_when_rows_parse_witness :
  extract_player_statistics Builtin.float Builtin.int (page [row_imps; row_mps])
  = extract_player_statistics Builtin.float Builtin.int (page [row_mps; row_imps])
  /\ IMPs_Hands (fst (extract_player_statistics Builtin.float Builtin.int
                        (page [stat_row "odd" "IMPs Total" [cell "numhands" "3"];
                               row_imps; row_mps])))
     = PInt 12.
Proof.
  split.
  - apply (proj1 (extract_order_free_when_rows_parse Builtin.float Builtin.int)).
    + apply perm_swap.
    + parses_by_computation.
    + nodup_by_cases.
  - apply (proj2 (extract_order_free_when_rows_parse Builtin.float Builtin.int)
             (page [stat_row "odd" "IMPs Total" [cell "numhands" "3"]; row_imps; row_mps])
             [stat_row "odd" "IMPs Total" [cell "numhands" "3"]] row_imps [row_mps]
             F_IMPs_Hands (PInt 12)).
    + reflexivity.
    + parses_by_computation.
    + vm_compute. apply list_elem_of_further, list_elem_of_here.
    + intros r Hr. elem_cases Hr. subst r. vm_compute. intros H.
      elem_cases H; discriminate.
Defined.

(** ** ManualCookieImport *)

(** *** Facts on strings *)

(** Whether a text starts, and whether it ends, with a white space
    character. *)
Definition starts_space (s : string) : bool :=
  existsb (fun sp => String.prefix sp s) Str.spaces.

Definition ends_space (s : string) : bool :=
  existsb (fun sp => Str.suffix sp s) Str.spaces.

Lemma has_char_app (c : ascii) (a b : string) :
  Str.has_char c (a +:+ b) = Str.has_char c a || Str.has_char c b.
Proof.
  induction a as [|d a IH]; simpl; [reflexivity|].
  rewrite IH. apply orb_assoc.
Qed.

Lemma split1_cut (c : ascii) (n v : string) :
  Str.has_char c n = false -> Str.split1 c (n +:+ String c v) = [n; v].
Proof.
  induction n as [|d n IH]; simpl; intros H.
  - rewrite Ascii.eqb_refl. reflexivity.
  - apply orb_false_elim in H as [Hd Hn]. rewrite Hd, (IH Hn). reflexivity.
Qed.

Lemma split_whole (c : ascii) (a : string) :
  Str.has_char c a = false -> Str.split c a = [a].
Proof.
  induction a as [|d a IH]; simpl; intros H; [reflexivity|].
  apply orb_false_elim in H as [Hd Ha]. rewrite Hd, (IH Ha). reflexivity.
Qed.

Lemma split_cut (c : ascii) (a b : string) :
  Str.has_char c a = false ->
  Str.split c (a +:+ String c b) = a :: Str.split c b.
Proof.
  induction a as [|d a IH]; simpl; intros H.
  - rewrite Ascii.eqb_refl. reflexivity.
  - apply orb_false_elim in H as [Hd Ha]. rewrite Hd, (IH Ha). reflexivity.
Qed.

Lemma split_join (c : ascii) (l : string) (ls : list string) :
  Forall (fun x => Str.has_char c x = false) (l :: ls) ->
  Str.split c (Str.join (String c EmptyString) (l :: ls)) = l :: ls.
Proof.
  revert l; induction ls as [|x ls IH]; intros l H.
  - simpl. apply split_whole. apply Forall_inv in H. exact H.
  - change (Str.join (String c EmptyString) (l :: x :: ls))
      with (l +:+ String c (Str.join (String c EmptyString) (x :: ls))).
    rewrite split_cut by (apply Forall_inv in H; exact H).
    rewrite IH by (apply Forall_inv_tail in H; exact H). reflexivity.
Qed.

Lemma existsb_orb {A} (f g : A -> bool) (l : list A) :
  existsb (fun x => f x || g x) l = existsb f l || existsb g l.
Proof.
  induction l as [|x l IH]; simpl; [reflexivity|].
  rewrite IH. destruct (f x), (g x), (existsb f l); reflexivity.
Qed.

Lemma existsb_agree {A} (f g : A -> bool) (l : list A) :
  (forall x, x ∈ l -> f x = g x) -> existsb f l = existsb g l.
Proof.
  induction l as [|x l IH]; intros H; simpl; [reflexivity|].
  rewrite (H x) by left. rewrite IH; [reflexivity|].
  intros y Hy. apply H. right. exact Hy.
Qed.

Lemma existsb_none {A} (f : A -> bool) (l : list A) (x : A) :
  existsb f l = false -> x ∈ l -> f x = false.
Proof.
  induction l as [|y l IH]; simpl; intros H Hx.
  - elem_cases Hx.
  - apply orb_false_elim in H as [Hy Hl].
    apply elem_of_cons in Hx as [->|Hx]; [exact Hy|exact (IH Hl Hx)].
Qed.

(** A byte that no white space character holds. *)
Definition no_space_byte (c : ascii) : bool :=
  forallb (fun sp => negb (Str.has_char c sp)) Str.spaces.

Lemma space_lacks (c : ascii) (sp : string) :
  no_space_byte c = true -> sp ∈ Str.spaces -> Str.has_char c sp = false.
Proof.
  unfold no_space_byte. rewrite forallb_forall. intros H Hsp.
  apply negb_true_iff, H, list_elem_of_In, Hsp.
Qed.

Lemma is_space_char_spaces (p : string) :
  Str.is_space_char p = true -> p ∈ Str.spaces.
Proof.
  unfold Str.is_space_char. rewrite existsb_exists. intros (sp & Hin & E).
  apply String.eqb_eq in E. subst sp. apply list_elem_of_In. exact Hin.
Qed.

Lemma prefix_app_self (p r : string) : String.prefix p (p +:+ r) = true.
Proof.
  induction p as [|a p IH]; simpl; [destruct r; reflexivity|].
  destruct (ascii_dec a a) as [_|N]; [exact IH|contradiction].
Qed.

Lemma is_space_char_starts (p r : string) :
  Str.is_space_char p = true -> starts_space (p +:+ r) = true.
Proof.
  intros H. apply is_space_char_spaces in H.
  unfold starts_space. apply existsb_exists. exists p.
  split; [apply list_elem_of_In; exact H|apply prefix_app_self].
Qed.

Lemma lstrip_id (s : string) : starts_space s = false -> Str.lstrip s = s.
Proof.
  intros H. destruct s as [|c1 s1]; [reflexivity|]. cbn [Str.lstrip].
  destruct (Str.is_space_char (String c1 EmptyString)) eqn:E1.
  { rewrite (is_space_char_starts (String c1 EmptyString) s1 E1
             : starts_space (String c1 s1) = true) in H.
    discriminate. }
  destruct s1 as [|c2 s2]; [reflexivity|].
  destruct (Str.is_space_char (String c1 (String c2 EmptyString))) eqn:E2.
  { rewrite (is_space_char_starts (String c1 (String c2 EmptyString)) s2 E2
             : starts_space (String c1 (String c2 s2)) = true) in H.
    discriminate. }
  destruct s2 as [|c3 s3]; [reflexivity|].
  destruct (Str.is_space_char (String c1 (String c2 (String c3 EmptyString)))) eqn:E3.
  { rewrite (is_space_char_starts (String c1 (String c2 (String c3 EmptyString))) s3 E3
             : starts_space (String c1 (String c2 (String c3 s3))) = true) in H.
    discriminate. }
  reflexivity.
Qed.

Lemma ends_space_cons (c : ascii) (s : string) :
  ends_space (String c s) = Str.is_space_char (String c s) || ends_space s.
Proof.
  unfold ends_space, Str.is_space_char. cbn [Str.suffix].
  rewrite existsb_orb. f_equal. apply existsb_agree. intros sp _.
  apply String.eqb_sym.
Qed.

Lemma rstrip_id (s : string) : ends_space s = false -> Str.rstrip s = s.
Proof.
  induction s as [|c s IH]; [reflexivity|]. intros H.
  rewrite ends_space_cons in H. apply orb_false_elim in H as [Hc Hs].
  cbn [Str.rstrip]. rewrite (IH Hs), Hc. reflexivity.
Qed.

Lemma eqb_lacks (c : ascii) (a b : string) :
  Str.has_char c a = false -> Str.has_char c b = true -> String.eqb a b = false.
Proof.
  intros Ha Hb. destruct (String.eqb a b) eqn:E; [|reflexivity].
  apply String.eqb_eq in E. subst b. congruence.
Qed.

Lemma suffix_cons (sp : string) (d : ascii) (t : string) :
  Str.suffix sp (String d t) = String.eqb sp (String d t) || Str.suffix sp t.
Proof. reflexivity. Qed.

(** A text that holds [c] ends with a character without [c] when what
    follows the last [c] does. *)
Lemma suffix_after (c : ascii) (sp a b : string) :
  Str.has_char c sp = false ->
  Str.suffix sp (a +:+ String c b) = Str.suffix sp b.
Proof.
  intros H. induction a as [|d a IH].
  - change (EmptyString +:+ String c b) with (String c b).
    rewrite suffix_cons, (eqb_lacks c sp (String c b) H); [reflexivity|].
    simpl. rewrite Ascii.eqb_refl. reflexivity.
  - change (String d a +:+ String c b) with (String d (a +:+ String c b)).
    rewrite suffix_cons, IH.
    rewrite (eqb_lacks c sp (String d (a +:+ String c b)) H); [reflexivity|].
    simpl. rewrite has_char_app. simpl. rewrite Ascii.eqb_refl.
    rewrite orb_true_r. apply orb_true_r.
Qed.

(** And it starts with such a character when what comes before the first
    [c] does. *)
Lemma prefix_before (c : ascii) (sp a b : string) :
  Str.has_char c sp = false ->
  String.prefix sp (a +:+ String c b) = String.prefix sp a.
Proof.
  revert a. induction sp as [|x sp IH]; intros a H; [destruct a; reflexivity|].
  simpl in H. apply orb_false_elim in H as [Hx Hsp].
  destruct a as [|d a].
  - change (EmptyString +:+ String c b) with (String c b). simpl.
    destruct (ascii_dec x c) as [->|_]; [|reflexivity].
    rewrite Ascii.eqb_refl in Hx. discriminate.
  - change (String d a +:+ String c b) with (String d (a +:+ String c b)). simpl.
    destruct (ascii_dec x d); [apply IH; exact Hsp|reflexivity].
Qed.

Lemma ends_space_after (c : ascii) (a b : string) :
  no_space_byte c = true -> ends_space (a +:+ String c b) = ends_space b.
Proof.
  intros H. apply existsb_agree. intros sp Hsp.
  apply suffix_after, (space_lacks c sp H Hsp).
Qed.

Lemma starts_space_before (c : ascii) (a b : string) :
  no_space_byte c = true -> starts_space (a +:+ String c b) = starts_space a.
Proof.
  intros H. apply existsb_agree. intros sp Hsp.
  apply prefix_before, (space_lacks c sp H Hsp).
Qed.

(** *** The two readings on the same pairs *)

(** The line that encodes a pair, and an object that does. *)
Definition cookie_line (p : string * string) : string :=
  fst p +:+ String EQUALS (snd p).

Definition encodes (c : pyval) (p : string * string) : Prop :=
  exists d, c = PDict d
            /\ Py.dict_get (PStr "name") d = Some (PStr (fst p))
            /\ Py.dict_get (PStr "value") d = Some (PStr (snd p)).

(** A pair a line can carry: the name has no equals sign and does not
    start with a white space character (ASCII or not: [strip] takes them
    all), the value does not end with one, and neither holds a line
    feed. *)
Definition valid_pair (p : string * string) : bool :=
  negb (Str.has_char EQUALS (fst p)) && negb (Str.has_char LF (fst p))
  && negb (starts_space (fst p))
  && negb (Str.has_char LF (snd p)) && negb (ends_space (snd p)).

(** The dictionary that storing the pairs one after the other gives. *)
Definition cookie_items (pairs : list (string * string)) (acc : list (pyval * pyval))
  : list (pyval * pyval) :=
  fold_left (fun acc p => Py.dict_set (PStr (fst p)) (PStr (snd p)) acc) pairs acc.

Lemma cookie_dict_encoded (cookies : list pyval) (pairs : list (string * string)) :
  Forall2 encodes cookies pairs ->
  forall acc, cookie_dict cookies acc = Ok (cookie_items pairs acc).
Proof.
  induction 1 as [|c p cookies pairs (d & -> & Hn & Hv) _ IH]; intros acc; simpl.
  - reflexivity.
  - rewrite Hn, Hv. simpl. apply IH.
Qed.

Lemma cookie_line_strip (p : string * string) :
  valid_pair p = true -> Str.strip (cookie_line p) = cookie_line p.
Proof.
  destruct p as [n v]. unfold valid_pair, cookie_line; simpl. intros H.
  repeat (apply andb_prop in H as [H ?]).
  repeat match goal with
         | H : negb _ = true |- _ => apply negb_true_iff in H
         end.
  unfold Str.strip. rewrite lstrip_id.
  - apply rstrip_id. rewrite (ends_space_after EQUALS) by reflexivity. assumption.
  - rewrite (starts_space_before EQUALS) by reflexivity. assumption.
Qed.

Lemma line_cookies_encoded (pairs : list (string * string)) :
  forallb valid_pair pairs = true ->
  forall acc, line_cookies (map cookie_line pairs) acc = Ok (cookie_items pairs acc).
Proof.
  induction pairs as [|p pairs IH]; intros H acc; simpl.
  - reflexivity.
  - simpl in H. apply andb_prop in H as [Hp H].
    rewrite (cookie_line_strip p Hp).
    destruct p as [n v]. unfold cookie_line; simpl.
    unfold valid_pair in Hp; simpl in Hp.
    repeat (apply andb_prop in Hp as [Hp ?]).
    rewrite has_char_app. simpl. rewrite orb_true_r.
    rewrite split1_cut by (apply negb_true_iff; assumption).
    simpl. apply IH. exact H.
Qed.

Lemma cookie_line_no_lf (p : string * string) :
  valid_pair p = true -> Str.has_char LF (cookie_line p) = false.
Proof.
  destruct p as [n v]. unfold valid_pair, cookie_line; simpl. intros H.
  repeat (apply andb_prop in H as [H ?]).
  rewrite has_char_app. simpl.
  repeat match goal with
         | H : negb _ = true |- _ => apply negb_true_iff in H
         end.
  repeat match goal with
         | H : Str.has_char LF _ = false |- _ => rewrite H
         end.
  reflexivity.
Qed.

Section CookieFacts.

Variable json_loads : string -> result pyval.

Lemma parse_lines_encoded (pairs : list (string * string)) :
  forallb valid_pair pairs = true ->
  parse_lines (Str.join (String LF EmptyString) (map cookie_line pairs))
  = Ok (PDict (cookie_items pairs [])).
Proof.
  intros H. unfold parse_lines.
  destruct pairs as [|p pairs]; [reflexivity|].
  change (map cookie_line (p :: pairs)) with (cookie_line p :: map cookie_line pairs).
  rewrite split_join.
  - change (cookie_line p :: map cookie_line pairs)
      with (map cookie_line (p :: pairs)).
    rewrite line_cookies_encoded by exact H. reflexivity.
  - change (cookie_line p :: map cookie_line pairs)
      with (map cookie_line (p :: pairs)).
    apply Forall_map, Forall_forall. intros q Hq. apply cookie_line_no_lf.
    rewrite forallb_forall in H. apply H. apply list_elem_of_In. exact Hq.
Qed.

Lemma parse_structured_encoded (s : string) (cookies : list pyval)
    (pairs : list (string * string)) :
  json_loads s = Ok (PList cookies) ->
  Forall2 encodes cookies pairs ->
  parse_structured json_loads s = Ok (PDict (cookie_items pairs [])).
Proof.
  intros Hs Hc. unfold parse_structured. rewrite Hs. simpl.
  rewrite (cookie_dict_encoded cookies pairs Hc). reflexivity.
Qed.

End CookieFacts.

(** *** Example cookie texts *)

Definition cookie_json (p : string * string) : string :=
  "{" +:+ Json.quoted "name" +:+ ": " +:+ Json.quoted (fst p) +:+ ", "
  +:+ Json.quoted "value" +:+ ": " +:+ Json.quoted (snd p) +:+ "}".

(** The pairs as a JSON list of objects, and as lines. *)
Definition structured_text (pairs : list (string * string)) : string :=
  "[" +:+ Str.join ", " (map cookie_json pairs) +:+ "]".

Definition line_text (pairs : list (string * string)) : string :=
  Str.join (String LF EmptyString) (map cookie_line pairs).

Definition example_pairs : list (string * string) :=
  [("SRV", "www1"); ("myhands_token", "u=abc;k=1"); ("SRV", "www2")].

(** A JSON list whose one item is the string [a=b], on a line of its own. *)
Definition list_of_a_string : string :=
  "[" +:+ String LF (Json.quoted "a=b") +:+ String LF "]".

(** C5: [parse_cookie_text] returns what the structured reading gives
    whenever that reading succeeds, and the reading by lines otherwise.
    For a JSON list of objects with string [name] and [value] entries and
    a text of [name=value] lines that encode the same pairs in the same
    order (the text being no JSON document of cookies itself, and the pairs
    being ones a line can carry: no equals sign in a name, no line feed,
    no white space character, ASCII or other, at the start of a name or
    at the end of a value, since [strip] would take it), both parses give
    the same dictionary. *)
Theorem parse_cookie_text_formats_agree
    (json_loads : string -> result pyval) (structured lines : string)
    (cookies : list pyval) (pairs : list (string * string)) (e : exn) :
  json_loads structured = Ok (PList cookies) ->
  Forall2 encodes cookies pairs ->
  lines = Str.join (String LF EmptyString) (map cookie_line pairs) ->
  parse_structured json_loads lines = Raise e ->
  forallb valid_pair pairs = true ->
  (forall text v, parse_structured json_loads text = Ok v ->
                  parse_cookie_text json_loads text = Ok v)
  /\ (forall text e', parse_structured json_loads text = Raise e' ->
                      parse_cookie_text json_loads text = parse_lines text)
  /\ parse_cookie_text json_loads structured = Ok (PDict (cookie_items pairs []))
  /\ parse_cookie_text json_loads lines = Ok (PDict (cookie_items pairs [])).
Proof.
  intros Hs Hc Hl Hraise Hvalid.
  split; [|split; [|split]].
  - intros text v H. unfold parse_cookie_text. rewrite H. reflexivity.
  - intros text e' H. unfold parse_cookie_text. rewrite H. reflexivity.
  - unfold parse_cookie_text.
    rewrite (parse_structured_encoded json_loads structured cookies pairs Hs Hc).
    reflexivity.
  - unfold parse_cookie_text. rewrite Hraise. subst lines.
    apply parse_lines_encoded. exact Hvalid.
Qed.

Lemma parse_cookie_text_formats_agree_witness :
  parse_cookie_text Json.loads (structured_text example_pairs)
  = Ok (PDict [(PStr "SRV", PStr "www2"); (PStr "myhands_token", PStr "u=abc;k=1")])
  /\ parse_cookie_text Json.loads (line_text example_pairs)
     = Ok (PDict [(PStr "SRV", PStr "www2"); (PStr "myhands_token", PStr "u=abc;k=1")]).
Proof.
  apply (parse_cookie_text_formats_agree Json.loads
           (structured_text example_pairs) (line_text example_pairs)
           (map (fun p => PDict [(PStr "name", PStr (fst p)); (PStr "value", PStr (snd p))])
                example_pairs)
           example_pairs Json.JSONDecodeError).
  - vm_compute. reflexivity.
  - repeat (apply Forall2_cons_2;
            [eexists; split; [reflexivity|split; reflexivity]|]).
    apply Forall2_nil_2.
  - reflexivity.
  - vm_compute. reflexivity.
  - vm_compute. reflexivity.
Defined.

(** C10, as the code has it: the text is valid JSON, a list, so decoding
    does not raise; building the dictionary from it does, and the bare
    [except] takes that too: the result is the reading by lines. *)
Lemma parse_cookie_text_falls_back_on_decoded_list :
  Json.loads list_of_a_string = Ok (PList [PStr "a=b"])
  /\ parse_structured Json.loads list_of_a_string
     = Raise (Py.TypeError "string indices must be integers, not 'str'")
  /\ parse_cookie_text Json.loads list_of_a_string
     = Ok (PDict [(PStr (String Json.DQ "a"), PStr ("b" +:+ String Json.DQ EmptyString))])
  /\ parse_cookie_text Json.loads list_of_a_string = parse_lines list_of_a_string.
Proof. repeat split; vm_compute; reflexivity. Qed.

(** C10 (amended): [parse_cookie_text] falls back to the reading by lines
    when JSON decoding raises, and also when the decoded value is a list
    from which the dictionary cannot be built.  A decoded value that is
    not a list is returned as it is, whether or not it is a mapping from
    names to values, and the lines are not read: the text [7] gives the
    number 7. *)
Theorem parse_cookie_text_fallback_cases
    (json_loads : string -> result pyval) (cookie_text : string) :
  (forall v, json_loads cookie_text = Ok v -> (forall l, v <> PList l) ->
             parse_cookie_text json_loads cookie_text = Ok v)
  /\ (forall e, json_loads cookie_text = Raise e ->
                parse_cookie_text json_loads cookie_text = parse_lines cookie_text)
  /\ (forall l, json_loads cookie_text = Ok (PList l) ->
                parse_cookie_text json_loads cookie_text
                = match cookie_dict l [] with
                  | Ok d => Ok (PDict d)
                  | Raise _ => parse_lines cookie_text
                  end)
  /\ parse_cookie_text Json.loads "7" = Ok (PInt 7).
Proof.
  unfold parse_cookie_text, parse_structured.
  split; [|split; [|split]].
  - intros v Hv Hl. rewrite Hv. simpl.
    destruct v; try reflexivity. exfalso. exact (Hl l eq_refl).
  - intros e He. rewrite He. reflexivity.
  - intros l Hl. rewrite Hl. simpl. destruct (cookie_dict l []); reflexivity.
  - vm_compute. reflexivity.
Qed.

Lemma parse_cookie_text_fallback_cases_witness :
  parse_cookie_text Json.loads (Json.quoted "a=b") = Ok (PStr "a=b")
  /\ parse_cookie_text Json.loads "SRV=www1" = parse_lines "SRV=www1"
  /\ parse_cookie_text Json.loads "[7]" = parse_lines "[7]".
Proof.
  split; [|split].
  - apply (proj1 (parse_cookie_text_fallback_cases Json.loads (Json.quoted "a=b"))).
    + vm_compute. reflexivity.
    + intros l H. discriminate H.
  - apply (proj1 (proj2 (parse_cookie_text_fallback_cases Json.loads "SRV=www1"))
             Json.JSONDecodeError).
    vm_compute. reflexivity.
  - apply (proj1 (proj2 (proj2 (parse_cookie_text_fallback_cases Json.loads "[7]")))
             [PInt 7]).
    vm_compute. reflexivity.
Defined.

(** ** TimezoneHandshake *)

(** The spec's [round((localTime - utcTime) in minutes)]: the nearest whole
    number of minutes, a half going up. *)
Definition round_minutes (utc_offset : timedelta) : Z :=
  (2 * total_microseconds utc_offset + 60000000) / (2 * 60000000).

(** The session's headers once the handshake has set its own. *)
Definition handshake_headers (h : Headers.t) : Headers.t :=
  Headers.update h
    [("Content-Type", "application/x-www-form-urlencoded");
     ("Referer", landing_url)].

(** The POST of the handshake and the GET that stands in for it. *)
Definition tz_request (h : Headers.t) (proxy : option (SDict.t string)) (offset : Z)
  : Request :=
  {| rq_method := POST;
     rq_url := landing_url +:+ "?&from_login=1";
     rq_session_headers := handshake_headers h;
     rq_headers := None;
     rq_data := Some [("offset", Some (pretty offset))];
     rq_allow_redirects := Some true;
     rq_timeout := Some 15;
     rq_proxies := proxy |}.

Definition alt_request (h : Headers.t) (proxy : option (SDict.t string)) (offset : Z)
  : Request :=
  {| rq_method := GET;
     rq_url := landing_url +:+ "?offset=" +:+ pretty offset;
     rq_session_headers := handshake_headers h;
     rq_headers := None;
     rq_data := None;
     rq_allow_redirects := None;
     rq_timeout := None;
     rq_proxies := proxy |}.

Definition offset_log (offset : Z) : event :=
  EvLog INFO ("Using timezone offset: " +:+ pretty offset +:+ " minutes").

(** A clock that stands at a fixed offset, and a site that answers every
    request alike. *)
Definition fixed_world (offset_seconds : Z) (answer : Request -> result Response)
  : world :=
  {| respond := fun _ rq => answer rq;
     local_utcoffset :=
       fun _ => {| days := 0; seconds := offset_seconds; microseconds := 0 |} |}.

Definition start : io := {| session_headers := ∅; trace := [] |}.

Definition landing_page : Response :=
  {| resp_url := landing_url;
     resp_text := "<a href='logout.php'>Logout</a>";
     resp_status_code := 200 |}.

Definition javascript_page (u : string) : Response :=
  {| resp_url := u;
     resp_text := "Javascript support is needed for this page";
     resp_status_code := 200 |}.

(** Cutting and rounding agree exactly when what is cut off, which has
    the sign of the offset, is at least minus half a minute and less than
    half a minute. *)
Lemma offset_minutes_round (d : timedelta) :
  offset_minutes d = round_minutes d
  <-> -60000000 <= 2 * Z.rem (total_microseconds d) 60000000 < 60000000.
Proof.
  unfold offset_minutes, round_minutes.
  set (n := total_microseconds d).
  pose proof (Z.quot_rem' n 60000000) as E.
  pose proof (Z.div_mod (2 * n + 60000000) (2 * 60000000) ltac:(lia)) as D.
  pose proof (Z.mod_pos_bound (2 * n + 60000000) (2 * 60000000) ltac:(lia)) as B.
  set (q := Z.quot n 60000000) in *. set (r := Z.rem n 60000000) in *.
  set (k := (2 * n + 60000000) / (2 * 60000000)) in *.
  set (m := (2 * n + 60000000) mod (2 * 60000000)) in *.
  split; intros H; lia.
Qed.

Lemma get_local_timezone_offset_run (w : world) (s : io) :
  get_local_timezone_offset w s = (Ok (offset_minutes (local_utcoffset w (trace s))), s).
Proof. reflexivity. Qed.

Lemma handshake_referer (h : Headers.t) :
  Headers.get "Referer" (handshake_headers h) = Some landing_url.
Proof.
  unfold handshake_headers, Headers.update, Headers.get.
  cbn [fold_left fst snd]. unfold Headers.set at 1. unfold Headers.t in *.
  rewrite lookup_insert_eq. reflexivity.
Qed.

(** Rewrites with an answer of the site, the request and the trace being
    given up to computation. *)
Ltac rewrite_respond H :=
  match type of H with
  | respond ?w ?t ?r = _ =>
      match goal with
      | |- context [respond w ?t' ?r'] =>
          change (respond w t' r') with (respond w t r); rewrite H
      end
  end.

Section Handshake.

Variable w : world.
Variable proxy : option (SDict.t string).
Variable s : io.

Let offset := offset_minutes (local_utcoffset w (trace s)).
Let h' := handshake_headers (session_headers s).
Let tr1 := trace s ++ [offset_log offset].
Let post := tz_request (session_headers s) proxy offset.
Let alt := alt_request (session_headers s) proxy offset.

Lemma handshake_accepted (r : Response) :
  respond w tr1 post = Ok r ->
  Str.contains "logout.php" (resp_text r) = true ->
  handle_timezone_redirect w proxy s
  = (Ok true,
     {| session_headers := h';
        trace := trace s ++ [offset_log offset; EvRequest post;
                             EvLog INFO "Successfully handled timezone redirect"] |}).
Proof.
  intros Hr Hm. unfold handle_timezone_redirect, try_except, bind,
    get_local_timezone_offset, gets, log, emit, headers_update, modify, send, ret.
  simpl. rewrite_respond Hr. rewrite Hm. simpl.
  unfold tr1. rewrite <- ?app_assoc. reflexivity.
Qed.

Lemma handshake_retry (r r' : Response) :
  respond w tr1 post = Ok r ->
  Str.contains "logout.php" (resp_text r) = false ->
  respond w (tr1 ++ [EvRequest post]) alt = Ok r' ->
  handle_timezone_redirect w proxy s
  = (Ok (Str.contains "logout.php" (resp_text r')),
     {| session_headers := h';
        trace := trace s ++ [offset_log offset; EvRequest post; EvRequest alt;
                             if Str.contains "logout.php" (resp_text r')
                             then EvLog INFO "Successfully handled timezone redirect via alternative URL"
                             else EvLog WARNING "Failed to handle timezone redirect"] |}).
Proof.
  intros Hr Hm Hr'. unfold handle_timezone_redirect, try_except, bind,
    get_local_timezone_offset, gets, log, emit, headers_update, modify, send, ret.
  simpl. rewrite_respond Hr. rewrite Hm. simpl.
  rewrite_respond Hr'.
  destruct (Str.contains "logout.php" (resp_text r')); simpl;
    unfold tr1; rewrite <- ?app_assoc; reflexivity.
Qed.

Lemma handshake_post_fails (e : exn) :
  respond w tr1 post = Raise e ->
  handle_timezone_redirect w proxy s
  = (Ok false,
     {| session_headers := h';
        trace := trace s ++ [offset_log offset; EvRequest post;
                             EvLog ERROR ("Error handling timezone redirect: "
                                          +:+ exn_msg e)] |}).
Proof.
  intros Hr. unfold handle_timezone_redirect, try_except, bind,
    get_local_timezone_offset, gets, log, emit, headers_update, modify, send, ret.
  simpl. rewrite_respond Hr. simpl.
  unfold tr1. rewrite <- ?app_assoc. reflexivity.
Qed.

Lemma handshake_retry_fails (r : Response) (e : exn) :
  respond w tr1 post = Ok r ->
  Str.contains "logout.php" (resp_text r) = false ->
  respond w (tr1 ++ [EvRequest post]) alt = Raise e ->
  handle_timezone_redirect w proxy s
  = (Ok false,
     {| session_headers := h';
        trace := trace s ++ [offset_log offset; EvRequest post; EvRequest alt;
                             EvLog ERROR ("Error handling timezone redirect: "
                                          +:+ exn_msg e)] |}).
Proof.
  intros Hr Hm Hr'. unfold handle_timezone_redirect, try_except, bind,
    get_local_timezone_offset, gets, log, emit, headers_update, modify, send, ret.
  simpl. rewrite_respond Hr. rewrite Hm. simpl.
  rewrite_respond Hr'. simpl.
  unfold tr1. rewrite <- ?app_assoc. reflexivity.
Qed.

(** Whatever the site does, the handshake returns a boolean, has set the
    session's headers, and its trace starts with the log line and the
    POST. *)
Lemma handshake_returns :
  exists (b : bool) (rest : list event),
    handle_timezone_redirect w proxy s
    = (Ok b, {| session_headers := h';
                trace := trace s ++ offset_log offset :: EvRequest post :: rest |}).
Proof.
  destruct (respond w tr1 post) as [r|e] eqn:Hr.
  - destruct (Str.contains "logout.php" (resp_text r)) eqn:Hm.
    + eexists _, _. rewrite (handshake_accepted r Hr Hm). reflexivity.
    + destruct (respond w (tr1 ++ [EvRequest post]) alt) as [r'|e] eqn:Hr'.
      * eexists _, _. rewrite (handshake_retry r r' Hr Hm Hr'). reflexivity.
      * eexists _, _. rewrite (handshake_retry_fails r e Hr Hm Hr'). reflexivity.
  - eexists _, _. rewrite (handshake_post_fails e Hr). reflexivity.
Qed.

(** The handshake logs and sends; it shows nothing. *)
Lemma handshake_display :
  exists t,
    trace (snd (handle_timezone_redirect w proxy s)) = trace s ++ t
    /\ forall wd args, EvUi wd args ∉ t.
Proof.
  destruct (respond w tr1 post) as [r|e] eqn:Hr.
  - destruct (Str.contains "logout.php" (resp_text r)) eqn:Hm.
    + rewrite (handshake_accepted r Hr Hm). eexists. split; [reflexivity|].
      intros wd args H. elem_cases H; discriminate.
    + destruct (respond w (tr1 ++ [EvRequest post]) alt) as [r'|e] eqn:Hr'.
      * rewrite (handshake_retry r r' Hr Hm Hr'). eexists. split; [reflexivity|].
        intros wd args H. elem_cases H; try discriminate.
        destruct (Str.contains "logout.php" (resp_text r')); discriminate.
      * rewrite (handshake_retry_fails r e Hr Hm Hr'). eexists.
        split; [reflexivity|]. intros wd args H. elem_cases H; discriminate.
  - rewrite (handshake_post_fails e Hr). eexists. split; [reflexivity|].
    intros wd args H. elem_cases H; discriminate.
Qed.

End Handshake.

(** The offset the handshake computes in a state. *)
Definition offset_at (w : world) (s : io) : Z :=
  offset_minutes (local_utcoffset w (trace s)).

(** The trace when the POST of the handshake leaves. *)
Definition tz_trace (w : world) (s : io) : list event :=
  trace s ++ [offset_log (offset_at w s)].

(** A site that wants the timezone by GET: it answers the POST with the
    JavaScript page and every GET with the landing page. *)
Definition wants_get (rq : Request) : result Response :=
  match rq_method rq with
  | POST => Ok (javascript_page (rq_url rq))
  | GET => Ok landing_page
  end.

Definition five_thirty_forty : timedelta :=
  {| days := 0; seconds := 19840; microseconds := 0 |}.

(** C6, as the code has it: at an offset of 5 h 30 min 40 s, which is
    330.67 minutes, the computed offset is 330, not the rounded 331. *)
Lemma timezone_offset_is_not_rounded :
  fst (get_local_timezone_offset (fixed_world 19840 wants_get) start) = Ok 330
  /\ round_minutes five_thirty_forty = 331.
Proof. split; vm_compute; reflexivity. Qed.

(** C6 (amended): [get_local_timezone_offset] returns a signed whole number
    of minutes that depends on the clock's offset alone: the offset in
    minutes cut toward zero.  It equals the rounded offset exactly when
    what is cut off (the offset less its whole minutes, with the sign of
    the offset) is at least minus thirty seconds and less than thirty
    seconds, so for every offset of whole minutes.  The handshake sends
    this number, in decimal, as the [offset] field of the form it posts. *)
Theorem timezone_offset_truncates
    (w : world) (proxy : option (SDict.t string)) (s : io) :
  get_local_timezone_offset w s = (Ok (offset_at w s), s)
  /\ (forall d, 0 <= total_microseconds d ->
                offset_minutes d = total_microseconds d / 60000000)
  /\ (forall d, total_microseconds d <= 0 ->
                offset_minutes d = - (- total_microseconds d / 60000000))
  /\ (forall d, offset_minutes d = round_minutes d
                <-> -60000000 <= 2 * Z.rem (total_microseconds d) 60000000
                    < 60000000)
  /\ (forall d, Z.rem (total_microseconds d) 60000000 = 0 ->
                offset_minutes d = round_minutes d)
  /\ rq_data (tz_request (session_headers s) proxy (offset_at w s))
     = Some [("offset", Some (pretty (offset_at w s)))]
  /\ exists (b : bool) (rest : list event),
       handle_timezone_redirect w proxy s
       = (Ok b,
          {| session_headers := handshake_headers (session_headers s);
             trace := trace s ++ offset_log (offset_at w s)
                      :: EvRequest (tz_request (session_headers s) proxy (offset_at w s))
                      :: rest |}).
Proof.
  split; [reflexivity|].
  split; [intros d H; unfold offset_minutes; apply Z.quot_div_nonneg; lia|].
  split.
  { intros d H. unfold offset_minutes.
    rewrite <- (Z.opp_involutive (total_microseconds d)) at 1.
    rewrite Z.quot_opp_l by lia. f_equal. apply Z.quot_div_nonneg; lia. }
  split; [apply offset_minutes_round|].
  split; [intros d H; apply offset_minutes_round; lia|].
  split; [reflexivity|].
  apply handshake_returns.
Qed.

Lemma timezone_offset_truncates_witness :
  offset_minutes {| days := 0; seconds := 7200; microseconds := 0 |} = 120
  /\ offset_minutes {| days := -1; seconds := 68400; microseconds := 0 |} = -300
  /\ offset_minutes {| days := 0; seconds := 7200; microseconds := 0 |}
     = round_minutes {| days := 0; seconds := 7200; microseconds := 0 |}
  /\ offset_minutes {| days := 0; seconds := 19820; microseconds := 0 |}
     = round_minutes {| days := 0; seconds := 19820; microseconds := 0 |}
  /\ offset_minutes {| days := -1; seconds := 66570; microseconds := 0 |}
     = round_minutes {| days := -1; seconds := 66570; microseconds := 0 |}
  /\ ~ (-60000000
        <= 2 * Z.rem (total_microseconds five_thirty_forty) 60000000
        < 60000000).
Proof.
  split; [|split; [|split; [|split; [|split]]]].
  - rewrite (proj1 (proj2 (timezone_offset_truncates (fixed_world 0 wants_get) None start)))
      by (vm_compute; discriminate).
    reflexivity.
  - rewrite (proj1 (proj2 (proj2
               (timezone_offset_truncates (fixed_world 0 wants_get) None start))))
      by (vm_compute; discriminate).
    reflexivity.
  - apply (proj1 (proj2 (proj2 (proj2 (proj2
             (timezone_offset_truncates (fixed_world 0 wants_get) None start)))))).
    reflexivity.
  - apply (proj1 (proj2 (proj2 (proj2
             (timezone_offset_truncates (fixed_world 0 wants_get) None start))))).
    vm_compute. split; [discriminate|reflexivity].
  - apply (proj1 (proj2 (proj2 (proj2
             (timezone_offset_truncates (fixed_world 0 wants_get) None start))))).
    vm_compute. split; [discriminate|reflexivity].
  - intros H.
    apply (proj1 (proj2 (proj2 (proj2
             (timezone_offset_truncates (fixed_world 0 wants_get) None start))))) in H.
    vm_compute in H. discriminate.
Defined.

(** C7: the handshake posts the offset as form data to the landing
    endpoint, with the session's [Referer] set to that endpoint.  When the
    answer shows the authenticated page it returns true.  Otherwise it
    sends one GET to the same endpoint with the offset as a query
    parameter, and returns whether that answer shows the authenticated
    page.  When a request raises, the exception is logged and it returns
    false: in every case it returns a boolean and raises nothing. *)
Theorem handle_timezone_redirect_reports
    (w : world) (proxy : option (SDict.t string)) (s : io) :
  (exists (b : bool) (s' : io), handle_timezone_redirect w proxy s = (Ok b, s'))
  /\ rq_method (tz_request (session_headers s) proxy (offset_at w s)) = POST
  /\ rq_url (tz_request (session_headers s) proxy (offset_at w s))
     = landing_url +:+ "?&from_login=1"
  /\ Headers.get "Referer"
       (rq_session_headers (tz_request (session_headers s) proxy (offset_at w s)))
     = Some landing_url
  /\ rq_url (alt_request (session_headers s) proxy (offset_at w s))
     = landing_url +:+ "?offset=" +:+ pretty (offset_at w s)
  /\ (forall r,
        respond w (tz_trace w s) (tz_request (session_headers s) proxy (offset_at w s))
        = Ok r ->
        Str.contains "logout.php" (resp_text r) = true ->
        handle_timezone_redirect w proxy s
        = (Ok true,
           {| session_headers := handshake_headers (session_headers s);
              trace := trace s
                       ++ [offset_log (offset_at w s);
                           EvRequest (tz_request (session_headers s) proxy (offset_at w s));
                           EvLog INFO "Successfully handled timezone redirect"] |}))
  /\ (forall r r',
        respond w (tz_trace w s) (tz_request (session_headers s) proxy (offset_at w s))
        = Ok r ->
        Str.contains "logout.php" (resp_text r) = false ->
        respond w (tz_trace w s
                   ++ [EvRequest (tz_request (session_headers s) proxy (offset_at w s))])
                (alt_request (session_headers s) proxy (offset_at w s))
        = Ok r' ->
        handle_timezone_redirect w proxy s
        = (Ok (Str.contains "logout.php" (resp_text r')),
           {| session_headers := handshake_headers (session_headers s);
              trace := trace s
                       ++ [offset_log (offset_at w s);
                           EvRequest (tz_request (session_headers s) proxy (offset_at w s));
                           EvRequest (alt_request (session_headers s) proxy (offset_at w s));
                           if Str.contains "logout.php" (resp_text r')
                           then EvLog INFO "Successfully handled timezone redirect via alternative URL"
                           else EvLog WARNING "Failed to handle timezone redirect"] |}))
  /\ (forall e,
        respond w (tz_trace w s) (tz_request (session_headers s) proxy (offset_at w s))
        = Raise e ->
        handle_timezone_redirect w proxy s
        = (Ok false,
           {| session_headers := handshake_headers (session_headers s);
              trace := trace s
                       ++ [offset_log (offset_at w s);
                           EvRequest (tz_request (session_headers s) proxy (offset_at w s));
                           EvLog ERROR ("Error handling timezone redirect: "
                                        +:+ exn_msg e)] |}))
  /\ (forall r e,
        respond w (tz_trace w s) (tz_request (session_headers s) proxy (offset_at w s))
        = Ok r ->
        Str.contains "logout.php" (resp_text r) = false ->
        respond w (tz_trace w s
                   ++ [EvRequest (tz_request (session_headers s) proxy (offset_at w s))])
                (alt_request (session_headers s) proxy (offset_at w s))
        = Raise e ->
        handle_timezone_redirect w proxy s
        = (Ok false,
           {| session_headers := handshake_headers (session_headers s);
              trace := trace s
                       ++ [offset_log (offset_at w s);
                           EvRequest (tz_request (session_headers s) proxy (offset_at w s));
                           EvRequest (alt_request (session_headers s) proxy (offset_at w s));
                           EvLog ERROR ("Error handling timezone redirect: "
                                        +:+ exn_msg e)] |})).
Proof.
  split.
  { destruct (handshake_returns w proxy s) as (b & rest & H). eauto. }
  split; [reflexivity|]. split; [reflexivity|].
  split; [apply handshake_referer|]. split; [reflexivity|].
  split; [apply handshake_accepted|].
  split; [apply handshake_retry|].
  split; [apply handshake_post_fails|].
  apply handshake_retry_fails.
Qed.

Lemma handle_timezone_redirect_reports_witness :
  fst (handle_timezone_redirect (fixed_world 7200 wants_get) None start) = Ok true
  /\ fst (handle_timezone_redirect
            (fixed_world 7200 (fun _ => Raise (Exn "ConnectionError" "refused")))
            None start)
     = Ok false.
Proof.
  split.
  - rewrite (proj1 (proj2 (proj2 (proj2 (proj2 (proj2 (proj2
               (handle_timezone_redirect_reports (fixed_world 7200 wants_get) None start)))))))
               (javascript_page (landing_url +:+ "?&from_login=1")) landing_page);
      reflexivity.
  - rewrite (proj1 (proj2 (proj2 (proj2 (proj2 (proj2 (proj2 (proj2
               (handle_timezone_redirect_reports
                  (fixed_world 7200 (fun _ => Raise (Exn "ConnectionError" "refused")))
                  None start))))))))
               (Exn "ConnectionError" "refused"));
      reflexivity.
Defined.

(** *** What a computation can return *)

(** [yields P m]: whenever [m] returns, what it returns satisfies [P]. *)
Definition yields {A} (P : A -> Prop) (m : IO A) : Prop :=
  forall s, match fst (m s) with
            | Ok a => P a
            | Raise _ => True
            end.

Lemma yields_ret {A} (P : A -> Prop) (a : A) : P a -> yields P (ret a).
Proof. intros H s. exact H. Qed.

Lemma yields_bind {A B} (P : B -> Prop) (m : IO A) (k : A -> IO B) :
  (forall a, yields P (k a)) -> yields P (bind m k).
Proof.
  intros H s. unfold bind. destruct (m s) as [[a|e] s']; [apply H|exact I].
Qed.

(** A [try] whose handler returns a value that satisfies [P] returns one
    too, whatever its body does. *)
Lemma caught_yields {A} (P : A -> Prop) (body : IO A) (handler : exn -> IO A) (s : io) :
  yields P body ->
  (forall e s0, exists a s', handler e s0 = (Ok a, s') /\ P a) ->
  exists a s', try_except body handler s = (Ok a, s') /\ P a.
Proof.
  intros Hb Hh. unfold try_except. specialize (Hb s).
  destruct (body s) as [[a|e] s']; simpl in Hb.
  - eauto.
  - apply Hh.
Qed.

Ltac yields_step :=
  lazymatch goal with
  | |- yields _ (ret _) => apply yields_ret
  | |- yields _ (bind _ _) => apply yields_bind; intros
  | |- yields _ (if ?c then _ else _) => destruct c
  | |- yields _ (match ?x with _ => _ end) => destruct x eqn:?
  end.

Ltac yields_tac := repeat yields_step.

(** ** ResultFetcher *)

(** The GET of the landing page that opens a fetch. *)
Definition precheck_request (h : Headers.t) (proxy : option (SDict.t string)) : Request :=
  {| rq_method := GET;
     rq_url := landing_url;
     rq_session_headers := h;
     rq_headers := None;
     rq_data := None;
     rq_allow_redirects := None;
     rq_timeout := Some 10;
     rq_proxies := proxy |}.

Definition fetch_headers : SDict.t string :=
  [("Referer", landing_url);
   ("Sec-Fetch-Dest", "document");
   ("Sec-Fetch-Mode", "navigate");
   ("Sec-Fetch-Site", "same-origin");
   ("Sec-Fetch-User", "?1")].

(** The GET of the data. *)
Definition data_request (h : Headers.t) (url : string) (proxy : option (SDict.t string))
  : Request :=
  {| rq_method := GET;
     rq_url := url;
     rq_session_headers := h;
     rq_headers := Some fetch_headers;
     rq_data := None;
     rq_allow_redirects := Some true;
     rq_timeout := Some 15;
     rq_proxies := proxy |}.

(** The trace when the GET of the data leaves. *)
Definition data_trace (s : io) (url : string) (proxy : option (SDict.t string))
    (silent : bool) : list event :=
  trace s
  ++ [EvRequest (precheck_request (session_headers s) proxy);
      EvSleep 500 1500;
      EvLog INFO ("Fetching: " +:+ url)]
  ++ (if silent then [] else [EvUi st_info [ShStr "Retrieving data from BBO..."]])
  ++ [EvSleep 1000 2500].

(** What is shown and logged when no table is found. *)
Definition no_table_events (silent : bool) (response : Response) : list event :=
  EvLog WARNING "No table found"
  :: (if silent then []
      else [EvUi st_expander [ShStr "Raw Response"];
            EvUi st_text [ShStr (Str.take 2000 (resp_text response))]]).

(** *** A fetch that meets the JavaScript page *)

(** The state in which the handshake of a fetch starts: the data request
    has left and, unless [silent], the warning is shown. *)
Definition handshake_start (s : io) (url : string) (proxy : option (SDict.t string))
    (silent : bool) : io :=
  {| session_headers := session_headers s;
     trace := data_trace s url proxy silent
              ++ EvRequest (data_request (session_headers s) url proxy)
              :: (if silent then []
                  else [EvUi st_warning
                          [ShStr "Hit JavaScript requirement - trying to handle timezone..."]]) |}.

(** The second GET of the data: as the first, but [allow_redirects] is
    left out. *)
Definition retry_request (h : Headers.t) (url : string) (proxy : option (SDict.t string))
  : Request :=
  {| rq_method := GET;
     rq_url := url;
     rq_session_headers := h;
     rq_headers := Some fetch_headers;
     rq_data := None;
     rq_allow_redirects := None;
     rq_timeout := Some 15;
     rq_proxies := proxy |}.

(** The trace when the second GET leaves: the handshake is over and the
    pause after it has been taken. *)
Definition retry_trace (w : world) (s : io) (url : string)
    (proxy : option (SDict.t string)) (silent : bool) : list event :=
  trace (snd (handle_timezone_redirect w proxy (handshake_start s url proxy silent)))
  ++ [EvSleep 1000 2000].

Section Fetch.

Variable w : world.
Variable html_parser : string -> node.
Variable url : string.
Variable proxy : option (SDict.t string).
Variable silent : bool.
Variable s : io.

Abbreviation scrape := (scrape_bbo_hands w html_parser url proxy silent s).
Abbreviation precheck := (precheck_request (session_headers s) proxy).
Abbreviation data_rq := (data_request (session_headers s) url proxy).

Ltac run_scrape :=
  unfold scrape_bbo_hands, try_except, bind, unless, sleep, log, ui, emit, modify,
    send, ret; simpl.

Lemma scrape_expired (refresh_resp : Response) :
  respond w (trace s) precheck = Ok refresh_resp ->
  Str.contains "login.php" (resp_url refresh_resp) = true ->
  scrape
  = (Ok (None, None),
     {| session_headers := session_headers s;
        trace := trace s
                 ++ [EvRequest precheck;
                     EvUi st_error [ShStr "Session has expired. Please login again."]] |}).
Proof.
  intros H1 H2. run_scrape.
  rewrite_respond H1. rewrite H2. simpl. rewrite <- ?app_assoc. reflexivity.
Qed.

(** The fetch up to the data request, on a session that is still valid
    and a data page that needs no handshake. *)
Lemma scrape_direct (refresh_resp response : Response) :
  respond w (trace s) precheck = Ok refresh_resp ->
  Str.contains "login.php" (resp_url refresh_resp) = false ->
  respond w (data_trace s url proxy silent) data_rq = Ok response ->
  Str.contains "login.php" (resp_url response) = false ->
  Str.contains "Javascript support is needed" (resp_text response) = false ->
  scrape
  = if Str.contains "You have no saved hands" (resp_text response) then
      (Ok (None, None),
       {| session_headers := session_headers s;
          trace := data_trace s url proxy silent
                   ++ [EvRequest data_rq; EvLog INFO "No hands found"] |})
    else
      match locate_table (html_parser (resp_text response)) with
      | Some table =>
          (Ok (Some (html_parser (resp_text response)), Some table),
           {| session_headers := session_headers s;
              trace := data_trace s url proxy silent ++ [EvRequest data_rq] |})
      | None =>
          (Ok (None, None),
           {| session_headers := session_headers s;
              trace := data_trace s url proxy silent
                       ++ EvRequest data_rq :: no_table_events silent response |})
      end.
Proof.
  intros H1 H2 H3 H4 H5. unfold data_trace in *. run_scrape.
  rewrite_respond H1. rewrite H2. simpl.
  destruct silent; simpl in *; rewrite <- ?app_assoc; simpl;
    rewrite_respond H3; rewrite H4, H5; simpl;
    (destruct (Str.contains "You have no saved hands" (resp_text response)); simpl;
     [rewrite <- ?app_assoc; reflexivity|]);
    (destruct (locate_table (html_parser (resp_text response))); simpl;
     [rewrite <- ?app_assoc; reflexivity
     |unfold no_table_events; rewrite <- ?app_assoc; reflexivity]).
Qed.

(** The fetch on a session that is still valid, when the data page asks
    for JavaScript: the handshake, the pause, the data request once more,
    and what its answer gives. *)
Lemma scrape_retried (refresh_resp response response2 : Response) :
  respond w (trace s) precheck = Ok refresh_resp ->
  Str.contains "login.php" (resp_url refresh_resp) = false ->
  respond w (data_trace s url proxy silent) data_rq = Ok response ->
  Str.contains "login.php" (resp_url response) = false ->
  Str.contains "Javascript support is needed" (resp_text response) = true ->
  respond w (retry_trace w s url proxy silent)
    (retry_request (handshake_headers (session_headers s)) url proxy) = Ok response2 ->
  scrape
  = if Str.contains "You have no saved hands" (resp_text response2) then
      (Ok (None, None),
       {| session_headers := handshake_headers (session_headers s);
          trace := retry_trace w s url proxy silent
                   ++ [EvRequest (retry_request (handshake_headers (session_headers s))
                                    url proxy);
                       EvLog INFO "No hands found"] |})
    else
      match locate_table (html_parser (resp_text response2)) with
      | Some table =>
          (Ok (Some (html_parser (resp_text response2)), Some table),
           {| session_headers := handshake_headers (session_headers s);
              trace := retry_trace w s url proxy silent
                       ++ [EvRequest (retry_request
                                        (handshake_headers (session_headers s))
                                        url proxy)] |})
      | None =>
          (Ok (None, None),
           {| session_headers := handshake_headers (session_headers s);
              trace := retry_trace w s url proxy silent
                       ++ EvRequest (retry_request
                                       (handshake_headers (session_headers s))
                                       url proxy)
                       :: no_table_events silent response2 |})
      end.
Proof.
  intros H1 H2 H3 H4 H5 H6.
  destruct (handshake_returns w proxy (handshake_start s url proxy silent))
    as (b & rest & Hhs).
  unfold retry_trace in *. rewrite Hhs in *. cbn [snd trace] in *.
  unfold scrape_bbo_hands.
  set (hs := handle_timezone_redirect w proxy) in *. clearbody hs.
  unfold handshake_start, data_trace in *.
  unfold try_except, bind, unless, sleep, log, ui, emit, modify, send, ret; simpl.
  rewrite_respond H1. rewrite H2. simpl.
  destruct silent; simpl in *; rewrite <- ?app_assoc in *; simpl in *;
    rewrite_respond H3; rewrite H4, H5; simpl; rewrite <- ?app_assoc; simpl;
    (match type of Hhs with
     | hs ?st0 = _ =>
         match goal with
         | |- context [hs ?st] => change (hs st) with (hs st0)
         end
     end);
    rewrite Hhs; simpl; rewrite <- ?app_assoc; simpl;
    rewrite_respond H6;
    (destruct (Str.contains "You have no saved hands" (resp_text response2));
     [simpl; repeat (progress (rewrite <- ?app_assoc; simpl)); reflexivity|]);
    (destruct (locate_table (html_parser (resp_text response2)));
     unfold no_table_events; simpl;
     repeat (progress (rewrite <- ?app_assoc; simpl)); reflexivity).
Qed.

(** What is shown between the data request and its repetition: the
    warning, unless [silent]. *)
Lemma retry_trace_display :
  exists t,
    retry_trace w s url proxy silent
    = data_trace s url proxy silent ++ EvRequest data_rq :: t
    /\ forall wd args, EvUi wd args ∈ t -> wd = st_warning /\ silent = false.
Proof.
  destruct (handshake_display w proxy (handshake_start s url proxy silent))
    as (t & E & Ht).
  unfold retry_trace. rewrite E. unfold handshake_start. cbn [trace].
  eexists. split.
  - rewrite <- !app_assoc. cbn [app]. reflexivity.
  - intros wd args H. rewrite !elem_of_app in H. destruct H as [H|[H|H]].
    + destruct silent; elem_cases H. injection H as -> _. auto.
    + exfalso. exact (Ht wd args H).
    + elem_cases H. discriminate.
Qed.

(** Every fetch returns, and returns either a document with its table or
    the pair of two [None]. *)
Lemma scrape_returns :
  exists res s',
    scrape = (Ok res, s')
    /\ (res = (None, None)
        \/ exists soup table,
             res = (Some soup, Some table) /\ locate_table soup = Some table).
Proof.
  unfold scrape_bbo_hands. apply caught_yields.
  - cbv zeta. unfold unless. yields_tac; auto.
    right. eexists _, _. split; [reflexivity|assumption].
  - intros e s0. unfold unless, log, ui, emit, modify, bind, ret.
    destruct silent; simpl; eexists _, _; (split; [reflexivity|left; reflexivity]).
Qed.

End Fetch.

(** *** Where the table is looked for *)

Lemma first_selected_first (soup : node) (pre post : list selector) (sel : selector)
    (table : node) :
  (forall x, x ∈ pre -> select_one soup x = None) ->
  select_one soup sel = Some table ->
  first_selected soup (pre ++ sel :: post) = Some table.
Proof.
  intros Hpre Hsel. induction pre as [|x pre IH]; simpl.
  - rewrite Hsel. reflexivity.
  - rewrite (Hpre x) by left. apply IH. intros y Hy. apply Hpre. right. exact Hy.
Qed.

Lemma first_selected_none (soup : node) (selectors : list selector) :
  (forall x, x ∈ selectors -> select_one soup x = None) ->
  first_selected soup selectors = None.
Proof.
  intros H. induction selectors as [|x l IH]; simpl; [reflexivity|].
  rewrite (H x) by left. apply IH. intros y Hy. apply H. right. exact Hy.
Qed.

Lemma generic_scan_first (pre post : list node) (t : node) :
  (forall x, x ∈ pre -> looks_like_hands x = false) ->
  looks_like_hands t = true ->
  generic_scan (pre ++ t :: post) = Some t.
Proof.
  intros Hpre Ht. induction pre as [|x pre IH]; simpl.
  - rewrite Ht. reflexivity.
  - rewrite (Hpre x) by left. apply IH. intros y Hy. apply Hpre. right. exact Hy.
Qed.

Lemma generic_scan_none (tables : list node) :
  (forall x, x ∈ tables -> looks_like_hands x = false) ->
  generic_scan tables = None.
Proof.
  intros H. induction tables as [|x l IH]; simpl; [reflexivity|].
  rewrite (H x) by left. apply IH. intros y Hy. apply H. right. exact Hy.
Qed.

(** *** Example pages and sites *)

(** A table with a date column and no class, and a table of class
    [hands] with no header at all. *)
Definition dated_table : node :=
  tag "table" []
    [tag "tr" [] [tag "th" [] [NText "Date"]; tag "th" [] [NText "Result"]];
     tag "tr" [] [tag "td" [] [NText "2024-01-05"]; tag "td" [] [NText "3NT="]]].

Definition hands_table : node :=
  tag "table" ["hands"] [tag "tr" [] [tag "td" [] [NText "1"]]].

Definition both_tables : node := tag "[document]" [] [dated_table; hands_table].

(** A table with a date column and a single row, and a table of two rows
    without a date column: the scan passes both. *)
Definition single_row_table : node :=
  tag "table" [] [tag "tr" [] [tag "th" [] [NText "Date"]]].

Definition undated_table : node :=
  tag "table" []
    [tag "tr" [] [tag "th" [] [NText "Board"]];
     tag "tr" [] [tag "td" [] [NText "7"]]].

Definition scanned_tables : node :=
  tag "[document]" [] [single_row_table; undated_table; dated_table].

Definition empty_document : node := tag "[document]" [] [].

Definition hands_url : string :=
  "https://www.bridgebase.com/myhands/hands.php?username=alice&start_time=1700000000&end_time=1702592000&from_login=0".

Definition login_redirect : Response :=
  {| resp_url := "https://www.bridgebase.com/myhands/myhands_login.php?t=%2Fmyhands%2Findex.php";
     resp_text := "<form method='post' action='myhands_login.php'>";
     resp_status_code := 200 |}.

Definition no_hands_text : string := "<p>You have no saved hands in this period.</p>".
Definition maintenance_text : string := "<p>Down for maintenance</p>".

(** The markup of [both_tables]. *)
Definition hands_text : string :=
  "<table><tr><th>Date</th><th>Result</th></tr><tr><td>2024-01-05</td><td>3NT=</td></tr></table><table class='hands'><tr><td>1</td></tr></table>".

(** A first data page that asks for JavaScript although it holds the
    no-saved-hands marker. *)
Definition both_markers_text : string :=
  "Javascript support is needed for this page. You have no saved hands.".

Definition paragraph (txt : string) : node :=
  tag "[document]" [] [tag "p" [] [NText txt]].

(** A text without markup, as the parser reads it. *)
Definition plain_document (txt : string) : node :=
  tag "[document]" [] (if String.eqb txt EmptyString then [] else [NText txt]).

(** A parser for the example pages: each of them is taken to its parse;
    any other text is read as text without markup. *)
Definition example_parser (txt : string) : node :=
  if String.eqb txt hands_text then both_tables
  else if String.eqb txt no_hands_text
  then paragraph "You have no saved hands in this period."
  else if String.eqb txt maintenance_text then paragraph "Down for maintenance"
  else plain_document txt.

(** A site that serves the landing page, and [txt] as the data page. *)
Definition serves (txt : string) (rq : Request) : result Response :=
  if String.eqb (rq_url rq) landing_url then Ok landing_page
  else Ok {| resp_url := rq_url rq; resp_text := txt; resp_status_code := 200 |}.

Definition site_expired (rq : Request) : result Response := Ok login_redirect.

(** C1: when the GET of the landing page ends on a URL that holds
    [login.php], the fetch shows the session-expired error and returns the
    pair of two [None].  The landing page is the one request it has made:
    the data GET is not sent, nothing is posted, and the session's headers
    are as they were. *)
Theorem scrape_expired_session_stops
    (w : world) (html_parser : string -> node) (url : string)
    (proxy : option (SDict.t string)) (silent : bool) (s : io)
    (refresh_resp : Response) :
  respond w (trace s) (precheck_request (session_headers s) proxy) = Ok refresh_resp ->
  Str.contains "login.php" (resp_url refresh_resp) = true ->
  scrape_bbo_hands w html_parser url proxy silent s
  = (Ok (None, None),
     {| session_headers := session_headers s;
        trace := trace s
                 ++ [EvRequest (precheck_request (session_headers s) proxy);
                     EvUi st_error [ShStr "Session has expired. Please login again."]] |}).
Proof. apply scrape_expired. Qed.

Lemma scrape_expired_session_stops_witness :
  scrape_bbo_hands (fixed_world 0 site_expired) example_parser hands_url None true start
  = (Ok (None, None),
     {| session_headers := ∅;
        trace := [EvRequest (precheck_request ∅ None);
                  EvUi st_error [ShStr "Session has expired. Please login again."]] |}).
Proof.
  apply (scrape_expired_session_stops (fixed_world 0 site_expired) example_parser
           hands_url None true start login_redirect); reflexivity.
Defined.

(** The words of the specification for what the generic scan looks for: a
    table with more than one row and a header cell whose text holds a
    date-like label, [date] in any case. *)
Definition spec_hand_records (t : node) : Prop :=
  (1 < length (Soup.find_all t "tr"))%nat
  /\ exists h, h ∈ Soup.find_all t "th"
               /\ Str.contains "date" (Str.lower (Soup.get_text h)) = true.

Lemma dated_text_not_empty (s : string) :
  Str.contains "date" (Str.lower s) = true -> String.eqb s EmptyString = false.
Proof. destruct s; [discriminate|reflexivity]. Qed.

(** The test of the scan is the specification's. *)
Lemma looks_like_hands_spec (t : node) :
  looks_like_hands t = true <-> spec_hand_records t.
Proof.
  unfold looks_like_hands, spec_hand_records, has_date_header. cbv zeta. split.
  - intros H. apply andb_prop in H as [H Hh]. apply andb_prop in H as [_ Hn].
    apply andb_prop in Hh as [_ Hd]. split; [apply Nat.ltb_lt, Hn|].
    apply existsb_exists in Hd as (h & Hin & Hc).
    apply filter_In in Hin as [Hin _]. exists h.
    split; [apply list_elem_of_In, Hin|exact Hc].
  - intros [Hn (h & Hin & Hc)]. apply list_elem_of_In in Hin.
    apply andb_true_intro. split; [apply andb_true_intro; split|].
    + destruct (Soup.find_all t "tr"); [simpl in Hn; lia|reflexivity].
    + apply Nat.ltb_lt, Hn.
    + apply andb_true_intro. split.
      * destruct (Soup.find_all t "th"); [destruct Hin|reflexivity].
      * apply existsb_exists. exists h. split; [|exact Hc].
        apply filter_In. split; [exact Hin|].
        rewrite (dated_text_not_empty _ Hc). reflexivity.
Qed.

Lemma looks_like_hands_not (t : node) :
  ~ spec_hand_records t -> looks_like_hands t = false.
Proof.
  intros H. destruct (looks_like_hands t) eqn:E; [|reflexivity].
  exfalso. apply H, looks_like_hands_spec, E.
Qed.

(** C3: the table is a function of the document.  The known selectors are
    tried in their listed order, and the first that selects gives the
    table, whatever the generic scan would find.  Only when none selects is
    the generic scan consulted: it gives the first table, in document
    order, that has more than one row and a header cell whose text holds
    [date] in any case, and no table when the document has none of that
    kind.  On a fetch that reaches the table search, on the data page or
    on the page fetched again after the handshake, a found table is
    returned with its document, and no table at all gives the pair of two
    [None]. *)
Theorem locate_table_fallback_order (soup : node) :
  (forall pre sel post table,
      table_selectors = pre ++ sel :: post ->
      (forall x, x ∈ pre -> select_one soup x = None) ->
      select_one soup sel = Some table ->
      locate_table soup = Some table)
  /\ (forall pre t post,
        (forall x, x ∈ table_selectors -> select_one soup x = None) ->
        Soup.find_all soup "table" = pre ++ t :: post ->
        (forall x, x ∈ pre -> ~ spec_hand_records x) ->
        spec_hand_records t ->
        locate_table soup = Some t)
  /\ ((forall x, x ∈ table_selectors -> select_one soup x = None) ->
      (forall x, x ∈ Soup.find_all soup "table" -> ~ spec_hand_records x) ->
      locate_table soup = None)
  /\ (forall w html_parser url proxy silent s refresh_resp response,
        respond w (trace s) (precheck_request (session_headers s) proxy)
        = Ok refresh_resp ->
        Str.contains "login.php" (resp_url refresh_resp) = false ->
        respond w (data_trace s url proxy silent)
                (data_request (session_headers s) url proxy)
        = Ok response ->
        Str.contains "login.php" (resp_url response) = false ->
        Str.contains "Javascript support is needed" (resp_text response) = false ->
        Str.contains "You have no saved hands" (resp_text response) = false ->
        html_parser (resp_text response) = soup ->
        fst (scrape_bbo_hands w html_parser url proxy silent s)
        = Ok (match locate_table soup with
              | Some table => (Some soup, Some table)
              | None => (None, None)
              end))
  /\ (forall w html_parser url proxy silent s refresh_resp response response2,
        respond w (trace s) (precheck_request (session_headers s) proxy)
        = Ok refresh_resp ->
        Str.contains "login.php" (resp_url refresh_resp) = false ->
        respond w (data_trace s url proxy silent)
                (data_request (session_headers s) url proxy)
        = Ok response ->
        Str.contains "login.php" (resp_url response) = false ->
        Str.contains "Javascript support is needed" (resp_text response) = true ->
        respond w (retry_trace w s url proxy silent)
                (retry_request (handshake_headers (session_headers s)) url proxy)
        = Ok response2 ->
        Str.contains "You have no saved hands" (resp_text response2) = false ->
        html_parser (resp_text response2) = soup ->
        fst (scrape_bbo_hands w html_parser url proxy silent s)
        = Ok (match locate_table soup with
              | Some table => (Some soup, Some table)
              | None => (None, None)
              end)).
Proof.
  split.
  { intros pre sel post table Hs Hpre Hsel. unfold locate_table.
    rewrite Hs, (first_selected_first soup pre post sel table Hpre Hsel). reflexivity. }
  split.
  { intros pre t post Hsel Ht Hpre Hl. unfold locate_table.
    rewrite (first_selected_none soup _ Hsel), Ht. apply generic_scan_first.
    - intros x Hx. apply looks_like_hands_not, Hpre, Hx.
    - apply looks_like_hands_spec, Hl. }
  split.
  { intros Hsel Hall. unfold locate_table.
    rewrite (first_selected_none soup _ Hsel). apply generic_scan_none.
    intros x Hx. apply looks_like_hands_not, Hall, Hx. }
  split.
  { intros w html_parser url proxy silent s refresh_resp response
      H1 H2 H3 H4 H5 H6 Hsoup.
    rewrite (scrape_direct w html_parser url proxy silent s refresh_resp response
               H1 H2 H3 H4 H5), H6, Hsoup.
    destruct (locate_table soup); reflexivity. }
  intros w html_parser url proxy silent s refresh_resp response response2
    H1 H2 H3 H4 H5 H6 H7 Hsoup.
  rewrite (scrape_retried w html_parser url proxy silent s refresh_resp response
             response2 H1 H2 H3 H4 H5 H6), H7, Hsoup.
  destruct (locate_table soup); reflexivity.
Qed.

Lemma single_row_table_passed : ~ spec_hand_records single_row_table.
Proof. intros [H _]. vm_compute in H. lia. Qed.

Lemma undated_table_passed : ~ spec_hand_records undated_table.
Proof.
  intros [_ (h & Hin & Hc)]. vm_compute in Hin. elem_cases Hin. subst h.
  vm_compute in Hc. discriminate.
Qed.

Lemma dated_table_taken : spec_hand_records dated_table.
Proof.
  split; [vm_compute; lia|].
  exists (tag "th" [] [NText "Date"]). split; [|reflexivity].
  vm_compute. left.
Qed.

Lemma locate_table_fallback_order_witness :
  locate_table both_tables = Some hands_table
  /\ spec_hand_records dated_table
  /\ locate_table scanned_tables = Some dated_table
  /\ locate_table empty_document = None
  /\ fst (scrape_bbo_hands (fixed_world 0 (serves hands_text)) example_parser
            hands_url None true start)
     = Ok (Some both_tables, Some hands_table).
Proof.
  split; [|split; [|split; [|split]]].
  - apply (proj1 (locate_table_fallback_order both_tables)
             [ByClass "table" "body"; ById "table" "hand_results"]
             (ByClass "table" "hands") [ByClass "table" "handlist"]).
    + reflexivity.
    + intros x Hx. elem_cases Hx; subst x; reflexivity.
    + reflexivity.
  - exact dated_table_taken.
  - apply (proj1 (proj2 (locate_table_fallback_order scanned_tables))
             [single_row_table; undated_table] dated_table []).
    + intros x Hx. unfold table_selectors in Hx. elem_cases Hx; subst x; reflexivity.
    + reflexivity.
    + intros x Hx. elem_cases Hx; subst x;
        [exact single_row_table_passed|exact undated_table_passed].
    + exact dated_table_taken.
  - apply (proj1 (proj2 (proj2 (locate_table_fallback_order empty_document)))).
    + intros x Hx. unfold table_selectors in Hx. elem_cases Hx; subst x; reflexivity.
    + intros x Hx. vm_compute in Hx. elem_cases Hx.
  - apply (proj1 (proj2 (proj2 (proj2 (locate_table_fallback_order both_tables))))
             (fixed_world 0 (serves hands_text)) example_parser hands_url None true start
             landing_page
             {| resp_url := hands_url; resp_text := hands_text; resp_status_code := 200 |});
      reflexivity.
Defined.

(** A site that answers the first data request with [first] and the
    data request that comes without [allow_redirects] with [second]; it
    answers a POST with the JavaScript page. *)
Definition retried_site (first second : string) (rq : Request) : result Response :=
  match rq_method rq with
  | POST => Ok (javascript_page (rq_url rq))
  | GET =>
      if String.eqb (rq_url rq) landing_url then Ok landing_page
      else Ok {| resp_url := rq_url rq;
                 resp_text := match rq_allow_redirects rq with
                              | Some _ => first
                              | None => second
                              end;
                 resp_status_code := 200 |}
  end.

(** C4, as the code has it: the fetch of a page with the no-saved-hands
    marker, the fetch on an expired session and the fetch of a page with no
    table all return the same value, the pair of two [None].  And a data
    response that holds the marker does not decide by itself: when it also
    asks for JavaScript, the page fetched after the handshake is the one
    that is read, here a page with a table. *)
Lemma scrape_outcomes_return_the_same :
  Str.contains "You have no saved hands" no_hands_text = true
  /\ fst (scrape_bbo_hands (fixed_world 0 (serves no_hands_text)) example_parser
            hands_url None true start)
     = Ok (None, None)
  /\ fst (scrape_bbo_hands (fixed_world 0 site_expired) example_parser
            hands_url None true start)
     = Ok (None, None)
  /\ fst (scrape_bbo_hands (fixed_world 0 (serves maintenance_text)) example_parser
            hands_url None true start)
     = Ok (None, None)
  /\ Str.contains "You have no saved hands" both_markers_text = true
  /\ fst (scrape_bbo_hands (fixed_world 0 (retried_site both_markers_text hands_text))
            example_parser hands_url None true start)
     = Ok (Some both_tables, Some hands_table).
Proof. repeat split; vm_compute; reflexivity. Qed.

(** C4 (amended): on a session that is still valid and with a data
    response that is no login redirect, the page that is read decides: the
    data response itself, or, when that response asks for JavaScript, the
    page fetched again after the handshake.  When the page that is read
    holds the no-saved-hands marker, the fetch returns the pair of two
    [None] with the line [No hands found] logged as information; nothing
    is shown as an error (between the two data requests the one thing
    shown is the JavaScript warning, unless [silent]).  That pair is what
    every fetch without a table returns, the expired session and the
    missing table included: the caller can tell these apart by the
    messages only, not by the value. *)
Theorem scrape_no_saved_hands
    (w : world) (html_parser : string -> node) (url : string)
    (proxy : option (SDict.t string)) (silent : bool) (s : io)
    (refresh_resp response : Response) :
  respond w (trace s) (precheck_request (session_headers s) proxy) = Ok refresh_resp ->
  Str.contains "login.php" (resp_url refresh_resp) = false ->
  respond w (data_trace s url proxy silent) (data_request (session_headers s) url proxy)
  = Ok response ->
  Str.contains "login.php" (resp_url response) = false ->
  (Str.contains "Javascript support is needed" (resp_text response) = false ->
   Str.contains "You have no saved hands" (resp_text response) = true ->
   scrape_bbo_hands w html_parser url proxy silent s
   = (Ok (None, None),
      {| session_headers := session_headers s;
         trace := data_trace s url proxy silent
                  ++ [EvRequest (data_request (session_headers s) url proxy);
                      EvLog INFO "No hands found"] |}))
  /\ (forall response2,
        Str.contains "Javascript support is needed" (resp_text response) = true ->
        respond w (retry_trace w s url proxy silent)
          (retry_request (handshake_headers (session_headers s)) url proxy)
        = Ok response2 ->
        Str.contains "You have no saved hands" (resp_text response2) = true ->
        scrape_bbo_hands w html_parser url proxy silent s
        = (Ok (None, None),
           {| session_headers := handshake_headers (session_headers s);
              trace := retry_trace w s url proxy silent
                       ++ [EvRequest (retry_request
                                        (handshake_headers (session_headers s))
                                        url proxy);
                           EvLog INFO "No hands found"] |}))
  /\ (exists t,
        retry_trace w s url proxy silent
        = data_trace s url proxy silent
          ++ EvRequest (data_request (session_headers s) url proxy) :: t
        /\ forall wd args, EvUi wd args ∈ t -> wd = st_warning /\ silent = false)
  /\ (forall w' html_parser' url' proxy' silent' s',
        exists res st,
          scrape_bbo_hands w' html_parser' url' proxy' silent' s' = (Ok res, st)
          /\ (res = (None, None)
              \/ exists soup table,
                   res = (Some soup, Some table) /\ locate_table soup = Some table)).
Proof.
  intros H1 H2 H3 H4. split; [|split; [|split]].
  - intros H5 H6.
    rewrite (scrape_direct w html_parser url proxy silent s refresh_resp response
               H1 H2 H3 H4 H5), H6. reflexivity.
  - intros response2 H5 H6 H7.
    rewrite (scrape_retried w html_parser url proxy silent s refresh_resp response
               response2 H1 H2 H3 H4 H5 H6), H7. reflexivity.
  - apply retry_trace_display.
  - intros w' html_parser' url' proxy' silent' s'. apply scrape_returns.
Qed.

Lemma scrape_no_saved_hands_witness :
  scrape_bbo_hands (fixed_world 0 (serves no_hands_text)) example_parser
    hands_url None true start
  = (Ok (None, None),
     {| session_headers := ∅;
        trace := data_trace start hands_url None true
                 ++ [EvRequest (data_request ∅ hands_url None);
                     EvLog INFO "No hands found"] |})
  /\ fst (scrape_bbo_hands
            (fixed_world 0 (retried_site "Javascript support is needed" no_hands_text))
            example_parser hands_url None true start)
     = Ok (None, None).
Proof.
  split.
  - apply (proj1 (scrape_no_saved_hands (fixed_world 0 (serves no_hands_text))
                    example_parser hands_url None true start landing_page
                    {| resp_url := hands_url; resp_text := no_hands_text;
                       resp_status_code := 200 |}
                    eq_refl eq_refl eq_refl eq_refl)); reflexivity.
  - rewrite (proj1 (proj2 (scrape_no_saved_hands
               (fixed_world 0 (retried_site "Javascript support is needed"
                                 no_hands_text))
               example_parser hands_url None true start landing_page
               {| resp_url := hands_url; resp_text := "Javascript support is needed";
                  resp_status_code := 200 |}
               eq_refl eq_refl eq_refl eq_refl))
               {| resp_url := hands_url; resp_text := no_hands_text;
                  resp_status_code := 200 |}
               eq_refl eq_refl eq_refl).
    reflexivity.
Defined.

(** ** LoginFlow *)

(** *** Facts on dictionaries *)

Lemma sdict_get_set_eq {V} (k : string) (v : V) (d : SDict.t V) :
  SDict.get k (SDict.set k v d) = Some v.
Proof.
  induction d as [|[k' v'] d IH]; simpl.
  - rewrite String.eqb_refl. reflexivity.
  - destruct (String.eqb k k') eqn:E; simpl; rewrite E; [reflexivity|exact IH].
Qed.

Lemma sdict_get_set_ne {V} (k k' : string) (v : V) (d : SDict.t V) :
  k <> k' -> SDict.get k' (SDict.set k v d) = SDict.get k' d.
Proof.
  intros Hne. induction d as [|[k0 v0] d IH]; simpl.
  - destruct (String.eqb k' k) eqn:E; [|reflexivity].
    apply String.eqb_eq in E. congruence.
  - destruct (String.eqb k k0) eqn:E; simpl.
    + apply String.eqb_eq in E. subst k0.
      destruct (String.eqb k' k) eqn:E'; [|reflexivity].
      apply String.eqb_eq in E'. congruence.
    + rewrite IH. reflexivity.
Qed.

Lemma sdict_get_none {V} (k : string) (d : SDict.t V) :
  k ∉ SDict.keys d -> SDict.get k d = None.
Proof.
  induction d as [|[k' v'] d IH]; simpl; intros H; [reflexivity|].
  apply not_elem_of_cons in H as [Hne H].
  destruct (String.eqb k k') eqn:E.
  - apply String.eqb_eq in E. contradiction.
  - apply IH. exact H.
Qed.

Lemma sdict_get_keys {V} (k : string) (v : V) (d : SDict.t V) :
  SDict.get k d = Some v -> k ∈ SDict.keys d.
Proof.
  induction d as [|[k' v'] d IH]; simpl; intros H; [discriminate|].
  destruct (String.eqb k k') eqn:E.
  - apply String.eqb_eq in E. subst k'. left.
  - right. apply IH. exact H.
Qed.

Lemma sdict_keys_set {V} (k : string) (v : V) (d : SDict.t V) :
  SDict.keys (SDict.set k v d)
  = if SDict.has k d then SDict.keys d else SDict.keys d ++ [k].
Proof.
  unfold SDict.has. induction d as [|[k' v'] d IH]; simpl; [reflexivity|].
  destruct (String.eqb k k') eqn:E; simpl; [reflexivity|].
  rewrite IH. destruct (SDict.get k d); reflexivity.
Qed.

Lemma sdict_set_nodup {V} (k : string) (v : V) (d : SDict.t V) :
  NoDup (SDict.keys d) -> NoDup (SDict.keys (SDict.set k v d)).
Proof.
  intros H. rewrite sdict_keys_set. unfold SDict.has.
  destruct (SDict.get k d) eqn:E; [exact H|].
  apply NoDup_app. split; [exact H|]. split.
  - intros x Hx Hk. apply list_elem_of_singleton in Hk. subst x.
    induction d as [|[k' v'] d IH]; simpl in *; [apply elem_of_nil in Hx; exact Hx|].
    destruct (String.eqb k k') eqn:E'; [discriminate|].
    apply elem_of_cons in Hx as [->|Hx].
    + rewrite String.eqb_refl in E'. discriminate.
    + apply NoDup_cons in H as [_ H]. exact (IH H E Hx).
  - apply NoDup_singleton.
Qed.

(** What [d.update(h)] holds under a key, for [h] with each key once. *)
Lemma sdict_get_update {V} (k : string) (d h : SDict.t V) :
  NoDup (SDict.keys h) ->
  SDict.get k (SDict.update d h)
  = match SDict.get k h with
    | Some v => Some v
    | None => SDict.get k d
    end.
Proof.
  unfold SDict.update. revert d. induction h as [|[k0 v0] h IH]; intros d Hnd; simpl.
  - reflexivity.
  - simpl in Hnd. apply NoDup_cons in Hnd as [Hk0 Hnd].
    rewrite (IH _ Hnd). destruct (String.eqb k k0) eqn:E.
    + apply String.eqb_eq in E. subst k0.
      rewrite (sdict_get_none k h Hk0). apply sdict_get_set_eq.
    + destruct (SDict.get k h); [reflexivity|].
      apply sdict_get_set_ne. intros ->. rewrite String.eqb_refl in E. discriminate.
Qed.

(** *** The hidden fields of a page, without the log *)

Definition hidden_inputs (soup : node) : list node :=
  match Soup.find_attr soup "form" "method" "post" with
  | Some form => Soup.find_all_attr form "input" "type" "hidden"
  | None => []
  end.

(** The name and the value of a hidden input that has a name. *)
Definition named_field (input_field : node) : option (string * option string) :=
  match Soup.get input_field "name" with
  | Some n =>
      if negb (String.eqb n EmptyString) then Some (n, Soup.get input_field "value")
      else None
  | None => None
  end.

(** The hidden fields discovered on the page, in document order. *)
Definition discovered (soup : node) : list (string * option string) :=
  omap named_field (hidden_inputs soup).

Definition store_fields (fields : list (string * option string))
    (acc : SDict.t (option string)) : SDict.t (option string) :=
  fold_left (fun acc p => SDict.set (fst p) (snd p) acc) fields acc.

Definition with_defaults (hidden_fields : SDict.t (option string))
  : SDict.t (option string) :=
  let with_t :=
    if negb (SDict.has "t" hidden_fields)
    then SDict.set "t" (Some "/myhands/index.php?") hidden_fields
    else hidden_fields in
  if negb (SDict.has "count" with_t) then SDict.set "count" (Some "1") with_t
  else with_t.

Definition form_fields (soup : node) : SDict.t (option string) :=
  with_defaults (store_fields (discovered soup) []).

(** The form data of the login POST. *)
Definition login_data (username password : string) (soup : node)
  : SDict.t (option string) :=
  SDict.update (credentials username password) (form_fields soup).

Lemma store_fields_untouched (k : string) (fields : list (string * option string))
    (acc : SDict.t (option string)) :
  k ∉ map fst fields -> SDict.get k (store_fields fields acc) = SDict.get k acc.
Proof.
  unfold store_fields. revert acc.
  induction fields as [|[n v] fields IH]; intros acc H; simpl; [reflexivity|].
  simpl in H. apply not_elem_of_cons in H as [Hne H].
  rewrite (IH _ H). apply sdict_get_set_ne. congruence.
Qed.

Lemma store_fields_last (pre post : list (string * option string)) (n : string)
    (v : option string) (acc : SDict.t (option string)) :
  n ∉ map fst post ->
  SDict.get n (store_fields (pre ++ (n, v) :: post) acc) = Some v.
Proof.
  intros H. unfold store_fields. rewrite fold_left_app. simpl.
  fold (store_fields post (SDict.set n v (store_fields pre acc))).
  rewrite (store_fields_untouched n post _ H). apply sdict_get_set_eq.
Qed.

Lemma store_fields_nodup (fields : list (string * option string))
    (acc : SDict.t (option string)) :
  NoDup (SDict.keys acc) -> NoDup (SDict.keys (store_fields fields acc)).
Proof.
  unfold store_fields. revert acc.
  induction fields as [|[n v] fields IH]; intros acc H; simpl; [exact H|].
  apply IH. apply sdict_set_nodup. exact H.
Qed.

Lemma with_defaults_nodup (hf : SDict.t (option string)) :
  NoDup (SDict.keys hf) -> NoDup (SDict.keys (with_defaults hf)).
Proof.
  intros H. unfold with_defaults.
  destruct (negb (SDict.has "t" hf));
    destruct (negb (SDict.has "count" _));
    repeat apply sdict_set_nodup; exact H.
Qed.

Lemma with_defaults_keeps (k : string) (v : option string) (hf : SDict.t (option string)) :
  SDict.get k hf = Some v -> SDict.get k (with_defaults hf) = Some v.
Proof.
  intros H. unfold with_defaults, SDict.has.
  assert (St : forall d k' v', SDict.get k d = Some v ->
                               SDict.get k' d = None ->
                               SDict.get k (SDict.set k' v' d) = Some v).
  { intros d k' v' Hd Hn. rewrite sdict_get_set_ne; [exact Hd|].
    intros ->. rewrite Hd in Hn. discriminate. }
  destruct (SDict.get "t" hf) eqn:Et; simpl.
  - destruct (SDict.get "count" hf) eqn:Ec; simpl; [exact H|]. apply St; assumption.
  - destruct (SDict.get "count" (SDict.set "t" _ hf)) eqn:Ec; simpl.
    + apply St; assumption.
    + apply St; [apply St; assumption|exact Ec].
Qed.

Lemma with_defaults_other (k : string) (hf : SDict.t (option string)) :
  k <> "t" -> k <> "count" -> SDict.get k (with_defaults hf) = SDict.get k hf.
Proof.
  intros Ht Hc. unfold with_defaults.
  destruct (negb (SDict.has "t" hf));
    destruct (negb (SDict.has "count" _));
    rewrite ?sdict_get_set_ne by congruence; reflexivity.
Qed.

Lemma with_defaults_t (hf : SDict.t (option string)) :
  SDict.get "t" hf = None ->
  SDict.get "t" (with_defaults hf) = Some (Some "/myhands/index.php?").
Proof.
  intros H. unfold with_defaults, SDict.has. rewrite H. simpl.
  destruct (negb _); rewrite ?sdict_get_set_ne by discriminate;
    apply sdict_get_set_eq.
Qed.

Lemma with_defaults_count (hf : SDict.t (option string)) :
  SDict.get "count" hf = None ->
  SDict.get "count" (with_defaults hf) = Some (Some "1").
Proof.
  intros H. unfold with_defaults, SDict.has.
  destruct (SDict.get "t" hf) eqn:Et; simpl.
  - rewrite H. simpl. apply sdict_get_set_eq.
  - rewrite sdict_get_set_ne by discriminate. rewrite H. simpl.
    apply sdict_get_set_eq.
Qed.

Lemma form_fields_nodup (soup : node) : NoDup (SDict.keys (form_fields soup)).
Proof. apply with_defaults_nodup, store_fields_nodup, NoDup_nil_2. Qed.

(** *** Computations that only log *)

(** [logs_only m a]: [m] returns [a], leaves the session's headers alone
    and only adds events to the trace. *)
Definition logs_only {A} (m : IO A) (a : A) : Prop :=
  forall s, exists logs,
    m s = (Ok a, {| session_headers := session_headers s; trace := trace s ++ logs |}).

Lemma logs_only_ret {A} (a : A) : logs_only (ret a) a.
Proof.
  intros [h t]. exists []. unfold ret. simpl. rewrite app_nil_r. reflexivity.
Qed.

Lemma logs_only_emit (e : event) : logs_only (emit e) tt.
Proof. intros s. exists [e]. reflexivity. Qed.

Lemma logs_only_bind {A B} (m : IO A) (k : A -> IO B) (a : A) (b : B) :
  logs_only m a -> logs_only (k a) b -> logs_only (bind m k) b.
Proof.
  intros Hm Hk s. destruct (Hm s) as [l1 E1].
  destruct (Hk {| session_headers := session_headers s; trace := trace s ++ l1 |})
    as [l2 E2].
  exists (l1 ++ l2). unfold bind. rewrite E1, E2. simpl. rewrite app_assoc. reflexivity.
Qed.

Lemma collect_hidden_logs (inputs : list node) (hf : SDict.t (option string)) :
  logs_only (collect_hidden inputs hf) (store_fields (omap named_field inputs) hf).
Proof.
  revert hf. induction inputs as [|i inputs IH]; intros hf; simpl.
  - apply logs_only_ret.
  - unfold named_field at 1.
    destruct (Soup.get i "name") as [n|]; [|apply IH].
    destruct (negb (String.eqb n EmptyString)); [|apply IH].
    simpl. eapply logs_only_bind; [apply logs_only_emit|apply IH].
Qed.

Lemma logs_only_log_ret {A} (e : event) (a : A) : logs_only (emit e ;;; ret a) a.
Proof. eapply logs_only_bind; [apply logs_only_emit|apply logs_only_ret]. Qed.

Lemma discover_fields_logs (soup : node) :
  logs_only (discover_fields soup) (form_fields soup).
Proof.
  unfold discover_fields, form_fields, discovered, hidden_inputs, with_defaults, log.
  destruct (Soup.find_attr soup "form" "method" "post") as [form|].
  - eapply logs_only_bind; [apply collect_hidden_logs|]. cbv beta.
    match goal with
    | |- context [negb (SDict.has "t" ?d)] => destruct (negb (SDict.has "t" d))
    end;
      (eapply logs_only_bind; [first [apply logs_only_log_ret|apply logs_only_ret]|]);
      cbv beta;
      match goal with
      | |- context [negb (SDict.has "count" ?d)] => destruct (negb (SDict.has "count" d))
      end;
      first [apply logs_only_log_ret|apply logs_only_ret].
  - intros s.
    exists [EvLog INFO "Added required target parameter";
            EvLog INFO "Added required count parameter"].
    unfold bind, ret, emit, modify. simpl. rewrite <- ?app_assoc. reflexivity.
Qed.

(** *** Computations that only add to the trace *)

Definition extends {A} (m : IO A) : Prop :=
  forall s, exists t, trace (snd (m s)) = trace s ++ t.

Lemma extends_ret {A} (a : A) : extends (ret a : IO A).
Proof. intros s. exists []. simpl. rewrite app_nil_r. reflexivity. Qed.

Lemma extends_emit (e : event) : extends (emit e).
Proof. intros s. exists [e]. reflexivity. Qed.

Lemma extends_gets {A} (f : io -> A) : extends (gets f).
Proof. intros s. exists []. simpl. rewrite app_nil_r. reflexivity. Qed.

Lemma extends_headers_update (h : SDict.t string) : extends (headers_update h).
Proof. intros s. exists []. simpl. rewrite app_nil_r. reflexivity. Qed.

Lemma extends_send w m u hdrs data allow timeout proxy :
  extends (send w m u hdrs data allow timeout proxy).
Proof. intros s. eexists. reflexivity. Qed.

Lemma extends_bind {A B} (m : IO A) (k : A -> IO B) :
  extends m -> (forall a, extends (k a)) -> extends (bind m k).
Proof.
  intros Hm Hk s. unfold bind. destruct (Hm s) as [t1 E1].
  destruct (m s) as [[a|e] s1]; simpl in *.
  - destruct (Hk a s1) as [t2 E2]. exists (t1 ++ t2).
    rewrite E2, E1, app_assoc. reflexivity.
  - exists t1. exact E1.
Qed.

Lemma extends_try {A} (body : IO A) (handler : exn -> IO A) :
  extends body -> (forall e, extends (handler e)) -> extends (try_except body handler).
Proof.
  intros Hb Hh s. unfold try_except. destruct (Hb s) as [t1 E1].
  destruct (body s) as [[a|e] s1]; simpl in *.
  - exists t1. exact E1.
  - destruct (Hh e s1) as [t2 E2]. exists (t1 ++ t2).
    rewrite E2, E1, app_assoc. reflexivity.
Qed.

Ltac extends_step :=
  lazymatch goal with
  | |- extends (ret _) => apply extends_ret
  | |- extends (emit _) => apply extends_emit
  | |- extends (gets _) => apply extends_gets
  | |- extends (headers_update _) => apply extends_headers_update
  | |- extends (send _ _ _ _ _ _ _ _) => apply extends_send
  | |- extends (bind _ _) => apply extends_bind; [|intros]
  | |- extends (try_except _ _) => apply extends_try; [|intros]
  | |- extends (if ?c then _ else _) => destruct c
  end.

Ltac extends_tac := cbv zeta; unfold sleep, log, ui, unless; repeat extends_step.

Lemma handle_timezone_redirect_extends (w : world) (proxy : option (SDict.t string)) :
  extends (handle_timezone_redirect w proxy).
Proof. unfold handle_timezone_redirect, get_local_timezone_offset. extends_tac. Qed.

(** A [try] adds to what its body has put on the trace. *)
Lemma try_after_body {A} (body : IO A) (handler : exn -> IO A) (s : io) :
  (forall e, extends (handler e)) ->
  exists t, trace (snd (try_except body handler s)) = trace (snd (body s)) ++ t.
Proof.
  intros Hh. unfold try_except. destruct (body s) as [[a|e] s1]; simpl.
  - exists []. rewrite app_nil_r. reflexivity.
  - apply Hh.
Qed.

(** *** Running a computation step by step *)

Lemma bind_emit {A} (e : event) (k : unit -> IO A) (s : io) :
  bind (emit e) k s
  = k tt {| session_headers := session_headers s; trace := trace s ++ [e] |}.
Proof. reflexivity. Qed.

Lemma bind_modify {A} (f : io -> io) (k : unit -> IO A) (s : io) :
  bind (modify f) k s = k tt (f s).
Proof. reflexivity. Qed.

Lemma bind_send {A} w m u hdrs data allow timeout proxy (k : Response -> IO A) (s : io) :
  bind (send w m u hdrs data allow timeout proxy) k s
  = let rq := {| rq_method := m; rq_url := u;
                 rq_session_headers := session_headers s;
                 rq_headers := hdrs; rq_data := data;
                 rq_allow_redirects := allow; rq_timeout := timeout;
                 rq_proxies := proxy |} in
    match respond w (trace s) rq with
    | Ok r => k r {| session_headers := session_headers s;
                     trace := trace s ++ [EvRequest rq] |}
    | Raise e => (Raise e, {| session_headers := session_headers s;
                              trace := trace s ++ [EvRequest rq] |})
    end.
Proof. unfold bind, send. simpl. destruct (respond w (trace s) _); reflexivity. Qed.

Lemma bind_logs_only {A B} (m : IO A) (a : A) (k : A -> IO B) (s : io) :
  logs_only m a ->
  exists logs,
    bind m k s
    = k a {| session_headers := session_headers s; trace := trace s ++ logs |}.
Proof.
  intros H. destruct (H s) as [logs E]. exists logs. unfold bind. rewrite E. reflexivity.
Qed.

Ltac io_step :=
  first [rewrite bind_emit | rewrite bind_modify];
  cbv beta; cbn [trace session_headers].

Ltac extends_site :=
  cbv zeta; unfold sleep, log, ui, unless;
  repeat first [apply handle_timezone_redirect_extends | extends_step].

Lemma send_then_extends {A} w m u hdrs data allow timeout proxy
    (k : Response -> IO A) (s : io) :
  (forall r, extends (k r)) ->
  exists rest,
    trace (snd (bind (send w m u hdrs data allow timeout proxy) k s))
    = trace s
      ++ EvRequest {| rq_method := m; rq_url := u;
                      rq_session_headers := session_headers s;
                      rq_headers := hdrs; rq_data := data;
                      rq_allow_redirects := allow; rq_timeout := timeout;
                      rq_proxies := proxy |} :: rest.
Proof.
  intros Hk. rewrite bind_send. cbv zeta.
  destruct (respond w (trace s) _) as [r|e].
  - destruct (Hk r {| session_headers := session_headers s;
                      trace := trace s ++ [EvRequest
                        {| rq_method := m; rq_url := u;
                           rq_session_headers := session_headers s;
                           rq_headers := hdrs; rq_data := data;
                           rq_allow_redirects := allow; rq_timeout := timeout;
                           rq_proxies := proxy |}] |}) as [t E].
    exists t. rewrite E. simpl. rewrite <- app_assoc. reflexivity.
  - exists []. reflexivity.
Qed.

(** *** The requests of the login flow *)

Definition home_url : string := "https://www.bridgebase.com/myhands/".

(** The browser headers the login flow gives a new session. *)
Definition login_headers (default_headers : Headers.t) : Headers.t :=
  Headers.update default_headers
    [("User-Agent", "Mozilla/5.0 (Windows NT 10.0; Win64; x64) AppleWebKit/537.36 (KHTML, like Gecko) Chrome/120.0.0.0 Safari/537.36");
     ("Accept", "text/html,application/xhtml+xml,application/xml;q=0.9,image/avif,image/webp,image/apng,*/*;q=0.8,application/signed-exchange;v=b3;q=0.7");
     ("Accept-Language", "en-US,en;q=0.9");
     ("Accept-Encoding", "gzip, deflate, br");
     ("DNT", "1");
     ("Connection", "keep-alive");
     ("Upgrade-Insecure-Requests", "1");
     ("Sec-Fetch-Dest", "document");
     ("Sec-Fetch-Mode", "navigate");
     ("Sec-Fetch-Site", "same-origin");
     ("Sec-Fetch-User", "?1")].

Definition plain_get (u : string) (h : Headers.t) (proxy : option (SDict.t string))
  : Request :=
  {| rq_method := GET; rq_url := u; rq_session_headers := h;
     rq_headers := None; rq_data := None; rq_allow_redirects := None;
     rq_timeout := Some 10; rq_proxies := proxy |}.

Definition home_request (default_headers : Headers.t) (proxy : option (SDict.t string))
  : Request :=
  plain_get home_url (login_headers default_headers) proxy.

Definition home_trace (s : io) : list event :=
  trace s ++ [EvUi st_info [ShStr "🔄 Initializing session..."]].

Definition page_headers (default_headers : Headers.t) : Headers.t :=
  Headers.update (login_headers default_headers) [("Referer", home_url)].

Definition page_request (default_headers : Headers.t) (proxy : option (SDict.t string))
  : Request :=
  plain_get login_page_url (page_headers default_headers) proxy.

Definition page_trace (s : io) (default_headers : Headers.t)
    (proxy : option (SDict.t string)) : list event :=
  home_trace s
  ++ [EvRequest (home_request default_headers proxy);
      EvSleep 1500 3000;
      EvUi st_info [ShStr "🔑 Loading login form..."]].

Definition submit_headers (h : Headers.t) : Headers.t :=
  Headers.update h
    [("Content-Type", "application/x-www-form-urlencoded");
     ("Origin", "https://www.bridgebase.com");
     ("Referer", login_page_url)].

(** The POST of the login form. *)
Definition submit_request (h : Headers.t) (proxy : option (SDict.t string))
    (data : SDict.t (option string)) : Request :=
  {| rq_method := POST; rq_url := login_page_url;
     rq_session_headers := submit_headers h;
     rq_headers := None; rq_data := Some data; rq_allow_redirects := Some true;
     rq_timeout := Some 15; rq_proxies := proxy |}.

(** What the flow puts on the trace between the form and its POST. *)
Definition submit_events (py_repr : string -> string) (h : Headers.t)
    (proxy : option (SDict.t string))
    (data : SDict.t (option string)) : list event :=
  [EvSleep 1000 2500;
   EvUi st_info [ShStr "📨 Authenticating..."];
   EvLog INFO ("Submitting form with fields: " +:+ format_keys py_repr data);
   EvSleep 2000 4000;
   EvRequest (submit_request h proxy data)].

Lemma submit_login_form_trace (w : world) (py_repr : string -> string)
    (username password : string)
    (proxy : option (SDict.t string)) (hidden_fields : SDict.t (option string))
    (s : io) :
  exists rest,
    trace (snd (submit_login_form w py_repr username password proxy hidden_fields s))
    = trace s
      ++ submit_events py_repr (session_headers s) proxy
           (SDict.update (credentials username password) hidden_fields)
      ++ rest.
Proof.
  unfold submit_login_form. cbv zeta. unfold sleep, log, ui, headers_update.
  repeat io_step.
  match goal with
  | |- context [bind (send ?w ?m ?u ?h ?d ?a ?t ?p) ?k ?s5] =>
      destruct (send_then_extends w m u h d a t p k s5) as [rest E];
      [intros; extends_site|rewrite E]
  end.
  exists rest. cbn [trace session_headers]. unfold submit_events.
  rewrite <- ?app_assoc. reflexivity.
Qed.

Section Login.

Variable w : world.
Variable html_parser : string -> node.
Variable default_headers : Headers.t.
Variable py_repr : string -> string.
Variable username password : string.
Variable proxy : option (SDict.t string).
Variable s : io.
Variable home_resp login_page_response : Response.

Hypothesis Hhome :
  respond w (home_trace s) (home_request default_headers proxy) = Ok home_resp.
Hypothesis Hpage :
  respond w (page_trace s default_headers proxy) (page_request default_headers proxy)
  = Ok login_page_response.

Lemma login_to_bbo_trace :
  exists logs rest,
    trace (snd (login_to_bbo w html_parser default_headers py_repr username password proxy s))
    = page_trace s default_headers proxy
      ++ EvRequest (page_request default_headers proxy) :: logs
      ++ submit_events py_repr (page_headers default_headers) proxy
           (login_data username password
              (html_parser (resp_text login_page_response)))
      ++ rest.
Proof.
  unfold login_to_bbo.
  match goal with
  | |- context [try_except ?body ?handler s] =>
      destruct (try_after_body body handler s) as [t' Et];
      [intros; extends_site|rewrite Et; clear Et]
  end.
  cbv zeta. unfold sleep, log, ui, headers_update.
  repeat io_step.
  rewrite bind_send. cbv zeta. cbn [trace session_headers].
  rewrite_respond Hhome. cbv beta iota. cbn [trace session_headers].
  repeat io_step.
  rewrite bind_send. cbv zeta. cbn [trace session_headers].
  unfold page_trace, home_trace in Hpage. rewrite <- ?app_assoc in Hpage.
  rewrite <- ?app_assoc. cbn [app] in *.
  rewrite_respond Hpage. cbv beta iota.
  match goal with
  | |- context [bind (discover_fields ?soup) ?k ?s4] =>
      destruct (bind_logs_only (discover_fields soup) (form_fields soup) k s4
                  (discover_fields_logs soup)) as [logs E];
      rewrite E; clear E
  end.
  cbn [trace session_headers].
  match goal with
  | |- context [submit_login_form w py_repr username password proxy ?hf ?s5] =>
      destruct (submit_login_form_trace w py_repr username password proxy hf s5) as [rest E];
      rewrite E; clear E
  end.
  exists logs, (rest ++ t'). cbn [trace session_headers].
  unfold page_trace, home_trace, login_data. rewrite <- ?app_assoc. reflexivity.
Qed.

End Login.

(** *** The form data of the login POST *)

Section LoginData.

Variable username password : string.
Variable soup : node.

Abbreviation data := (login_data username password soup).

Lemma login_data_get (k : string) :
  SDict.get k data
  = match SDict.get k (form_fields soup) with
    | Some v => Some v
    | None => SDict.get k (credentials username password)
    end.
Proof. apply sdict_get_update, form_fields_nodup. Qed.

Lemma login_data_has_credentials (k : string) (v : option string) :
  SDict.get k (credentials username password) = Some v -> SDict.has k data = true.
Proof.
  intros H. unfold SDict.has. rewrite login_data_get, H.
  destruct (SDict.get k (form_fields soup)); reflexivity.
Qed.

Lemma login_data_discovered (pre post : list (string * option string))
    (n : string) (v : option string) :
  discovered soup = pre ++ (n, v) :: post ->
  n ∉ map fst post ->
  SDict.get n data = Some v.
Proof.
  intros Hd Hn. rewrite login_data_get. unfold form_fields.
  rewrite (with_defaults_keeps n v); [reflexivity|].
  rewrite Hd. apply store_fields_last. exact Hn.
Qed.

Lemma login_data_t :
  "t" ∉ map fst (discovered soup) ->
  SDict.get "t" data = Some (Some "/myhands/index.php?").
Proof.
  intros H. rewrite login_data_get. unfold form_fields.
  rewrite with_defaults_t; [reflexivity|].
  rewrite store_fields_untouched by exact H. reflexivity.
Qed.

Lemma login_data_count :
  "count" ∉ map fst (discovered soup) ->
  SDict.get "count" data = Some (Some "1").
Proof.
  intros H. rewrite login_data_get. unfold form_fields.
  rewrite with_defaults_count; [reflexivity|].
  rewrite store_fields_untouched by exact H. reflexivity.
Qed.

Lemma login_data_credentials (k : string) (v : option string) :
  SDict.get k (credentials username password) = Some v ->
  k ∉ map fst (discovered soup) ->
  SDict.get k data = Some v.
Proof.
  intros Hk Hn. rewrite login_data_get. unfold form_fields.
  rewrite with_defaults_other.
  - rewrite store_fields_untouched by exact Hn. simpl. exact Hk.
  - intros ->. discriminate Hk.
  - intros ->. discriminate Hk.
Qed.

End LoginData.

(** *** An example login page *)

Definition hidden_input (attrs : gmap string string) : node :=
  NTag "input" [] (<["type" := "hidden"]> attrs) [].

(** A login form with a token, a count of its own, a hidden input that has
    no name, and the two visible inputs. *)
Definition login_document : node :=
  tag "[document]" []
    [NTag "form" [] {["method" := "post"]}
       [hidden_input {["name" := "csrf"; "value" := "k3y"]};
        hidden_input {["name" := "count"; "value" := "3"]};
        hidden_input {["value" := "stray"]};
        NTag "input" [] {["type" := "text"; "name" := "username"]} [];
        NTag "input" [] {["type" := "password"; "name" := "password"]} []]].

(** The markup of [login_document]. *)
Definition login_page : Response :=
  {| resp_url := login_page_url;
     resp_text := "<form method='post'><input type='hidden' name='csrf' value='k3y'><input type='hidden' name='count' value='3'><input type='hidden' value='stray'><input type='text' name='username'><input type='password' name='password'></form>";
     resp_status_code := 200 |}.

(** The page of [login_redirect]: a form that is not closed and has no
    input. *)
Definition bare_form : node :=
  tag "[document]" []
    [NTag "form" [] {["method" := "post"; "action" := "myhands_login.php"]} []].

(** A parser for the example login pages; any other text is read as text
    without markup. *)
Definition login_parser (txt : string) : node :=
  if String.eqb txt (resp_text login_page) then login_document
  else if String.eqb txt (resp_text login_redirect) then bare_form
  else plain_document txt.

(** A site that shows the login form and lets everybody in. *)
Definition login_site (rq : Request) : result Response :=
  match rq_method rq with
  | POST => Ok landing_page
  | GET => if String.eqb (rq_url rq) login_page_url then Ok login_page
           else Ok landing_page
  end.



(** * Further properties of the code *)

(** ** [parse_cookie_text] never raises *)

(** The equals sign is a byte of no white space character. *)
Lemma is_space_equals : no_space_byte EQUALS = true.
Proof. reflexivity. Qed.

Lemma space_char_lacks (c : ascii) (p : string) :
  no_space_byte c = true -> Str.is_space_char p = true -> Str.has_char c p = false.
Proof. intros Hc Hp. apply (space_lacks c p Hc), is_space_char_spaces, Hp. Qed.

Lemma has_char_lstrip (c : ascii) (s : string) :
  no_space_byte c = true -> Str.has_char c (Str.lstrip s) = Str.has_char c s.
Proof.
  intros Hc.
  assert (L : forall n s, (String.length s <= n)%nat ->
                          Str.has_char c (Str.lstrip s) = Str.has_char c s).
  { clear s. induction n as [|n IH]; intros s Hn.
    - destruct s; [reflexivity|simpl in Hn; lia].
    - destruct s as [|c1 s1]; [reflexivity|]. cbn [Str.lstrip]. simpl in Hn.
      destruct (Str.is_space_char (String c1 EmptyString)) eqn:E1.
      { rewrite IH by lia. pose proof (space_char_lacks c _ Hc E1) as H.
        simpl in H. simpl. apply orb_false_elim in H as [-> _]. reflexivity. }
      destruct s1 as [|c2 s2]; [reflexivity|]. simpl in Hn.
      destruct (Str.is_space_char (String c1 (String c2 EmptyString))) eqn:E2.
      { rewrite IH by lia. pose proof (space_char_lacks c _ Hc E2) as H.
        simpl in H. simpl. apply orb_false_elim in H as [-> H].
        apply orb_false_elim in H as [-> _]. reflexivity. }
      destruct s2 as [|c3 s3]; [reflexivity|]. simpl in Hn.
      destruct (Str.is_space_char (String c1 (String c2 (String c3 EmptyString))))
        eqn:E3; [|reflexivity].
      rewrite IH by lia. pose proof (space_char_lacks c _ Hc E3) as H.
      simpl in H. simpl. apply orb_false_elim in H as [-> H].
      apply orb_false_elim in H as [-> H].
      apply orb_false_elim in H as [-> _]. reflexivity. }
  exact (L (String.length s) s (le_n _)).
Qed.

Lemma has_char_rstrip (c : ascii) (s : string) :
  no_space_byte c = true -> Str.has_char c (Str.rstrip s) = Str.has_char c s.
Proof.
  intros Hc. induction s as [|d s IH]; [reflexivity|]. cbn [Str.rstrip].
  destruct (Str.is_space_char (String d (Str.rstrip s))) eqn:E.
  - pose proof (space_char_lacks c _ Hc E) as H. simpl in H.
    apply orb_false_elim in H as [Hd Hs]. simpl. rewrite Hd, <- IH, Hs. reflexivity.
  - simpl. rewrite IH. reflexivity.
Qed.

Lemma has_char_strip (c : ascii) (s : string) :
  no_space_byte c = true -> Str.has_char c (Str.strip s) = Str.has_char c s.
Proof.
  intros Hc. unfold Str.strip. rewrite has_char_rstrip, has_char_lstrip; auto.
Qed.

(** Cutting at a character the string holds gives two parts. *)
Lemma split1_two (c : ascii) (s : string) :
  Str.has_char c s = true -> exists a b, Str.split1 c s = [a; b].
Proof.
  induction s as [|d s IH]; simpl; [discriminate|].
  destruct (Ascii.eqb c d); simpl; intros H.
  - eauto.
  - destruct (IH H) as (a & b & E). rewrite E. eauto.
Qed.

(** A dictionary all of whose keys and values are strings. *)
Definition str_item (kv : pyval * pyval) : Prop :=
  exists k v, kv = (PStr k, PStr v).

Lemma dict_set_str_items (k v : string) (d : list (pyval * pyval)) :
  Forall str_item d -> Forall str_item (Py.dict_set (PStr k) (PStr v) d).
Proof.
  induction 1 as [|[k' v'] d (a & b & E) Hd IH]; simpl.
  - repeat constructor. exists k, v. reflexivity.
  - injection E as -> ->. simpl. destruct (String.eqb k a).
    + constructor; [exists a, v; reflexivity|assumption].
    + constructor; [exists a, b; reflexivity|assumption].
Qed.

Lemma line_cookies_total (lines : list string) (acc : list (pyval * pyval)) :
  Forall str_item acc ->
  exists d, line_cookies lines acc = Ok d /\ Forall str_item d.
Proof.
  revert acc. induction lines as [|line lines IH]; intros acc Hacc; simpl.
  - eauto.
  - destruct (Str.has_char EQUALS line) eqn:E; [|apply IH; exact Hacc].
    rewrite <- (has_char_strip EQUALS line is_space_equals) in E.
    destruct (split1_two EQUALS _ E) as (a & b & Hs). rewrite Hs. simpl.
    apply IH. apply dict_set_str_items. exact Hacc.
Qed.

(** X1: [parse_cookie_text] never raises, whatever [json.loads] does with
    the text: the reading by lines cannot fail, because a line that holds
    an equals sign still holds it when stripped and is cut in two parts.
    When the structured reading fails, the result is a dictionary whose
    keys and values are all strings. *)
Theorem parse_cookie_text_never_raises
    (json_loads : string -> result pyval) (cookie_text : string) :
  (exists v, parse_cookie_text json_loads cookie_text = Ok v)
  /\ (forall e, parse_structured json_loads cookie_text = Raise e ->
                exists d, parse_cookie_text json_loads cookie_text = Ok (PDict d)
                          /\ Forall str_item d).
Proof.
  assert (L : exists d, parse_lines cookie_text = Ok (PDict d) /\ Forall str_item d).
  { unfold parse_lines.
    destruct (line_cookies_total (Str.split LF cookie_text) [] (Forall_nil_2 _))
      as (d & E & Hd).
    rewrite E. simpl. eauto. }
  unfold parse_cookie_text. split.
  - destruct (parse_structured json_loads cookie_text); [eauto|].
    destruct L as (d & E & _). eauto.
  - intros e He. rewrite He. exact L.
Qed.

(** ** Looking a cookie up *)

Lemma dict_get_set_eq (k : string) (v : pyval) (d : list (pyval * pyval)) :
  Py.dict_get (PStr k) (Py.dict_set (PStr k) v d) = Some v.
Proof.
  induction d as [|[k' v'] d IH].
  - simpl. rewrite String.eqb_refl. reflexivity.
  - cbn [Py.dict_set]. destruct (Py.key_eqb (PStr k) k') eqn:E;
      cbn [Py.dict_get]; rewrite E; [reflexivity|exact IH].
Qed.

Lemma dict_get_set_ne (n k : string) (v : pyval) (d : list (pyval * pyval)) :
  n <> k ->
  Py.dict_get (PStr n) (Py.dict_set (PStr k) v d) = Py.dict_get (PStr n) d.
Proof.
  intros Hne. induction d as [|[k' v'] d IH]; simpl.
  - destruct (String.eqb n k) eqn:E; [|reflexivity].
    apply String.eqb_eq in E. contradiction.
  - destruct k'; simpl; try exact IH.
    destruct (String.eqb k s) eqn:E; simpl; [|rewrite IH; reflexivity].
    apply String.eqb_eq in E. subst s.
    destruct (String.eqb n k) eqn:E'; [|reflexivity].
    apply String.eqb_eq in E'. contradiction.
Qed.

Lemma cookie_items_untouched (n : string) (pairs : list (string * string))
    (acc : list (pyval * pyval)) :
  n ∉ map fst pairs ->
  Py.dict_get (PStr n) (cookie_items pairs acc) = Py.dict_get (PStr n) acc.
Proof.
  unfold cookie_items. revert acc.
  induction pairs as [|[k v] pairs IH]; intros acc H; simpl; [reflexivity|].
  simpl in H. apply not_elem_of_cons in H as [Hne H].
  rewrite (IH _ H). apply dict_get_set_ne. exact Hne.
Qed.

Lemma cookie_items_last (pre post : list (string * string)) (n v : string)
    (acc : list (pyval * pyval)) :
  n ∉ map fst post ->
  Py.dict_get (PStr n) (cookie_items (pre ++ (n, v) :: post) acc) = Some (PStr v).
Proof.
  intros H. unfold cookie_items. rewrite fold_left_app. simpl.
  fold (cookie_items pre acc).
  fold (cookie_items post (Py.dict_set (PStr n) (PStr v) (cookie_items pre acc))).
  rewrite cookie_items_untouched by exact H. apply dict_get_set_eq.
Qed.

(** X2: for a JSON list of cookie objects, [parse_cookie_text] returns a
    dictionary in which a name is bound to the value of the last object
    that bears it, and a name that no object bears is not bound. *)
Theorem parse_cookie_text_last_value
    (json_loads : string -> result pyval) (cookie_text : string)
    (cookies : list pyval) (pairs : list (string * string)) :
  json_loads cookie_text = Ok (PList cookies) ->
  Forall2 encodes cookies pairs ->
  exists d,
    parse_cookie_text json_loads cookie_text = Ok (PDict d)
    /\ (forall pre n v post,
          pairs = pre ++ (n, v) :: post -> n ∉ map fst post ->
          Py.dict_get (PStr n) d = Some (PStr v))
    /\ (forall n, n ∉ map fst pairs -> Py.dict_get (PStr n) d = None).
Proof.
  intros Hs Hc. exists (cookie_items pairs []). split; [|split].
  - unfold parse_cookie_text.
    rewrite (parse_structured_encoded json_loads cookie_text cookies pairs Hs Hc).
    reflexivity.
  - intros pre n v post -> Hn. apply cookie_items_last. exact Hn.
  - intros n Hn. rewrite cookie_items_untouched by exact Hn. reflexivity.
Qed.

Lemma parse_cookie_text_last_value_witness :
  exists d,
    parse_cookie_text Json.loads (structured_text example_pairs) = Ok (PDict d)
    /\ Py.dict_get (PStr "SRV") d = Some (PStr "www2")
    /\ Py.dict_get (PStr "JSESSIONID") d = None.
Proof.
  destruct (parse_cookie_text_last_value Json.loads (structured_text example_pairs)
              (map (fun p => PDict [(PStr "name", PStr (fst p));
                                    (PStr "value", PStr (snd p))]) example_pairs)
              example_pairs) as (d & Hd & Hlast & Hnone).
  - vm_compute. reflexivity.
  - repeat (apply Forall2_cons_2;
            [eexists; split; [reflexivity|split; reflexivity]|]).
    apply Forall2_nil_2.
  - exists d. split; [exact Hd|]. split.
    + apply (Hlast [("SRV", "www1"); ("myhands_token", "u=abc;k=1")] "SRV" "www2" []).
      * reflexivity.
      * intros H. elem_cases H.
    + apply Hnone. vm_compute. intros H. elem_cases H; discriminate.
Defined.

(** ** What the summary holds *)

Definition is_int (v : pyval) : bool :=
  match v with
  | PInt _ => true
  | _ => false
  end.

(** The int [0] a field starts with, or a float. *)
Definition zero_or_float (v : pyval) : bool :=
  match v with
  | PInt z => z =? 0
  | PFloat _ => true
  | _ => false
  end.

(** The values a field can hold: hand counts are ints, scores are floats
    or still the initial [0]. *)
Definition field_type (f : field) (v : pyval) : bool :=
  match f with
  | F_IMPs_Hands | F_MPs_Hands => is_int v
  | _ => zero_or_float v
  end.

Definition well_typed (st : stats) : Prop :=
  forall f, field_type f (get_field f st) = true.

Lemma cell_write_typed {A} cell (conv : string -> result A) (inj : A -> pyval)
    (f g : field) (v : pyval) :
  (forall a, field_type f (inj a) = true) ->
  (g, Ok v) ∈ cell_write cell conv inj f -> field_type g v = true.
Proof.
  intros Hinj. unfold cell_write. destruct cell as [c|]; intros H.
  - apply list_elem_of_singleton in H.
    destruct (conv (Str.strip (Soup.get_text c))) as [a|e]; simpl in H.
    + injection H as -> ->. apply Hinj.
    + discriminate.
  - apply elem_of_nil in H. contradiction.
Qed.

Lemma row_writes_typed (py_float : string -> result float) (py_int : string -> result Z)
    (row : node) (f : field) (v : pyval) :
  (f, Ok v) ∈ row_writes py_float py_int row -> field_type f v = true.
Proof.
  unfold row_writes. destruct (row_kind row) as [[]|]; intros H;
    repeat (apply elem_of_app in H as [H|H]);
    try (apply elem_of_nil in H; contradiction);
    (eapply cell_write_typed; [|exact H]); intros a; reflexivity.
Qed.

Lemma set_field_typed (f : field) (v : pyval) (st : stats) :
  field_type f v = true -> well_typed st -> well_typed (set_field f v st).
Proof.
  intros Hv Hst g. assert (D : g = f \/ g <> f).
  { destruct g, f; first [left; reflexivity | right; discriminate]. }
  destruct D as [->|Hne].
  - rewrite get_set_field_eq. exact Hv.
  - rewrite get_set_field_ne by exact Hne. apply Hst.
Qed.

Lemma run_writes_typed (ws : list write) (st : stats) :
  (forall f v, (f, Ok v) ∈ ws -> field_type f v = true) ->
  well_typed st -> well_typed (snd (run_writes ws st)).
Proof.
  revert st. induction ws as [|[f r] ws IH]; intros st Hws Hst; simpl.
  - exact Hst.
  - unfold bind, lift, modify. destruct r as [v|e]; simpl; [|exact Hst].
    apply IH.
    + intros g u Hg. apply Hws. right. exact Hg.
    + apply set_field_typed; [|exact Hst]. apply Hws. left.
Qed.

(** X3: whatever the document and whatever the cells hold, the two hand
    counts of the returned summary are ints, and each of the four scores
    is a float or still the int [0] it started with.  So the sum of the
    two hand counts that the page shows as the total is a sum of ints. *)
Theorem extract_summary_types
    (py_float : string -> result float) (py_int : string -> result Z) (soup : node) :
  (exists a b : Z,
      IMPs_Hands (fst (extract_player_statistics py_float py_int soup)) = PInt a
      /\ MPs_Hands (fst (extract_player_statistics py_float py_int soup)) = PInt b)
  /\ zero_or_float (IMPs_Total (fst (extract_player_statistics py_float py_int soup)))
     = true
  /\ zero_or_float (IMPs_Average (fst (extract_player_statistics py_float py_int soup)))
     = true
  /\ zero_or_float (MPs_Average (fst (extract_player_statistics py_float py_int soup)))
     = true
  /\ zero_or_float
       (Total_Masterpoints (fst (extract_player_statistics py_float py_int soup)))
     = true.
Proof.
  assert (W : well_typed (fst (extract_player_statistics py_float py_int soup))).
  { rewrite extract_fst. unfold extract_body. rewrite for_each_writes.
    apply run_writes_typed.
    - intros f v H. apply list_elem_of_In, in_flat_map in H as (row & _ & H).
      apply (row_writes_typed py_float py_int row). apply list_elem_of_In. exact H.
    - intros []; reflexivity. }
  split.
  - pose proof (W F_IMPs_Hands) as H1. pose proof (W F_MPs_Hands) as H2.
    simpl in H1, H2.
    destruct (IMPs_Hands _) as [| | a | | | |]; try discriminate.
    destruct (MPs_Hands _) as [| | b | | | |]; try discriminate.
    eauto.
  - repeat split.
    + exact (W F_IMPs_Total).
    + exact (W F_IMPs_Average).
    + exact (W F_MPs_Average).
    + exact (W F_Total_Masterpoints).
Qed.

(** ** Labels that hold one another *)

Lemma contains_tail (needle : string) (c : ascii) (hay : string) :
  Str.contains needle hay = true -> Str.contains needle (String c hay) = true.
Proof.
  intros H. change (Str.contains needle (String c hay))
    with (String.prefix needle (String c hay) || Str.contains needle hay).
  rewrite H. apply orb_true_r.
Qed.

Lemma prefix_contains (needle hay : string) :
  String.prefix needle hay = true -> Str.contains needle hay = true.
Proof. intros H. destruct hay; cbn [Str.contains]; rewrite H; reflexivity. Qed.

(** Every text that holds [IMPs Average] holds [MPs Average]. *)
Lemma imps_average_holds_mps_average (label : string) :
  Str.contains "IMPs Average" label = true ->
  Str.contains "MPs Average" label = true.
Proof.
  induction label as [|c label IH]; [discriminate|].
  change (Str.contains "IMPs Average" (String c label))
    with (String.prefix "IMPs Average" (String c label)
          || Str.contains "IMPs Average" label).
  intros H. apply orb_prop in H as [H|H].
  - apply contains_tail, prefix_contains.
    cbn [String.prefix] in H.
    match type of H with
    | (if ?t then _ else _) = true => destruct t; [exact H|discriminate]
    end.
  - apply contains_tail, IH, H.
Qed.

(** X4: a row whose label holds [IMPs Average] also passes the test for
    [MPs Average], which comes later in the chain; it is taken by an
    earlier branch and never stores into the MPs average or the MPs hand
    count. *)
Theorem imps_average_row_leaves_mps_alone
    (py_float : string -> result float) (py_int : string -> result Z)
    (row : node) (label : string) :
  row_label row = Some label ->
  Str.contains "IMPs Average" label = true ->
  Str.contains "MPs Average" label = true
  /\ forall st,
       MPs_Average (snd (extract_row py_float py_int row st)) = MPs_Average st
       /\ MPs_Hands (snd (extract_row py_float py_int row st)) = MPs_Hands st.
Proof.
  intros Hl Hc. split; [apply imps_average_holds_mps_average, Hc|].
  assert (Hk : row_kind row = Some K_IMPs_Total \/ row_kind row = Some K_IMPs_Average).
  { unfold row_kind. rewrite Hl. unfold label_kind. rewrite Hc.
    destruct (Str.contains "IMPs Total" label); auto. }
  assert (Hf : forall f, f ∈ map fst (row_writes py_float py_int row) ->
                         f <> F_MPs_Average /\ f <> F_MPs_Hands).
  { intros f H. apply row_writes_fields in H as (k & Hk' & Hf).
    destruct Hk as [Hk|Hk]; rewrite Hk in Hk'; injection Hk' as <-;
      simpl in Hf; elem_cases Hf; subst f; split; discriminate. }
  intros st. rewrite extract_row_writes. split.
  - apply (run_writes_untouched F_MPs_Average). intros H. apply Hf in H as [H _].
    contradiction.
  - apply (run_writes_untouched F_MPs_Hands). intros H. apply Hf in H as [_ H].
    contradiction.
Qed.

Lemma imps_average_row_leaves_mps_alone_witness :
  Str.contains "MPs Average" "IMPs Average" = true
  /\ forall st,
       MPs_Average
         (snd (extract_row Builtin.float Builtin.int
                 (stat_row "odd" "IMPs Average" [cell "score" "1.5"; cell "numhands" "9"])
                 st))
       = MPs_Average st
       /\ MPs_Hands
            (snd (extract_row Builtin.float Builtin.int
                    (stat_row "odd" "IMPs Average"
                       [cell "score" "1.5"; cell "numhands" "9"])
                    st))
          = MPs_Hands st.
Proof.
  apply (imps_average_row_leaves_mps_alone Builtin.float Builtin.int
           (stat_row "odd" "IMPs Average" [cell "score" "1.5"; cell "numhands" "9"])
           "IMPs Average"); reflexivity.
Defined.

(** ** The table a fetch returns *)

Lemma head_filter_some {A} (P : A -> bool) (l : list A) (x : A) :
  head (List.filter P l) = Some x -> P x = true /\ x ∈ l.
Proof.
  induction l as [|y l IH]; simpl; [discriminate|].
  destruct (P y) eqn:E; simpl.
  - intros [= ->]. split; [exact E|left].
  - intros H. destruct (IH H) as [Hp Hin]. split; [exact Hp|right; exact Hin].
Qed.

Lemma select_one_table (soup : node) (sel : selector) (t : node) :
  sel ∈ table_selectors ->
  select_one soup sel = Some t ->
  Soup.is_tag "table" t = true /\ t ∈ Soup.descendants soup.
Proof.
  intros Hsel H. unfold table_selectors in Hsel.
  elem_cases Hsel; subst sel; simpl in H;
    unfold Soup.select_class, Soup.select_id in H;
    apply head_filter_some in H as [Hp Hin];
    apply andb_prop in Hp as [Hp _]; auto.
Qed.

Lemma first_selected_some (soup : node) (selectors : list selector) (t : node) :
  first_selected soup selectors = Some t ->
  exists sel, sel ∈ selectors /\ select_one soup sel = Some t.
Proof.
  induction selectors as [|sel l IH]; simpl; [discriminate|].
  destruct (select_one soup sel) as [t'|] eqn:E.
  - intros [= ->]. exists sel. split; [left|exact E].
  - intros H. destruct (IH H) as (x & Hx & Hs). exists x. split; [right|]; assumption.
Qed.

Lemma generic_scan_some (tables : list node) (t : node) :
  generic_scan tables = Some t -> t ∈ tables /\ looks_like_hands t = true.
Proof.
  induction tables as [|x l IH]; simpl; [discriminate|].
  destruct (looks_like_hands x) eqn:E.
  - intros [= ->]. split; [left|exact E].
  - intros H. destruct (IH H) as [Hin Hl]. split; [right|]; assumption.
Qed.

Lemma locate_table_some (soup t : node) :
  locate_table soup = Some t ->
  Soup.is_tag "table" t = true /\ t ∈ Soup.descendants soup.
Proof.
  unfold locate_table.
  destruct (first_selected soup table_selectors) as [t'|] eqn:E.
  - intros [= ->]. apply first_selected_some in E as (sel & Hsel & Hs).
    exact (select_one_table soup sel t Hsel Hs).
  - intros H. apply generic_scan_some in H as [Hin _].
    unfold Soup.find_all in Hin. apply list_elem_of_In, filter_In in Hin as [Hin Ht].
    split; [exact Ht|apply list_elem_of_In; exact Hin].
Qed.

(** X5: when a fetch returns a document and a table, the table is a
    [table] element of that very document, and it is the one the table
    search finds in it. *)
Theorem fetched_table_is_in_document
    (w : world) (html_parser : string -> node) (url : string)
    (proxy : option (SDict.t string)) (silent : bool) (s : io) (soup table : node) :
  fst (scrape_bbo_hands w html_parser url proxy silent s) = Ok (Some soup, Some table) ->
  locate_table soup = Some table
  /\ Soup.is_tag "table" table = true
  /\ table ∈ Soup.descendants soup.
Proof.
  intros H.
  destruct (scrape_returns w html_parser url proxy silent s)
    as (res & s' & E & [->|(soup' & table' & -> & Hl)]);
    rewrite E in H; simpl in H.
  - discriminate.
  - injection H as -> ->. split; [exact Hl|]. apply locate_table_some. exact Hl.
Qed.

Lemma fetched_table_is_in_document_witness :
  locate_table both_tables = Some hands_table
  /\ Soup.is_tag "table" hands_table = true
  /\ hands_table ∈ Soup.descendants both_tables.
Proof.
  apply (fetched_table_is_in_document (fixed_world 0 (serves hands_text)) example_parser
           hands_url None true start).
  vm_compute. reflexivity.
Defined.

(** ** How many requests a call sends *)

Definition is_request (e : event) : bool :=
  match e with
  | EvRequest _ => true
  | _ => false
  end.

Definition is_post (e : event) : bool :=
  match e with
  | EvRequest r => match rq_method r with POST => true | GET => false end
  | _ => false
  end.

(** The number of events of a kind. *)
Definition count (p : event -> bool) (t : list event) : nat :=
  length (List.filter p t).

(** [within p n m]: [m] only adds to the trace, and adds at most [n]
    events of the kind [p]. *)
Definition within {A} (p : event -> bool) (n : nat) (m : IO A) : Prop :=
  forall s, exists t, trace (snd (m s)) = trace s ++ t /\ (count p t <= n)%nat.

Lemma count_app (p : event -> bool) (a b : list event) :
  count p (a ++ b) = (count p a + count p b)%nat.
Proof. unfold count. rewrite List.filter_app, length_app. reflexivity. Qed.

Section Within.

Variable p : event -> bool.

Lemma within_ret {A} (a : A) : within p 0 (ret a : IO A).
Proof. intros s. exists []. simpl. rewrite app_nil_r. split; [reflexivity|apply Nat.le_0_l]. Qed.

Lemma within_emit (e : event) : p e = false -> within p 0 (emit e).
Proof.
  intros H s. exists [e]. split; [reflexivity|]. unfold count. simpl. rewrite H.
  simpl. lia.
Qed.

Lemma within_gets {A} (f : io -> A) : within p 0 (gets f).
Proof. intros s. exists []. simpl. rewrite app_nil_r. split; [reflexivity|apply Nat.le_0_l]. Qed.

Lemma within_headers_update (h : SDict.t string) : within p 0 (headers_update h).
Proof. intros s. exists []. simpl. rewrite app_nil_r. split; [reflexivity|apply Nat.le_0_l]. Qed.

Lemma within_modify (f : io -> io) :
  (forall s, trace (f s) = trace s) -> within p 0 (modify f).
Proof.
  intros H s. exists []. simpl. rewrite app_nil_r, H.
  split; [reflexivity|apply Nat.le_0_l].
Qed.

Lemma within_send w m u hdrs data allow timeout proxy :
  within p 1 (send w m u hdrs data allow timeout proxy).
Proof.
  intros s. eexists. split; [reflexivity|]. unfold count. simpl.
  destruct (p _); simpl; lia.
Qed.

Lemma within_bind {A B} (a b : nat) (m : IO A) (k : A -> IO B) :
  within p a m -> (forall x, within p b (k x)) -> within p (a + b) (bind m k).
Proof.
  intros Hm Hk s. unfold bind. destruct (Hm s) as (t1 & E1 & L1).
  destruct (m s) as [[x|e] s1]; simpl in *.
  - destruct (Hk x s1) as (t2 & E2 & L2). exists (t1 ++ t2).
    rewrite E2, E1, app_assoc, count_app. split; [reflexivity|lia].
  - exists t1. split; [exact E1|lia].
Qed.

Lemma within_try {A} (a b : nat) (body : IO A) (handler : exn -> IO A) :
  within p a body -> (forall e, within p b (handler e)) ->
  within p (a + b) (try_except body handler).
Proof.
  intros Hb Hh s. unfold try_except. destruct (Hb s) as (t1 & E1 & L1).
  destruct (body s) as [[x|e] s1]; simpl in *.
  - exists t1. split; [exact E1|lia].
  - destruct (Hh e s1) as (t2 & E2 & L2). exists (t1 ++ t2).
    rewrite E2, E1, app_assoc, count_app. split; [reflexivity|lia].
Qed.

Lemma within_le {A} (a b : nat) (m : IO A) :
  within p a m -> (a <= b)%nat -> within p b m.
Proof.
  intros H L s. destruct (H s) as (t & E & Ht). exists t. split; [exact E|lia].
Qed.

Lemma within_max_l {A} (a b : nat) (m : IO A) :
  within p a m -> within p (Nat.max a b) m.
Proof. intros H. apply (within_le a); [exact H|lia]. Qed.

Lemma within_max_r {A} (a b : nat) (m : IO A) :
  within p b m -> within p (Nat.max a b) m.
Proof. intros H. apply (within_le b); [exact H|lia]. Qed.

End Within.

Lemma within_get_only w u hdrs data allow timeout proxy :
  within is_post 0 (send w GET u hdrs data allow timeout proxy).
Proof. intros s. eexists. split; [reflexivity|]. unfold count. simpl. lia. Qed.

(** One step of a bound, read off the shape of the computation; a bound
    still to be found is filled in on the way. *)
Ltac within_step :=
  lazymatch goal with
  | |- within _ _ (ret _) => apply within_ret
  | |- within _ _ (emit _) => apply within_emit; reflexivity
  | |- within _ _ (gets _) => apply within_gets
  | |- within _ _ (headers_update _) => apply within_headers_update
  | |- within _ _ (modify _) => apply within_modify; reflexivity
  | |- within is_post _ (send _ GET _ _ _ _ _ _) => apply within_get_only
  | |- within _ _ (send _ _ _ _ _ _ _ _) => apply within_send
  | |- within _ _ (bind _ _) => eapply within_bind; [|intros]
  | |- within _ _ (try_except _ _) => eapply within_try; [|intros]
  | |- within _ _ (if ?c then _ else _) =>
      destruct c; [eapply within_max_l|eapply within_max_r]
  | |- within _ _ (match ?x with Some _ => _ | None => _ end) =>
      destruct x; [eapply within_max_l|eapply within_max_r]
  end.

Ltac within_tac := cbv zeta; unfold sleep, log, ui, unless; repeat within_step.

Lemma handshake_within_requests (w : world) (proxy : option (SDict.t string)) :
  within is_request 2 (handle_timezone_redirect w proxy).
Proof.
  eapply within_le.
  - unfold handle_timezone_redirect, get_local_timezone_offset. within_tac.
  - vm_compute. lia.
Qed.

Lemma handshake_within_posts (w : world) (proxy : option (SDict.t string)) :
  within is_post 1 (handle_timezone_redirect w proxy).
Proof.
  eapply within_le.
  - unfold handle_timezone_redirect, get_local_timezone_offset. within_tac.
  - vm_compute. lia.
Qed.

Ltac within_site :=
  cbv zeta; unfold sleep, log, ui, unless;
  repeat first [within_step
               | apply handshake_within_requests | apply handshake_within_posts].

Lemma scrape_within_requests w html_parser url proxy silent :
  within is_request 5 (scrape_bbo_hands w html_parser url proxy silent).
Proof.
  eapply within_le.
  - unfold scrape_bbo_hands. within_site.
  - vm_compute. lia.
Qed.

Lemma scrape_within_posts w html_parser url proxy silent :
  within is_post 1 (scrape_bbo_hands w html_parser url proxy silent).
Proof.
  eapply within_le.
  - unfold scrape_bbo_hands. within_site.
  - vm_compute. lia.
Qed.

(** Two bounds on what one call adds to the trace are bounds on the same
    events. *)
Lemma within_both {A} (p q : event -> bool) (a b : nat) (m : IO A) (s : io) :
  within p a m -> within q b m ->
  exists t, trace (snd (m s)) = trace s ++ t
            /\ (count p t <= a)%nat /\ (count q t <= b)%nat.
Proof.
  intros Hp Hq. destruct (Hp s) as (t & E & L). destruct (Hq s) as (t' & E' & L').
  rewrite E in E'. apply app_inv_head in E'. subst t'. eauto.
Qed.

(** X6: a fetch has no retry loop: whatever the site answers, one call of
    [scrape_bbo_hands] only adds to the trace, and adds at most five
    requests (the landing page, the data page, the two requests of one
    timezone handshake and the data page once more), at most one of them a
    POST. *)
Theorem scrape_sends_at_most_five_requests
    (w : world) (html_parser : string -> node) (url : string)
    (proxy : option (SDict.t string)) (silent : bool) (s : io) :
  exists t,
    trace (snd (scrape_bbo_hands w html_parser url proxy silent s)) = trace s ++ t
    /\ (count is_request t <= 5)%nat
    /\ (count is_post t <= 1)%nat.
Proof.
  apply within_both; [apply scrape_within_requests|apply scrape_within_posts].
Qed.

(** ** The login flow as a whole *)

Lemma collect_hidden_within (p : event -> bool) (inputs : list node)
    (hf : SDict.t (option string)) :
  (forall l msg, p (EvLog l msg) = false) -> within p 0 (collect_hidden inputs hf).
Proof.
  intros Hp. revert hf. induction inputs as [|input_field rest IH]; intros hf.
  - apply within_ret.
  - cbn [collect_hidden]. destruct (Soup.get input_field "name") as [n|]; [|apply IH].
    destruct (negb (String.eqb n EmptyString)); [|apply IH].
    apply (within_bind p 0 0); [apply within_emit, Hp|intros _; apply IH].
Qed.

Lemma discover_fields_within (p : event -> bool) (soup : node) :
  (forall l msg, p (EvLog l msg) = false) -> within p 0 (discover_fields soup).
Proof.
  intros Hp. unfold discover_fields. cbv zeta.
  apply (within_bind p 0 0).
  - destruct (Soup.find_attr soup "form" "method" "post");
      [apply collect_hidden_within, Hp|apply within_ret].
  - intros hf. apply (within_bind p 0 0).
    + destruct (negb (SDict.has "t" hf)); [|apply within_ret].
      apply (within_bind p 0 0); [apply within_emit, Hp|intros _; apply within_ret].
    + intros hf'. destruct (negb (SDict.has "count" hf')); [|apply within_ret].
      apply (within_bind p 0 0); [apply within_emit, Hp|intros _; apply within_ret].
Qed.

Ltac within_login :=
  cbv zeta; unfold sleep, log, ui, unless;
  repeat first [within_step
               | apply handshake_within_requests | apply handshake_within_posts].

Lemma submit_within_requests w py_repr username password proxy hidden_fields :
  within is_request 4 (submit_login_form w py_repr username password proxy hidden_fields).
Proof.
  eapply within_le.
  - unfold submit_login_form. within_login.
  - vm_compute. lia.
Qed.

Lemma submit_within_posts w py_repr username password proxy hidden_fields :
  within is_post 2 (submit_login_form w py_repr username password proxy hidden_fields).
Proof.
  eapply within_le.
  - unfold submit_login_form. within_login.
  - vm_compute. lia.
Qed.

Lemma login_within_requests w html_parser default_headers py_repr username
    password proxy :
  within is_request 6
    (login_to_bbo w html_parser default_headers py_repr username password proxy).
Proof.
  eapply within_le.
  - unfold login_to_bbo.
    cbv zeta; unfold sleep, log, ui;
      repeat first [within_step
                   | apply discover_fields_within; reflexivity
                   | apply submit_within_requests].
  - vm_compute. lia.
Qed.

Lemma login_within_posts w html_parser default_headers py_repr username
    password proxy :
  within is_post 2
    (login_to_bbo w html_parser default_headers py_repr username password proxy).
Proof.
  eapply within_le.
  - unfold login_to_bbo.
    cbv zeta; unfold sleep, log, ui;
      repeat first [within_step
                   | apply discover_fields_within; reflexivity
                   | apply submit_within_posts].
  - vm_compute. lia.
Qed.

(** X7: a login attempt never raises and is bounded: whatever the site
    does (answers or exceptions), [login_to_bbo] returns a session or
    [None], only adds to the trace, and sends at most six requests (home
    page, login page, the form, the two requests of one timezone handshake,
    the landing page), at most two of them POSTs. *)
Theorem login_returns_after_at_most_six_requests
    (w : world) (html_parser : string -> node) (default_headers : Headers.t)
    (py_repr : string -> string) (username password : string)
    (proxy : option (SDict.t string)) (s : io) :
  exists session t,
    fst (login_to_bbo w html_parser default_headers py_repr username password proxy s)
    = Ok session
    /\ trace (snd (login_to_bbo w html_parser default_headers py_repr username password
                     proxy s))
       = trace s ++ t
    /\ (count is_request t <= 6)%nat
    /\ (count is_post t <= 2)%nat.
Proof.
  destruct (within_both is_request is_post 6 2 _ s
              (login_within_requests w html_parser default_headers py_repr
                 username password proxy)
              (login_within_posts w html_parser default_headers py_repr
                 username password proxy)) as (t & E & L).
  assert (exists session,
             fst (login_to_bbo w html_parser default_headers py_repr username password
                    proxy s) = Ok session) as [session Hs].
  { unfold login_to_bbo, try_except.
    match goal with |- context [match ?b s with _ => _ end] => destruct (b s) as [[a|e] s1] end.
    - eauto.
    - eexists. reflexivity. }
  exists session, t. auto.
Qed.

(** [returns_only Q m]: whenever [m] returns a value, the value and the
    state it leaves satisfy [Q]. *)
Definition returns_only {A} (Q : A -> io -> Prop) (m : IO A) : Prop :=
  forall s a, fst (m s) = Ok a -> Q a (snd (m s)).

Lemma returns_only_bind {A B} (Q : B -> io -> Prop) (m : IO A) (k : A -> IO B) :
  (forall x, returns_only Q (k x)) -> returns_only Q (bind m k).
Proof.
  intros Hk s b. unfold bind. destruct (m s) as [[x|e] s1]; simpl.
  - apply Hk.
  - discriminate.
Qed.

Lemma returns_only_try {A} (Q : A -> io -> Prop) (body : IO A) (handler : exn -> IO A) :
  returns_only Q body -> (forall e, returns_only Q (handler e)) ->
  returns_only Q (try_except body handler).
Proof.
  intros Hb Hh s a. unfold try_except. specialize (Hb s).
  destruct (body s) as [[x|e] s1]; simpl in *.
  - apply Hb.
  - apply Hh.
Qed.

Definition landing_check_url : string := "https://www.bridgebase.com/myhands/index.php".

(** What a returned session has behind it: the last request was a GET of
    the landing page, sent with the headers that are returned, the answer
    held [logout.php], and the success message is the last thing shown. *)
Definition verified (w : world) (session : option Headers.t) (s' : io) : Prop :=
  forall h, session = Some h ->
    h = session_headers s'
    /\ exists pre rq resp,
         trace s' = pre ++ [EvRequest rq; EvUi st_success [ShStr "✅ Login successful!"]]
         /\ rq_method rq = GET
         /\ rq_url rq = landing_check_url
         /\ rq_session_headers rq = h
         /\ respond w pre rq = Ok resp
         /\ Str.contains "logout.php" (resp_text resp) = true.

Lemma returns_only_none (w : world) : returns_only (verified w) (ret None).
Proof. intros s a [= <-] h [=]. Qed.

Lemma landing_check_verified (w : world) (proxy : option (SDict.t string))
    (failed : IO (option Headers.t)) :
  returns_only (verified w) failed ->
  returns_only (verified w)
    (test_response <- send w GET landing_check_url None None None (Some 10) proxy ;;
     if Str.contains "logout.php" (resp_text test_response) then
       ui st_success [ShStr "✅ Login successful!"] ;;;
       session <- gets session_headers ;;
       ret (Some session)
     else failed).
Proof.
  intros Hf s a. rewrite bind_send. cbv zeta.
  destruct (respond w (trace s) _) as [resp|e] eqn:R; [|discriminate].
  destruct (Str.contains "logout.php" (resp_text resp)) eqn:C.
  - unfold ui. rewrite bind_emit. cbn. intros [= <-] h [= <-]. split; [reflexivity|].
    eexists (trace s), _, resp. rewrite <- app_assoc. cbn.
    split; [reflexivity|]. repeat split; [exact R|exact C].
  - apply Hf.
Qed.

Lemma submit_login_form_verified w py_repr username password proxy hidden_fields :
  returns_only (verified w)
    (submit_login_form w py_repr username password proxy hidden_fields).
Proof.
  unfold submit_login_form. cbv zeta.
  do 7 (apply returns_only_bind; intros).
  apply landing_check_verified.
  repeat (apply returns_only_bind; intros).
  apply returns_only_none.
Qed.

Lemma login_to_bbo_verified w html_parser default_headers py_repr username
    password proxy :
  returns_only (verified w)
    (login_to_bbo w html_parser default_headers py_repr username password proxy).
Proof.
  unfold login_to_bbo. cbv zeta. apply returns_only_try.
  - do 9 (apply returns_only_bind; intros). apply submit_login_form_verified.
  - intros e. apply returns_only_bind; intros. apply returns_only_none.
Qed.

(** X8: a session is handed back only after it has been checked: when
    [login_to_bbo] returns a session, the last request of the call was a
    GET of the landing page [index.php] sent with exactly the returned
    headers, the site answered it with a page that holds [logout.php], and
    the last thing shown is the success message.  The answer to the form
    POST alone never makes a login succeed. *)
Theorem login_session_was_checked
    (w : world) (html_parser : string -> node) (default_headers : Headers.t)
    (py_repr : string -> string) (username password : string)
    (proxy : option (SDict.t string)) (s : io)
    (h : Headers.t) :
  fst (login_to_bbo w html_parser default_headers py_repr username password proxy s)
  = Ok (Some h) ->
  h = session_headers
        (snd (login_to_bbo w html_parser default_headers py_repr username password proxy s))
  /\ exists pre rq resp,
       trace (snd (login_to_bbo w html_parser default_headers py_repr username password
                     proxy s))
       = pre ++ [EvRequest rq; EvUi st_success [ShStr "✅ Login successful!"]]
       /\ rq_method rq = GET
       /\ rq_url rq = "https://www.bridgebase.com/myhands/index.php"
       /\ rq_session_headers rq = h
       /\ respond w pre rq = Ok resp
       /\ Str.contains "logout.php" (resp_text resp) = true.
Proof.
  intros H.
  exact (login_to_bbo_verified w html_parser default_headers py_repr username password
           proxy s (Some h) H h eq_refl).
Qed.

Lemma login_session_was_checked_witness :
  exists h,
    fst (login_to_bbo (fixed_world 0 login_site) login_parser ∅ Builtin.repr "alice" "secret"
           None start)
    = Ok (Some h)
    /\ h = session_headers
             (snd (login_to_bbo (fixed_world 0 login_site) login_parser ∅ Builtin.repr
                     "alice" "secret" None start))
    /\ exists pre rq resp,
         trace (snd (login_to_bbo (fixed_world 0 login_site) login_parser ∅ Builtin.repr
                       "alice" "secret" None start))
         = pre ++ [EvRequest rq; EvUi st_success [ShStr "✅ Login successful!"]]
         /\ rq_method rq = GET
         /\ rq_url rq = "https://www.bridgebase.com/myhands/index.php"
         /\ rq_session_headers rq = h
         /\ respond (fixed_world 0 login_site) pre rq = Ok resp
         /\ Str.contains "logout.php" (resp_text resp) = true.
Proof.
  assert (Hc : match fst (login_to_bbo (fixed_world 0 login_site) login_parser ∅ Builtin.repr
                            "alice" "secret" None start) with
               | Ok (Some _) => true
               | _ => false
               end = true) by (vm_compute; reflexivity).
  destruct (fst (login_to_bbo (fixed_world 0 login_site) login_parser ∅ Builtin.repr "alice"
                   "secret" None start)) as [[h|]|e] eqn:E; try discriminate Hc.
  exists h. split; [reflexivity|].
  exact (login_session_was_checked (fixed_world 0 login_site) login_parser ∅ Builtin.repr
           "alice" "secret" None start h E).
Defined.

(** ** What [silent] changes *)

Definition is_ui (e : event) : bool :=
  match e with
  | EvUi _ _ => true
  | _ => false
  end.

(** A trace without what was shown: the requests, the pauses and the log. *)
Definition without_ui (t : list event) : list event :=
  List.filter (fun e => negb (is_ui e)) t.

(** The site and the clock do not see what the page shows. *)
Definition display_free (w : world) : Prop :=
  forall t t', without_ui t = without_ui t' ->
    respond w t = respond w t' /\ local_utcoffset w t = local_utcoffset w t'.

(** Two states that differ at most in what was shown. *)
Definition alike (s1 s2 : io) : Prop :=
  session_headers s1 = session_headers s2
  /\ without_ui (trace s1) = without_ui (trace s2).

(** Two computations that, from states alike, give the same result and
    leave states alike. *)
Definition sim {A} (m1 m2 : IO A) : Prop :=
  forall s1 s2, alike s1 s2 ->
    fst (m1 s1) = fst (m2 s2) /\ alike (snd (m1 s1)) (snd (m2 s2)).

(** A computation that only shows something. *)
Definition shows_only (m : IO unit) : Prop :=
  forall s, fst (m s) = Ok tt /\ alike (snd (m s)) s.

Lemma without_ui_app (a b : list event) :
  without_ui (a ++ b) = without_ui a ++ without_ui b.
Proof. apply List.filter_app. Qed.

Lemma alike_refl (s : io) : alike s s.
Proof. split; reflexivity. Qed.

Lemma alike_trans (s1 s2 s3 : io) : alike s1 s2 -> alike s2 s3 -> alike s1 s3.
Proof. intros [H1 H2] [H3 H4]. split; congruence. Qed.

Lemma alike_sym (s1 s2 : io) : alike s1 s2 -> alike s2 s1.
Proof. intros [H1 H2]. split; congruence. Qed.

Lemma shows_only_ui (wd : widget) (args : list shown) : shows_only (ui wd args).
Proof.
  intros s. split; [reflexivity|]. split; [reflexivity|].
  cbn. rewrite without_ui_app. cbn. apply app_nil_r.
Qed.

Lemma shows_only_bind (m k : IO unit) :
  shows_only m -> shows_only k -> shows_only (m ;;; k).
Proof.
  intros Hm Hk s. unfold bind. destruct (Hm s) as [E A1].
  destruct (m s) as [[[]|e] s1]; simpl in *; [|discriminate].
  destruct (Hk s1) as [E2 A2]. split; [exact E2|].
  exact (alike_trans _ _ _ A2 A1).
Qed.

Lemma sim_ret {A} (a : A) : sim (ret a) (ret a).
Proof. intros s1 s2 H. split; [reflexivity|exact H]. Qed.

Lemma sim_emit (e : event) : sim (emit e) (emit e).
Proof.
  intros s1 s2 [H1 H2]. split; [reflexivity|]. split; [exact H1|].
  cbn. rewrite !without_ui_app, H2. reflexivity.
Qed.

Lemma sim_headers_update (h : SDict.t string) :
  sim (headers_update h) (headers_update h).
Proof.
  intros s1 s2 [H1 H2]. split; [reflexivity|]. split; [|exact H2].
  cbn. rewrite H1. reflexivity.
Qed.

Lemma sim_unless (b b' : bool) (m : IO unit) :
  shows_only m -> sim (unless b m) (unless b' m).
Proof.
  intros Hm s1 s2 H. unfold unless.
  destruct (Hm s1) as [E1 A1]. destruct (Hm s2) as [E2 A2].
  destruct b, b'; simpl.
  - split; [reflexivity|exact H].
  - rewrite E2. split; [reflexivity|].
    exact (alike_trans _ _ _ H (alike_sym _ _ A2)).
  - rewrite E1. split; [reflexivity|]. exact (alike_trans _ _ _ A1 H).
  - rewrite E1, E2. split; [reflexivity|].
    exact (alike_trans _ _ _ A1 (alike_trans _ _ _ H (alike_sym _ _ A2))).
Qed.

Lemma sim_bind {A B} (m1 m2 : IO A) (k1 k2 : A -> IO B) :
  sim m1 m2 -> (forall x, sim (k1 x) (k2 x)) -> sim (bind m1 k1) (bind m2 k2).
Proof.
  intros Hm Hk s1 s2 H. unfold bind. destruct (Hm s1 s2 H) as [E A1].
  destruct (m1 s1) as [[x|e] s1'], (m2 s2) as [[y|e'] s2']; simpl in *;
    try discriminate.
  - injection E as <-. apply Hk, A1.
  - injection E as <-. split; [reflexivity|exact A1].
Qed.

Lemma sim_try {A} (b1 b2 : IO A) (h1 h2 : exn -> IO A) :
  sim b1 b2 -> (forall e, sim (h1 e) (h2 e)) ->
  sim (try_except b1 h1) (try_except b2 h2).
Proof.
  intros Hb Hh s1 s2 H. unfold try_except. destruct (Hb s1 s2 H) as [E A1].
  destruct (b1 s1) as [[x|e] s1'], (b2 s2) as [[y|e'] s2']; simpl in *;
    try discriminate.
  - split; [exact E|exact A1].
  - injection E as <-. apply Hh, A1.
Qed.

Section DisplayFree.

Variable w : world.
Hypothesis Hw : display_free w.

Lemma sim_send m u hdrs data allow timeout proxy :
  sim (send w m u hdrs data allow timeout proxy)
      (send w m u hdrs data allow timeout proxy).
Proof.
  intros s1 s2 [H1 H2]. unfold send. cbn. rewrite H1.
  destruct (Hw _ _ H2) as [-> _]. split; [reflexivity|]. split; [reflexivity|].
  cbn. rewrite !without_ui_app, H2. reflexivity.
Qed.

Lemma sim_offset :
  sim (get_local_timezone_offset w) (get_local_timezone_offset w).
Proof.
  intros s1 s2 H. unfold get_local_timezone_offset, bind, gets, ret. cbn.
  destruct (Hw _ _ (proj2 H)) as [_ ->]. split; [reflexivity|exact H].
Qed.

Ltac sim_step :=
  lazymatch goal with
  | |- sim (ret _) (ret _) => apply sim_ret
  | |- sim (emit _) (emit _) => apply sim_emit
  | |- sim (headers_update _) (headers_update _) => apply sim_headers_update
  | |- sim (unless _ _) (unless _ _) =>
      apply sim_unless; repeat first [apply shows_only_ui | apply shows_only_bind]
  | |- sim (send _ _ _ _ _ _ _ _) (send _ _ _ _ _ _ _ _) => apply sim_send
  | |- sim (get_local_timezone_offset _) (get_local_timezone_offset _) =>
      apply sim_offset
  | |- sim (bind _ _) (bind _ _) => apply sim_bind; [|intros]
  | |- sim (try_except _ _) (try_except _ _) => apply sim_try; [|intros]
  | |- sim (if ?c then _ else _) (if ?c then _ else _) => destruct c
  | |- sim (match ?x with Some _ => _ | None => _ end)
           (match ?x with Some _ => _ | None => _ end) => destruct x
  end.

Lemma handshake_sim (proxy : option (SDict.t string)) :
  sim (handle_timezone_redirect w proxy) (handle_timezone_redirect w proxy).
Proof.
  unfold handle_timezone_redirect. cbv zeta. unfold sleep, log.
  repeat sim_step.
Qed.

Lemma scrape_sim html_parser url proxy (silent silent' : bool) :
  sim (scrape_bbo_hands w html_parser url proxy silent)
      (scrape_bbo_hands w html_parser url proxy silent').
Proof.
  unfold scrape_bbo_hands. cbv zeta. unfold sleep, log.
  repeat first [sim_step | apply handshake_sim | apply sim_emit].
Qed.

End DisplayFree.

(** X9: [silent] changes only what is shown.  For a site and a clock that
    do not depend on what the page displays, a fetch with [silent] set and
    the same fetch without it return the same value, leave the same
    session headers, and send the same requests, pause and log alike: the
    two traces are equal once the widget calls are taken out. *)
Theorem silent_changes_only_what_is_shown
    (w : world) (html_parser : string -> node) (url : string)
    (proxy : option (SDict.t string)) (s : io) :
  display_free w ->
  fst (scrape_bbo_hands w html_parser url proxy true s)
  = fst (scrape_bbo_hands w html_parser url proxy false s)
  /\ session_headers (snd (scrape_bbo_hands w html_parser url proxy true s))
     = session_headers (snd (scrape_bbo_hands w html_parser url proxy false s))
  /\ without_ui (trace (snd (scrape_bbo_hands w html_parser url proxy true s)))
     = without_ui (trace (snd (scrape_bbo_hands w html_parser url proxy false s))).
Proof.
  intros Hw.
  destruct (scrape_sim w Hw html_parser url proxy true false s s (alike_refl s))
    as (E & H1 & H2).
  auto.
Qed.

Lemma fixed_world_display_free (offset_seconds : Z)
    (answer : Request -> result Response) :
  display_free (fixed_world offset_seconds answer).
Proof. intros t t' _. split; reflexivity. Qed.

Lemma silent_changes_only_what_is_shown_witness :
  fst (scrape_bbo_hands (fixed_world 0 (serves maintenance_text)) example_parser
         hands_url None true start)
  = fst (scrape_bbo_hands (fixed_world 0 (serves maintenance_text)) example_parser
           hands_url None false start)
  /\ session_headers
       (snd (scrape_bbo_hands (fixed_world 0 (serves maintenance_text))
               example_parser hands_url None true start))
     = session_headers
         (snd (scrape_bbo_hands (fixed_world 0 (serves maintenance_text))
                 example_parser hands_url None false start))
  /\ without_ui
       (trace (snd (scrape_bbo_hands (fixed_world 0 (serves maintenance_text))
                      example_parser hands_url None true start)))
     = without_ui
         (trace (snd (scrape_bbo_hands (fixed_world 0 (serves maintenance_text))
                        example_parser hands_url None false start))).
Proof.
  apply silent_changes_only_what_is_shown, fixed_world_display_free.
Defined.

(** ** A fetch that meets the JavaScript page *)

(** X10: after the handshake the data page is fetched once more and taken
    as it comes.  When the first data page asks for JavaScript, the fetch
    runs the handshake, pauses and sends the data request again (without
    [allow_redirects], with the headers the handshake has put on the
    session); if that request is answered with a page without the no-hands
    marker, the result is read off this page alone: its table when
    [locate_table] finds one, [(None, None)] otherwise.  Neither what the
    handshake returned nor the URL of the second answer nor a JavaScript
    marker in it is looked at, and the session keeps the headers of the
    handshake. *)
Theorem scrape_retry_is_taken_as_it_comes
    (w : world) (html_parser : string -> node) (url : string)
    (proxy : option (SDict.t string)) (silent : bool) (s : io)
    (refresh_resp response response2 : Response) :
  respond w (trace s) (precheck_request (session_headers s) proxy) = Ok refresh_resp ->
  Str.contains "login.php" (resp_url refresh_resp) = false ->
  respond w (data_trace s url proxy silent)
    (data_request (session_headers s) url proxy) = Ok response ->
  Str.contains "login.php" (resp_url response) = false ->
  Str.contains "Javascript support is needed" (resp_text response) = true ->
  respond w (retry_trace w s url proxy silent)
    (retry_request (handshake_headers (session_headers s)) url proxy) = Ok response2 ->
  Str.contains "You have no saved hands" (resp_text response2) = false ->
  scrape_bbo_hands w html_parser url proxy silent s
  = match locate_table (html_parser (resp_text response2)) with
    | Some table =>
        (Ok (Some (html_parser (resp_text response2)), Some table),
         {| session_headers := handshake_headers (session_headers s);
            trace := retry_trace w s url proxy silent
                     ++ [EvRequest (retry_request (handshake_headers (session_headers s))
                                      url proxy)] |})
    | None =>
        (Ok (None, None),
         {| session_headers := handshake_headers (session_headers s);
            trace := retry_trace w s url proxy silent
                     ++ EvRequest (retry_request (handshake_headers (session_headers s))
                                     url proxy)
                     :: no_table_events silent response2 |})
    end.
Proof.
  intros H1 H2 H3 H4 H5 H6 H7.
  destruct (handshake_returns w proxy (handshake_start s url proxy silent))
    as (b & rest & Hhs).
  unfold retry_trace in *. rewrite Hhs in *. cbn [snd trace] in *.
  unfold scrape_bbo_hands.
  set (hs := handle_timezone_redirect w proxy) in *. clearbody hs.
  unfold handshake_start, data_trace in *.
  unfold try_except, bind, unless, sleep, log, ui, emit, modify, send, ret; simpl.
  rewrite_respond H1. rewrite H2. simpl.
  destruct silent; simpl in *; rewrite <- ?app_assoc in *; simpl in *;
    rewrite_respond H3; rewrite H4, H5; simpl; rewrite <- ?app_assoc; simpl;
    (match type of Hhs with
     | hs ?st0 = _ =>
         match goal with
         | |- context [hs ?st] => change (hs st) with (hs st0)
         end
     end);
    rewrite Hhs; simpl; rewrite <- ?app_assoc; simpl;
    rewrite_respond H6; rewrite H7;
    (destruct (locate_table (html_parser (resp_text response2)));
     unfold no_table_events; simpl;
     repeat (progress (rewrite <- ?app_assoc; simpl)); reflexivity).
Qed.

(** A site that refuses every POST, asks for JavaScript at the first data
    request and answers the second one, from the address of its login
    page, with the hands. *)
Definition second_answer : Response :=
  {| resp_url := resp_url login_redirect;
     resp_text := hands_text;
     resp_status_code := 200 |}.

Definition stubborn_site (rq : Request) : result Response :=
  match rq_method rq with
  | POST => Raise (Exn "ConnectionError" "connection refused")
  | GET =>
      if String.eqb (rq_url rq) landing_url then Ok landing_page
      else match rq_allow_redirects rq with
           | Some _ => Ok (javascript_page (rq_url rq))
           | None => Ok second_answer
           end
  end.

Lemma scrape_retry_is_taken_as_it_comes_witness :
  fst (scrape_bbo_hands (fixed_world 0 stubborn_site) example_parser hands_url None
         true start)
  = Ok (Some both_tables, Some hands_table)
  /\ fst (handle_timezone_redirect (fixed_world 0 stubborn_site) None
            (handshake_start start hands_url None true))
     = Ok false
  /\ Str.contains "login.php" (resp_url second_answer) = true.
Proof.
  split; [|split; reflexivity].
  rewrite (scrape_retry_is_taken_as_it_comes (fixed_world 0 stubborn_site)
             example_parser hands_url None true start landing_page
             (javascript_page hands_url) second_answer
             eq_refl eq_refl eq_refl eq_refl eq_refl eq_refl eq_refl).
  reflexivity.
Defined.

(** ** Requests that fail *)

(** X11: a fetch whose first request raises stops there.  The exception
    is caught, its message is logged as a scraping error and, unless
    [silent], shown; the fetch returns the pair of two [None], the same
    value as for a player without hands, and the data page is not
    requested. *)
Theorem scrape_reports_a_failed_request
    (w : world) (html_parser : string -> node) (url : string)
    (proxy : option (SDict.t string)) (silent : bool) (s : io) (e : exn) :
  respond w (trace s) (precheck_request (session_headers s) proxy) = Raise e ->
  scrape_bbo_hands w html_parser url proxy silent s
  = (Ok (None, None),
     {| session_headers := session_headers s;
        trace := trace s
                 ++ [EvRequest (precheck_request (session_headers s) proxy);
                     EvLog ERROR ("Scraping error: " +:+ exn_msg e)]
                 ++ (if silent then []
                     else [EvUi st_error
                             [ShStr ("Error retrieving data: " +:+ exn_msg e)]]) |}).
Proof.
  intros H.
  unfold scrape_bbo_hands, try_except, bind, unless, sleep, log, ui, emit, modify,
    send, ret; simpl.
  rewrite_respond H.
  destruct silent; simpl; rewrite <- ?app_assoc; reflexivity.
Qed.

(** A site that cannot be reached. *)
Definition unreachable_site (rq : Request) : result Response :=
  Raise (Exn "ConnectionError" "Max retries exceeded").

Lemma scrape_reports_a_failed_request_witness :
  scrape_bbo_hands (fixed_world 0 unreachable_site) example_parser hands_url None
    false start
  = (Ok (None, None),
     {| session_headers := ∅;
        trace := [EvRequest (precheck_request ∅ None);
                  EvLog ERROR "Scraping error: Max retries exceeded";
                  EvUi st_error [ShStr "Error retrieving data: Max retries exceeded"]] |}).
Proof.
  exact (scrape_reports_a_failed_request (fixed_world 0 unreachable_site)
           example_parser hands_url None false start
           (Exn "ConnectionError" "Max retries exceeded") eq_refl).
Defined.

(** X12: a login whose first request raises stops there.  The new
    session has its browser headers, the home page is the one request
    made, the exception is caught and its message shown as a login error,
    and the login returns [None]: no login page is loaded and no
    credentials are sent. *)
Theorem login_reports_a_failed_request
    (w : world) (html_parser : string -> node) (default_headers : Headers.t)
    (py_repr : string -> string) (username password : string)
    (proxy : option (SDict.t string)) (s : io)
    (e : exn) :
  respond w (home_trace s) (home_request default_headers proxy) = Raise e ->
  login_to_bbo w html_parser default_headers py_repr username password proxy s
  = (Ok None,
     {| session_headers := login_headers default_headers;
        trace := home_trace s
                 ++ [EvRequest (home_request default_headers proxy);
                     EvUi st_error [ShStr ("🚨 Login error: " +:+ exn_msg e)]] |}).
Proof.
  intros H. unfold login_to_bbo, try_except. cbv zeta.
  unfold ui, headers_update. repeat io_step.
  rewrite bind_send. cbv zeta. cbn [trace session_headers].
  rewrite_respond H. unfold bind, emit, modify, ret. cbn [trace session_headers].
  unfold home_trace. rewrite <- ?app_assoc. reflexivity.
Qed.

Lemma login_reports_a_failed_request_witness :
  fst (login_to_bbo (fixed_world 0 unreachable_site) login_parser ∅ Builtin.repr "alice" "secret"
         None start)
  = Ok None
  /\ trace (snd (login_to_bbo (fixed_world 0 unreachable_site) login_parser ∅ Builtin.repr
                   "alice" "secret" None start))
     = [EvUi st_info [ShStr "🔄 Initializing session..."];
        EvRequest (home_request ∅ None);
        EvUi st_error [ShStr "🚨 Login error: Max retries exceeded"]].
Proof.
  rewrite (login_reports_a_failed_request (fixed_world 0 unreachable_site)
             login_parser ∅ Builtin.repr "alice" "secret" None start
             (Exn "ConnectionError" "Max retries exceeded") eq_refl).
  split; reflexivity.
Defined.

(** ** What a silent fetch still shows *)

(** The two session-expiry errors. *)
Definition expiry_notice (wd : widget) (args : list shown) : bool :=
  match wd, args with
  | st_error, [ShStr msg] =>
      String.eqb msg "Session has expired. Please login again."
      || String.eqb msg "Session expired during data retrieval"
  | _, _ => false
  end.

(** Something shown that is no expiry error. *)
Definition other_display (e : event) : bool :=
  match e with
  | EvUi wd args => negb (expiry_notice wd args)
  | _ => false
  end.

Lemma within_quiet_send (p : event -> bool) w m u hdrs data allow timeout proxy :
  (forall r, p (EvRequest r) = false) ->
  within p 0 (send w m u hdrs data allow timeout proxy).
Proof.
  intros H s. eexists. split; [reflexivity|]. unfold count. cbn. rewrite H.
  apply Nat.le_0_l.
Qed.

Ltac quiet_step :=
  first [apply within_quiet_send; reflexivity | within_step].

Lemma handshake_shows_nothing (w : world) (proxy : option (SDict.t string)) :
  within other_display 0 (handle_timezone_redirect w proxy).
Proof.
  eapply within_le.
  - unfold handle_timezone_redirect, get_local_timezone_offset.
    cbv zeta. unfold sleep, log, ui. repeat quiet_step.
  - vm_compute. lia.
Qed.

Lemma silent_scrape_shows_no_other (w : world) html_parser url proxy :
  within other_display 0 (scrape_bbo_hands w html_parser url proxy true).
Proof.
  eapply within_le.
  - unfold scrape_bbo_hands.
    cbv beta iota zeta delta [unless negb]. unfold sleep, log, ui.
    repeat first [quiet_step | apply handshake_shows_nothing].
  - vm_compute. lia.
Qed.

Lemma count_none (p : event -> bool) (t : list event) :
  (count p t <= 0)%nat -> forall e, e ∈ t -> p e = false.
Proof.
  unfold count. induction t as [|x t IH]; intros H e He.
  - elem_cases He.
  - cbn in H. destruct (p x) eqn:Hx; [cbn in H; lia|].
    apply elem_of_cons in He as [->|He]; [exact Hx|exact (IH H e He)].
Qed.

(** X13: a silent fetch shows nothing but a session-expiry error.
    Whatever the site answers, everything a fetch with [silent] set hands
    to a widget is [st.error] with one of the two session-expiry messages;
    its progress, its JavaScript warning, the raw response and the message
    of a caught exception are not shown. *)
Theorem silent_fetch_shows_only_expiry
    (w : world) (html_parser : string -> node) (url : string)
    (proxy : option (SDict.t string)) (s : io) :
  exists t,
    trace (snd (scrape_bbo_hands w html_parser url proxy true s)) = trace s ++ t
    /\ forall wd args, EvUi wd args ∈ t ->
         wd = st_error
         /\ (args = [ShStr "Session has expired. Please login again."]
             \/ args = [ShStr "Session expired during data retrieval"]).
Proof.
  destruct (silent_scrape_shows_no_other w html_parser url proxy s) as (t & E & L).
  exists t. split; [exact E|]. intros wd args Hin.
  pose proof (count_none _ _ L _ Hin) as H. cbn in H.
  apply negb_false_iff in H. unfold expiry_notice in H.
  destruct wd; try discriminate H.
  destruct args as [|[msg| |] [|? ?]]; try discriminate H.
  split; [reflexivity|].
  apply orb_true_iff in H as [H|H]; apply String.eqb_eq in H; subst; auto.
Qed.

(** ** How a login ends without a session *)

Lemma within_extends {A} (p : event -> bool) (n : nat) (m : IO A) :
  within p n m -> extends m.
Proof. intros H s. destruct (H s) as (t & E & _). exists t. exact E. Qed.

(** [adds_when P m]: [m] only adds to the trace, and when it returns [a]
    from a trace [tr], what it has added satisfies [P tr a]. *)
Definition adds_when {A} (P : list event -> A -> list event -> Prop) (m : IO A)
  : Prop :=
  forall s, exists t,
    trace (snd (m s)) = trace s ++ t
    /\ forall a, fst (m s) = Ok a -> P (trace s) a t.

(** A property of the added events that earlier events do not undo. *)
Definition grows {A} (P : list event -> A -> list event -> Prop) : Prop :=
  forall tr a t1 t2, P (tr ++ t1) a t2 -> P tr a (t1 ++ t2).

Lemma adds_bind {A B} (P : list event -> B -> list event -> Prop)
    (m : IO A) (k : A -> IO B) :
  grows P -> extends m -> (forall x, adds_when P (k x)) -> adds_when P (bind m k).
Proof.
  intros HP Hm Hk s. unfold bind. destruct (Hm s) as [t1 E1].
  destruct (m s) as [[x|e] s1]; simpl in *.
  - destruct (Hk x s1) as (t2 & E2 & H2). exists (t1 ++ t2).
    rewrite E2, E1, app_assoc. split; [reflexivity|].
    intros a Ha. apply HP. rewrite <- E1. apply H2, Ha.
  - exists t1. split; [exact E1|discriminate].
Qed.

Lemma adds_try {A} (P : list event -> A -> list event -> Prop)
    (body : IO A) (handler : exn -> IO A) :
  grows P -> adds_when P body -> (forall e, adds_when P (handler e)) ->
  adds_when P (try_except body handler).
Proof.
  intros HP Hb Hh s. unfold try_except. destruct (Hb s) as (t1 & E1 & H1).
  destruct (body s) as [[x|e] s1]; simpl in *.
  - exists t1. split; [exact E1|exact H1].
  - destruct (Hh e s1) as (t2 & E2 & H2). exists (t1 ++ t2).
    rewrite E2, E1, app_assoc. split; [reflexivity|].
    intros a Ha. apply HP. rewrite <- E1. apply H2, Ha.
Qed.

Lemma adds_ret {A} (P : list event -> A -> list event -> Prop) (a : A) :
  (forall tr, P tr a []) -> adds_when P (ret a).
Proof.
  intros H s. exists []. cbn. rewrite app_nil_r. split; [reflexivity|].
  intros a' [= <-]. apply H.
Qed.

(** Once an event is on the trace, it stays there. *)
Lemma adds_emit_then {A} (P : list event -> A -> list event -> Prop)
    (e : event) (k : IO A) :
  (forall tr a t, e ∈ t -> P tr a t) -> extends k -> adds_when P (emit e ;;; k).
Proof.
  intros HP Hk s. rewrite bind_emit.
  destruct (Hk {| session_headers := session_headers s; trace := trace s ++ [e] |})
    as [t E].
  exists (e :: t). rewrite E. cbn. rewrite <- app_assoc. split; [reflexivity|].
  intros a _. apply HP. left.
Qed.

(** The last thing shown is the login error. *)
Definition reports_error (t : list event) : Prop :=
  exists pre msg, t = pre ++ [EvUi st_error [ShStr ("🚨 Login error: " +:+ msg)]].

(** The form data [d] have been shown. *)
Definition form_shown (d : SDict.t (option string)) (t : list event) : Prop :=
  EvUi st_write [ShStr "Form Data Submitted:"; ShForm d] ∈ t.

(** The form data [d] have been posted to the login handler. *)
Definition form_posted (d : SDict.t (option string)) (t : list event) : Prop :=
  exists rq, EvRequest rq ∈ t
             /\ rq_method rq = POST
             /\ rq_url rq = login_page_url
             /\ rq_data rq = Some d.

Ltac extends_by_bound :=
  eapply (within_extends is_request);
  cbv zeta; unfold sleep, log, ui, unless;
  repeat first [within_step
               | apply handshake_within_requests
               | apply discover_fields_within; reflexivity].

Lemma form_shown_grows (d : SDict.t (option string)) :
  grows (fun _ (o : option Headers.t) t => o = None -> form_shown d t).
Proof. intros tr o t1 t2 H Ho. apply elem_of_app. right. exact (H Ho). Qed.

Lemma form_posted_shown_grows (d : SDict.t (option string)) :
  grows (fun _ (o : option Headers.t) t =>
           o = None -> form_posted d t /\ form_shown d t).
Proof.
  intros tr o t1 t2 H Ho. destruct (H Ho) as [(rq & Hin & Hrq) Hs]. split.
  - exists rq. split; [apply elem_of_app; right; exact Hin|exact Hrq].
  - apply elem_of_app. right. exact Hs.
Qed.

(** After the POST of the form: a [None] comes with the form data on the
    page. *)
Lemma after_post_outcome (w : world) (proxy : option (SDict.t string))
    (d : SDict.t (option string)) (login_response : Response) :
  adds_when (fun _ o t => o = None -> form_shown d t)
    ((if Str.contains "Javascript support is needed for this page"
                      (resp_text login_response) then
        ui st_info [ShStr "🕒 Handling timezone redirect..."] ;;;
        timezone_handled <- handle_timezone_redirect w proxy ;;
        if negb timezone_handled then
          ui st_warning [ShStr "⚠️ Timezone handling unsuccessful, but continuing..."]
        else ret tt
      else ret tt) ;;;
     test_response <-
       send w GET "https://www.bridgebase.com/myhands/index.php" None None None
         (Some 10) proxy ;;
     if Str.contains "logout.php" (resp_text test_response) then
       ui st_success [ShStr "✅ Login successful!"] ;;;
       session <- gets session_headers ;;
       ret (Some session)
     else
       ui st_expander [ShStr "🔍 Login Failure Analysis"] ;;;
       ui st_write [ShStr "Status Code:"; ShInt (resp_status_code login_response)] ;;;
       ui st_write [ShStr "Final URL:"; ShStr (resp_url login_response)] ;;;
       ui st_write [ShStr "Response Length:";
                    ShInt (Z.of_nat (Str.len (resp_text login_response)))] ;;;
       ui st_write [ShStr "Form Data Submitted:"; ShForm d] ;;;
       (if Str.contains "Javascript support is needed" (resp_text login_response) then
          ui st_error [ShStr "JavaScript required - session creation incomplete"] ;;;
          ui st_info [ShStr "Consider using Manual Cookies method instead"]
        else if Str.suffix "myhands_login.php" (resp_url login_response) then
          ui st_error [ShStr "Login failed - credentials rejected or form not submitted"]
        else if Str.contains "Invalid username or password" (resp_text login_response) then
          ui st_error [ShStr "BBO rejected the credentials"]
        else ret tt) ;;;
       ui st_text [ShStr "Response snippet:"] ;;;
       ui st_code [ShStr (Str.take 1000 (resp_text login_response))] ;;;
       ret None).
Proof.
  do 2 (apply adds_bind; [apply form_shown_grows|extends_by_bound|intros]).
  match goal with |- adds_when _ (if ?c then _ else _) => destruct c end.
  - do 2 (apply adds_bind; [apply form_shown_grows|extends_by_bound|intros]).
    apply adds_ret. discriminate.
  - do 4 (apply adds_bind; [apply form_shown_grows|extends_by_bound|intros]).
    apply adds_emit_then.
    + intros tr a t Hin _. exact Hin.
    + extends_by_bound.
Qed.

(** Step 3 of the login: a [None] comes with the form data posted and
    shown, and these are the credentials updated with the hidden fields
    it was given. *)
Lemma submit_login_form_outcome w py_repr username password proxy hidden_fields :
  adds_when
    (fun _ o t =>
       o = None ->
       form_posted (SDict.update (credentials username password) hidden_fields) t
       /\ form_shown (SDict.update (credentials username password) hidden_fields) t)
    (submit_login_form w py_repr username password proxy hidden_fields).
Proof.
  unfold submit_login_form. cbv zeta.
  do 5 (apply adds_bind; [apply form_posted_shown_grows|extends_by_bound|intros]).
  intros s. rewrite bind_send. cbv zeta.
  destruct (respond w (trace s) _) as [login_response|e].
  - match goal with
    | |- context [snd (?k ?st)] =>
        destruct (after_post_outcome w proxy
                    (SDict.update (credentials username password) hidden_fields)
                    login_response st) as (t2 & E2 & H2)
    end.
    eexists (_ :: t2). split.
    + etransitivity; [exact E2|]. cbn [trace]. rewrite <- app_assoc. reflexivity.
    + intros a Ha Hn. split.
      * eexists. split; [left|]. repeat split.
      * right. exact (H2 a Ha Hn).
  - eexists [_]. split; [reflexivity|]. discriminate.
Qed.

(** How the login has failed: with the error of a caught exception shown
    last; or the login page was fetched, and then the form data were
    posted and shown, these being the credentials updated with the hidden
    fields of that very page. *)
Definition login_failure (w : world) (html_parser : string -> node)
    (username password : string) (tr : list event) (t : list event) : Prop :=
  reports_error t
  \/ exists pre page_rq page_resp post,
       t = pre ++ EvRequest page_rq :: post
       /\ rq_method page_rq = GET
       /\ rq_url page_rq = login_page_url
       /\ respond w (tr ++ pre) page_rq = Ok page_resp
       /\ form_posted
            (login_data username password (html_parser (resp_text page_resp))) post
       /\ form_shown
            (login_data username password (html_parser (resp_text page_resp))) post.

Lemma login_failure_grows w html_parser username password :
  grows (fun tr (o : option Headers.t) t =>
           o = None -> login_failure w html_parser username password tr t).
Proof.
  intros tr o t1 t2 H Ho.
  destruct (H Ho) as [(pre & msg & ->)|(pre & rq & resp & post & -> & H')].
  - left. exists (t1 ++ pre), msg. rewrite app_assoc. reflexivity.
  - right. exists (t1 ++ pre), rq, resp, post.
    rewrite <- !app_assoc. rewrite <- app_assoc in H'.
    split; [reflexivity|exact H'].
Qed.

(** From the GET of the login page on. *)
Lemma from_login_page_outcome w html_parser py_repr username password proxy :
  adds_when
    (fun tr o t => o = None -> login_failure w html_parser username password tr t)
    (login_page_response <- send w GET login_page_url None None None (Some 10) proxy ;;
     let soup := html_parser (resp_text login_page_response) in
     hidden_fields <- discover_fields soup ;;
     submit_login_form w py_repr username password proxy hidden_fields).
Proof.
  intros s. rewrite bind_send. cbv zeta.
  destruct (respond w (trace s) _) as [r|e] eqn:R.
  - match goal with
    | |- context [snd (bind (discover_fields ?soup) ?k ?st)] =>
        destruct (bind_logs_only (discover_fields soup) (form_fields soup) k st
                    (discover_fields_logs soup)) as [logs E];
        rewrite E; clear E
    end.
    match goal with
    | |- context [snd (submit_login_form _ _ _ _ _ ?hf ?st)] =>
        destruct (submit_login_form_outcome w py_repr username password proxy hf st)
          as (t2 & E2 & H2)
    end.
    eexists (_ :: logs ++ t2). split.
    + etransitivity; [exact E2|]. cbn [trace]. rewrite <- !app_assoc. reflexivity.
    + intros a Ha Hn. right. destruct (H2 a Ha Hn) as [(rq & Hin & Hrq) Hs].
      eexists [], _, r, (logs ++ t2). split; [reflexivity|].
      split; [reflexivity|]. split; [reflexivity|].
      split; [rewrite app_nil_r; exact R|]. split.
      * exists rq. split; [apply elem_of_app; right; exact Hin|exact Hrq].
      * apply elem_of_app. right. exact Hs.
  - eexists [_]. split; [reflexivity|]. discriminate.
Qed.

Lemma login_to_bbo_outcome w html_parser default_headers py_repr username
    password proxy :
  adds_when
    (fun tr o t => o = None -> login_failure w html_parser username password tr t)
    (login_to_bbo w html_parser default_headers py_repr username password proxy).
Proof.
  unfold login_to_bbo. cbv zeta. apply adds_try.
  - apply login_failure_grows.
  - do 7 (apply adds_bind; [apply login_failure_grows|extends_by_bound|intros]).
    apply from_login_page_outcome.
  - intros e s0. eexists. split; [reflexivity|].
    intros a _ _. left. exists [], (exn_msg e). reflexivity.
Qed.

(** X14: a login ends without a session in one of two ways, and one of
    them puts the password on the page.  Whenever [login_to_bbo] returns
    [None], either the last thing it has shown is the login error of a
    caught exception, or it has fetched the login page, posted the form
    and shown the failure analysis with the very data it posted: the
    credentials updated with the hidden fields of the page it fetched,
    which hold the password as typed unless a hidden field of that page is
    itself named [password]. *)
Theorem failed_login_shows_the_form
    (w : world) (html_parser : string -> node) (default_headers : Headers.t)
    (py_repr : string -> string) (username password : string)
    (proxy : option (SDict.t string)) (s : io) :
  fst (login_to_bbo w html_parser default_headers py_repr username password proxy s)
  = Ok None ->
  exists t,
    trace (snd (login_to_bbo w html_parser default_headers py_repr username password
                  proxy s))
    = trace s ++ t
    /\ ((exists pre msg,
           t = pre ++ [EvUi st_error [ShStr ("🚨 Login error: " +:+ msg)]])
        \/ exists pre page_rq page_resp post rq,
             t = pre ++ EvRequest page_rq :: post
             /\ rq_method page_rq = GET
             /\ rq_url page_rq = login_page_url
             /\ respond w (trace s ++ pre) page_rq = Ok page_resp
             /\ EvRequest rq ∈ post
             /\ rq_method rq = POST
             /\ rq_url rq = "https://www.bridgebase.com/myhands/myhands_login.php"
             /\ rq_data rq
                = Some (login_data username password
                          (html_parser (resp_text page_resp)))
             /\ EvUi st_write
                  [ShStr "Form Data Submitted:";
                   ShForm (login_data username password
                             (html_parser (resp_text page_resp)))] ∈ post
             /\ ("password"
                 ∉ map fst (discovered (html_parser (resp_text page_resp))) ->
                 SDict.get "password"
                   (login_data username password
                      (html_parser (resp_text page_resp)))
                 = Some (Some password))).
Proof.
  intros H.
  destruct (login_to_bbo_outcome w html_parser default_headers py_repr username
              password proxy s) as (t & E & Ht).
  exists t. split; [exact E|].
  destruct (Ht None H eq_refl)
    as [Herr|(pre & page_rq & page_resp & post & Et & Hm & Hu & Hr
              & (rq & Hin & Hrm & Hru & Hrd) & Hs)].
  - left. exact Herr.
  - right. exists pre, page_rq, page_resp, post, rq.
    repeat (split; [assumption|]).
    intros Hn. apply login_data_credentials; [reflexivity|exact Hn].
Qed.

Lemma failed_login_shows_the_form_witness :
  exists t,
    trace (snd (login_to_bbo (fixed_world 0 site_expired) login_parser ∅
                  Builtin.repr "alice" "secret" None start))
    = trace start ++ t
    /\ ((exists pre msg,
           t = pre ++ [EvUi st_error [ShStr ("🚨 Login error: " +:+ msg)]])
        \/ exists pre page_rq page_resp post rq,
             t = pre ++ EvRequest page_rq :: post
             /\ rq_method page_rq = GET
             /\ rq_url page_rq = login_page_url
             /\ respond (fixed_world 0 site_expired) (trace start ++ pre) page_rq
                = Ok page_resp
             /\ EvRequest rq ∈ post
             /\ rq_method rq = POST
             /\ rq_url rq = "https://www.bridgebase.com/myhands/myhands_login.php"
             /\ rq_data rq
                = Some (login_data "alice" "secret"
                          (login_parser (resp_text page_resp)))
             /\ EvUi st_write
                  [ShStr "Form Data Submitted:";
                   ShForm (login_data "alice" "secret"
                             (login_parser (resp_text page_resp)))] ∈ post
             /\ ("password"
                 ∉ map fst (discovered (login_parser (resp_text page_resp))) ->
                 SDict.get "password"
                   (login_data "alice" "secret"
                      (login_parser (resp_text page_resp)))
                 = Some (Some "secret"))).
Proof.
  apply (failed_login_shows_the_form (fixed_world 0 site_expired) login_parser ∅
           Builtin.repr "alice" "secret" None start).
  vm_compute. reflexivity.
Defined.
